(** * NV_BRT: backup of the NVIDIA driver settings

    A shallow embedding of [main.py] and [make_json.py].  The script is a
    sequence of operating-system calls, so the embedding threads an explicit
    world (a file system and a trace of observable events) through a
    state-and-exception monad, and takes everything the script reads from
    outside (the two external tools, the clock, the environment variables,
    which paths refuse writes, the interpreter's recursion limit) from an
    environment record. *)

From Stdlib Require Import ZArith Ascii String.
From stdpp Require Import gmap strings list fin_maps.

Local Open Scope string_scope.
Local Open Scope list_scope.

(** ** Exceptions and the monad *)

(** The exception classes the script can meet.  [ShutilError] is
    [shutil.Error]; its payload is the list of [(srcname, dstname, str(why))]
    triples that [copytree] gathers. *)
Inductive exn :=
  | FileNotFoundError
  | FileExistsError
  | NotADirectoryError
  | IsADirectoryError
  | PermissionError
  | SameFileError
  | ShutilError (errors : list (list string * list string * string))
  | CalledProcessError (returncode : Z)
  | IndexError
  | TypeError
  | RuntimeError
  | RecursionError.

(** [isinstance(e, OSError)]. *)
Definition is_OSError (e : exn) : bool :=
  match e with
  | FileNotFoundError | FileExistsError | NotADirectoryError
  | IsADirectoryError | PermissionError | SameFileError | ShutilError _ => true
  | _ => false
  end.

(** The class name stands for [str(why)] in the triples of [shutil.Error]. *)
Definition exn_name (e : exn) : string :=
  match e with
  | FileNotFoundError => "FileNotFoundError"
  | FileExistsError => "FileExistsError"
  | NotADirectoryError => "NotADirectoryError"
  | IsADirectoryError => "IsADirectoryError"
  | PermissionError => "PermissionError"
  | SameFileError => "SameFileError"
  | ShutilError _ => "Error"
  | CalledProcessError _ => "CalledProcessError"
  | IndexError => "IndexError"
  | TypeError => "TypeError"
  | RuntimeError => "RuntimeError"
  | RecursionError => "RecursionError"
  end.

Inductive result (A : Type) :=
  | Ok (a : A)
  | Raise (e : exn).
Arguments Ok {A} a.
Arguments Raise {A} e.

(** A computation over a state [S] that returns or raises; the state it
    leaves is kept in both cases, as the effects of a Python call are when
    it raises. *)
Definition M (S A : Type) : Type := S → result A * S.

Definition ret {S A} (a : A) : M S A := λ s, (Ok a, s).
Definition raise {S A} (e : exn) : M S A := λ s, (Raise e, s).
Definition bind {S A B} (c : M S A) (k : A → M S B) : M S B :=
  λ s, match c s with
       | (Ok a, s') => k a s'
       | (Raise e, s') => (Raise e, s')
       end.
(** [try: c  except ... as e: h e]; a handler re-raises what its [except]
    clauses do not name. *)
Definition try_except {S A} (c : M S A) (h : exn → M S A) : M S A :=
  λ s, match c s with
       | (Ok a, s') => (Ok a, s')
       | (Raise e, s') => h e s'
       end.

Notation "'let*' x := c 'in' k" := (bind c (λ x, k))
  (at level 10, x pattern, c at level 100, k at level 200).
Notation "c ;;; k" := (bind c (λ _, k))
  (at level 100, k at level 200, right associativity).

(** ** Paths and the file system *)

(** A [pathlib] path is the list of its parts, the anchor (drive and root,
    ["C:\"], or the empty string for a relative path) first.  Paths are
    compared part by part: links, [..], letter case and the current
    directory's own location are outside the model. *)
Abbreviation path := (list string).

(** [self.parent]: an anchor is its own parent. *)
Definition parent (p : path) : path :=
  match p with
  | [] | [_] => p
  | _ => removelast p
  end.

(** [os.path.basename]. *)
Definition basename (p : path) : string := List.last p "".

(** [str(path)] for a Windows path. *)
Definition str_path (p : path) : string :=
  match p with
  | [] => "."
  | a :: ps => match a +:+ String.concat "\" ps with
               | "" => "."
               | s => s
               end
  end.

Inductive entry :=
  | EFile (data : string)
  | EDir.

#[global] Instance entry_eq_dec : EqDecision entry.
Proof. solve_decision. Defined.

Abbreviation filesystem := (gmap path entry).

Definition is_dir (p : path) (fs : filesystem) : bool :=
  match fs !! p with Some EDir => true | _ => false end.
Definition exists_ (p : path) (fs : filesystem) : bool :=
  match fs !! p with Some _ => true | None => false end.

(** A file system is well formed when whatever it holds lies in a
    directory. *)
Definition wf (fs : filesystem) : Prop :=
  ∀ p, is_Some (fs !! p) → fs !! parent p = Some EDir.

(** [Path.exists()]: [stat] decides.  Of the errors of [stat], those that
    say that the path is not there end in [False]; every other one is
    raised again, as a refused access is ([PermissionError]).  [refused]
    holds the paths on which the operating system refuses [stat]. *)
Definition Path_exists (refused : path → bool) (p : path) : M filesystem bool := λ fs,
  if refused p then (Raise PermissionError, fs) else (Ok (exists_ p fs), fs).

Section fs_ops.
(** The paths on which the operating system refuses to create or write. *)
Variable denied : path → bool.

(** [os.mkdir]. *)
Definition os_mkdir (p : path) : M filesystem unit := λ fs,
  match fs !! p with
  | Some _ => (Raise FileExistsError, fs)
  | None =>
      match fs !! parent p with
      | Some EDir =>
          if denied p then (Raise PermissionError, fs)
          else (Ok (), <[p := EDir]> fs)
      | _ => (Raise FileNotFoundError, fs)
      end
  end.

(** The [except OSError] clause that [Path.mkdir] and [os.makedirs] share
    when [exist_ok] is true: the error is dropped when the directory is
    there. *)
Definition unless_is_dir (p : path) (e : exn) : M filesystem unit := λ fs,
  if is_OSError e && is_dir p fs then (Ok (), fs) else (Raise e, fs).

(** [Path.mkdir(parents=False, exist_ok=True)]. *)
Definition Path_mkdir_leaf (p : path) : M filesystem unit :=
  try_except (os_mkdir p) (λ e,
    match e with
    | FileNotFoundError => raise e
    | _ => unless_is_dir p e
    end).

(** [Path.mkdir(parents=True, exist_ok=True)]; the recursion is on the
    parent, [n] bounds it by the number of parts. *)
Fixpoint Path_mkdir_rec (n : nat) (p : path) : M filesystem unit :=
  try_except (os_mkdir p) (λ e,
    match e with
    | FileNotFoundError =>
        match n with
        | S n' =>
            if decide (parent p = p) then raise e
            else (Path_mkdir_rec n' (parent p) ;;; Path_mkdir_leaf p)
        | O => raise e
        end
    | _ => unless_is_dir p e
    end).
Definition Path_mkdir (p : path) : M filesystem unit :=
  Path_mkdir_rec (length p) p.

(** [os.makedirs(name, exist_ok=True)]. *)
Fixpoint makedirs_rec (n : nat) (p : path) : M filesystem unit :=
  (λ fs,
     match n with
     | S n' =>
         if decide (parent p = p) then (Ok (), fs)
         else if exists_ (parent p) fs then (Ok (), fs)
         else try_except (makedirs_rec n' (parent p)) (λ e,
                match e with
                | FileExistsError => ret ()
                | _ => raise e
                end) fs
     | O => (Ok (), fs)
     end) ;;;
  try_except (os_mkdir p) (unless_is_dir p).
Definition makedirs (p : path) : M filesystem unit :=
  makedirs_rec (length p) p.

(** [open(p, "w")] and [open(p, "wb")]: the file is created or emptied. *)
Definition open_w (p : path) : M filesystem unit := λ fs,
  match fs !! p with
  | Some EDir => (Raise IsADirectoryError, fs)
  | _ =>
      match fs !! parent p with
      | Some EDir =>
          if denied p then (Raise PermissionError, fs)
          else (Ok (), <[p := EFile ""]> fs)
      | _ => (Raise FileNotFoundError, fs)
      end
  end.

(** [open(p, "a")]: the file is created when missing and kept otherwise. *)
Definition open_a (p : path) : M filesystem unit := λ fs,
  match fs !! p with
  | Some EDir => (Raise IsADirectoryError, fs)
  | Some (EFile _) =>
      if denied p then (Raise PermissionError, fs) else (Ok (), fs)
  | None =>
      match fs !! parent p with
      | Some EDir =>
          if denied p then (Raise PermissionError, fs)
          else (Ok (), <[p := EFile ""]> fs)
      | _ => (Raise FileNotFoundError, fs)
      end
  end.

(** [f.write(s)] on a file opened at [p]. *)
Definition f_write (p : path) (s : string) : M filesystem unit := λ fs,
  match fs !! p with
  | Some (EFile d) => (Ok (), <[p := EFile (d +:+ s)]> fs)
  | _ => (Ok (), fs)
  end.

(** [open(p, "rb")] and the read of the whole file. *)
Definition read_file (p : path) : M filesystem string := λ fs,
  match fs !! p with
  | Some (EFile d) => (Ok d, fs)
  | Some EDir => (Raise IsADirectoryError, fs)
  | None => (Raise FileNotFoundError, fs)
  end.

(** [shutil.copyfile]. *)
Definition copyfile (src dst : path) : M filesystem unit := λ fs,
  if bool_decide (src = dst) && exists_ src fs then (Raise SameFileError, fs)
  else (let* d := read_file src in
        open_w dst ;;; f_write dst d) fs.

(** [shutil.copy2]: a destination that is a directory receives the file
    under its own name.  The metadata that [copystat] carries over are
    not part of the model. *)
Definition copy2 (src dst : path) : M filesystem unit := λ fs,
  let dst := if is_dir dst fs then dst ++ [basename src] else dst in
  copyfile src dst fs.

(** [os.scandir]: the names in a directory, each with [is_dir()].  Python
    leaves the order to the operating system; here it is the order in
    which the map lists its keys. *)
Definition children (src : path) (fs : filesystem) : list (string * bool) :=
  omap (λ '(k, e),
          if decide (parent k = src ∧ k ≠ src)
          then Some (basename k, bool_decide (e = EDir)) else None)
       (map_to_list fs).

Definition scandir (src : path) : M filesystem (list (string * bool)) := λ fs,
  match fs !! src with
  | Some EDir => (Ok (children src fs), fs)
  | Some (EFile _) => (Raise NotADirectoryError, fs)
  | None => (Raise FileNotFoundError, fs)
  end.

(** One round of the loop of [_copytree]: the entry is copied, and what
    the two [except] clauses catch is added to [errors].  (For a
    [SameFileError] Python extends the list with the characters of its
    message; the model adds one triple, the list is non-empty either
    way.) *)
Definition copy_entry (rec : path → path → M filesystem unit)
    (src dst : path) (errors : list (path * path * string))
    (srcentry : string * bool) : M filesystem (list (path * path * string)) :=
  let srcname := src ++ [srcentry.1] in
  let dstname := dst ++ [srcentry.1] in
  try_except
    ((if srcentry.2 then rec srcname dstname else copy2 srcname dstname) ;;;
     ret errors)
    (λ e,
       match e with
       | ShutilError errs => ret (errors ++ errs)
       | _ => if is_OSError e
              then ret (errors ++ [(srcname, dstname, exn_name e)])
              else raise e
       end).

Fixpoint for_entries (body : list (path * path * string) → string * bool →
                             M filesystem (list (path * path * string)))
    (entries : list (string * bool)) (errors : list (path * path * string))
    : M filesystem (list (path * path * string)) :=
  match entries with
  | [] => ret errors
  | srcentry :: rest =>
      let* errors := body errors srcentry in
      for_entries body rest errors
  end.

(** [shutil.copytree(src, dst, dirs_exist_ok=True)]: the entries of [src]
    are listed, [dst] is made, each entry is copied, and the errors
    gathered on the way are raised together at the end.  [limit] is the
    number of nested calls the interpreter's recursion limit leaves room
    for; a deeper tree raises [RecursionError], which no clause of
    [_copytree] catches.  The closing [copystat] carries metadata only and
    is not part of the model. *)
Fixpoint copytree (limit : nat) (src dst : path) : M filesystem unit :=
  match limit with
  | O => raise RecursionError
  | S n =>
      let* entries := scandir src in
      makedirs dst ;;;
      let* errors := for_entries (copy_entry (copytree n) src dst) entries [] in
      match errors with
      | [] => ret ()
      | _ => raise (ShutilError errors)
      end
  end.
End fs_ops.

(** ** Strings, dates and their formats *)

(** Python [str] values are Rocq strings, one character for each code
    point, for code points below 256. *)
Definition nl : string := String "010" "".

(** The line boundaries of [str.splitlines] and the white space of
    [str.strip]. *)
Definition is_linebreak (c : ascii) : bool :=
  bool_decide (nat_of_ascii c ∈ [10; 11; 12; 13; 28; 29; 30; 133]).
Definition is_space (c : ascii) : bool :=
  bool_decide (nat_of_ascii c ∈ [9; 10; 11; 12; 13; 28; 29; 30; 31; 32; 133; 160]).

Fixpoint splitlines (s : string) : list string :=
  match s with
  | "" => []
  | String c s' =>
      let continue_line :=
        match splitlines s' with
        | [] => [String c ""]
        | l :: ls => String c l :: ls
        end in
      if is_linebreak c then
        match c, s' with
        | "013"%char, String "010" s'' => "" :: splitlines s''
        | _, _ => "" :: splitlines s'
        end
      else continue_line
  end.

Fixpoint lstrip (s : string) : string :=
  match s with
  | String c s' => if is_space c then lstrip s' else s
  | "" => ""
  end.
Fixpoint rstrip (s : string) : string :=
  match s with
  | String c s' =>
      match rstrip s' with
      | "" => if is_space c then "" else String c ""
      | r => String c r
      end
  | "" => ""
  end.
Definition strip (s : string) : string := rstrip (lstrip s).

Definition digit (n : Z) : ascii :=
  match n with
  | 0 => "0" | 1 => "1" | 2 => "2" | 3 => "3" | 4 => "4"
  | 5 => "5" | 6 => "6" | 7 => "7" | 8 => "8" | _ => "9"
  end%Z%char.

(** [%02d], [%04d] and [%06d] of a number that fits the width, put in front
    of [rest]. *)
Definition pad2 (n : Z) (rest : string) : string :=
  String (digit (n / 10)) (String (digit (n mod 10)) rest).
Definition pad4 (n : Z) (rest : string) : string :=
  pad2 (n / 100) (pad2 (n mod 100) rest).
Definition pad6 (n : Z) (rest : string) : string :=
  pad2 (n / 10000) (pad4 (n mod 10000) rest).

(** A naive [datetime.datetime], as [datetime.now()] returns it. *)
Record datetime := {
  year : Z; month : Z; day : Z;
  hour : Z; minute : Z; second : Z; microsecond : Z
}.

(** The ranges every [datetime] object keeps. *)
Definition valid_datetime (t : datetime) : Prop :=
  (1 ≤ year t ≤ 9999 ∧ 1 ≤ month t ≤ 12 ∧ 1 ≤ day t ≤ 31 ∧
   0 ≤ hour t < 24 ∧ 0 ≤ minute t < 60 ∧ 0 ≤ second t < 60 ∧
   0 ≤ microsecond t < 1000000)%Z.

(** [t.strftime("%Y%m%d_%H%M%S")]. *)
Definition strftime_stamp (t : datetime) : string :=
  pad4 (year t) (pad2 (month t) (pad2 (day t)
    (String "_" (pad2 (hour t) (pad2 (minute t) (pad2 (second t) "")))))).

(** [str(t)]: ISO format with a space, the fraction left out when zero. *)
Definition str_datetime (t : datetime) : string :=
  pad4 (year t) (String "-" (pad2 (month t) (String "-" (pad2 (day t)
    (String " " (pad2 (hour t) (String ":" (pad2 (minute t) (String ":"
      (pad2 (second t)
         (if decide (microsecond t = 0%Z) then ""
          else String "." (pad6 (microsecond t) "")))))))))))).

(** [datetime.toordinal]: days since 0001-01-01, that day being 1. *)
Definition is_leap (y : Z) : bool :=
  bool_decide (y mod 4 = 0 ∧ (y mod 100 ≠ 0 ∨ y mod 400 = 0))%Z.
Definition days_before_year (y : Z) : Z :=
  (let y := y - 1 in y * 365 + y / 4 - y / 100 + y / 400)%Z.
Definition days_in_month (y m : Z) : Z :=
  match m with
  | 2 => if is_leap y then 29 else 28
  | 4 | 6 | 9 | 11 => 30
  | _ => 31
  end%Z.
Definition days_before_month (y m : Z) : Z :=
  foldr Z.add 0%Z (days_in_month y <$> seqZ 1 (m - 1)).
Definition toordinal (t : datetime) : Z :=
  (days_before_year (year t) + days_before_month (year t) (month t) + day t)%Z.

(** The microseconds from 0001-01-01 00:00:00 to [t]; the difference of two
    of them is what [t1 - t2] measures. *)
Definition to_microseconds (t : datetime) : Z :=
  (((((toordinal t - 1) * 24 + hour t) * 60 + minute t) * 60 + second t)
   * 1000000 + microsecond t)%Z.

(** ** The environment and the world *)

(** What starting an external program leads to: the program cannot be
    started, or it runs and exits with a status and an output. *)
Inductive proc_outcome :=
  | ProcNotFound
  | ProcExit (returncode : Z) (stdout : string).

Record env := {
  (** what [nvidia-smi --query-gpu=driver_version --format=csv] does *)
  nvidia_smi : proc_outcome;
  (** what [reg export] does, and the text of the export it writes when it
      exits with status 0 *)
  reg_export : proc_outcome;
  reg_dump : string;
  (** [os.getenv('PROGRAMDATA')], read as a path when set *)
  PROGRAMDATA : option path;
  (** the home directory, when it can be determined *)
  home_dir : option path;
  (** the successive readings of the clock *)
  clock : nat → datetime;
  (** the paths that refuse creation and writing *)
  denied : path → bool;
  (** the paths that the operating system refuses to examine: [stat] fails
      on them with [PermissionError] *)
  stat_refused : path → bool;
  (** the depth of nested [copytree] calls the interpreter allows *)
  recursion_limit : nat
}.

Inductive level := INFO | WARNING | ERROR.

(** The observable actions, in the order they happen.  A log record keeps
    the text of its message and, where the message ends with an exception,
    the exception itself. *)
Inductive event :=
  | EvLog (lvl : level) (msg : string) (exc : option exn)
  | EvPrint (s : string)
  | EvSubprocess (argv : list string)
  | EvMkdir (p : path)
  | EvCopytree (src dst : path)
  | EvOpen (p : path).

Record world := {
  fs : filesystem;
  trace : list event;
  (** how many times the clock has been read *)
  clock_reads : nat;
  (** whether [logging.basicConfig] has installed the handlers *)
  logging_configured : bool
}.

Definition set_fs (f : filesystem) (w : world) : world :=
  {| fs := f; trace := trace w; clock_reads := clock_reads w;
     logging_configured := logging_configured w |}.

Definition lift_fs {A} (c : M filesystem A) : M world A := λ w,
  let '(r, f) := c (fs w) in (r, set_fs f w).

Definition emit (ev : event) : M world unit := λ w,
  (Ok (), {| fs := fs w; trace := trace w ++ [ev]; clock_reads := clock_reads w;
             logging_configured := logging_configured w |}).

(** [print]: the console is taken to accept every text. *)
Definition print (s : string) : M world unit := emit (EvPrint s).

(** [logging.info], [logging.warning] and [logging.error].  The handlers
    never raise.  With the handlers of [setup_logging] the records go to
    [nvidia_backup.log] and to the console; before that the root logger
    stands at WARNING and drops INFO records. *)
Definition logging_log (lvl : level) (msg : string) (exc : option exn)
    : M world unit := λ w,
  match lvl with
  | INFO => if logging_configured w then emit (EvLog lvl msg exc) w else (Ok (), w)
  | _ => emit (EvLog lvl msg exc) w
  end.
Definition logging_info (msg : string) : M world unit := logging_log INFO msg None.
Definition logging_warning (msg : string) : M world unit :=
  logging_log WARNING msg None.
Definition logging_error (msg : string) (e : exn) : M world unit :=
  logging_log ERROR msg (Some e).

(** [datetime.datetime.now()]. *)
Definition datetime_now (E : env) : M world datetime := λ w,
  (Ok (clock E (clock_reads w)),
   {| fs := fs w; trace := trace w; clock_reads := S (clock_reads w);
      logging_configured := logging_configured w |}).

(** [subprocess.run(argv, capture_output=True, text=True, check=True)],
    returning [result.stdout]; [effect] is what the program does to the
    world while it runs. *)
Definition subprocess_run (argv : list string) (o : proc_outcome)
    (effect : M world unit) : M world string :=
  emit (EvSubprocess argv) ;;;
  match o with
  | ProcNotFound => raise FileNotFoundError
  | ProcExit rc out =>
      effect ;;;
      if decide (rc = 0%Z) then ret out else raise (CalledProcessError rc)
  end.

(** [l[i]] *)
Definition index {S A} (l : list A) (i : nat) : M S A :=
  match l !! i with
  | Some x => ret x
  | None => raise IndexError
  end.

(** ** main.py *)

Definition log_file : path := [""; "nvidia_backup.log"].

(** [setup_logging]: [logging.FileHandler('nvidia_backup.log')] opens the
    log file for appending in the current directory, then [basicConfig]
    installs the handlers at level INFO. *)
Definition setup_logging (E : env) : M world unit :=
  lift_fs (open_a (denied E) log_file) ;;;
  λ w, (Ok (), {| fs := fs w; trace := trace w; clock_reads := clock_reads w;
                  logging_configured := true |}).

Definition nvidia_smi_argv : list string :=
  ["nvidia-smi"; "--query-gpu=driver_version"; "--format=csv"].

Definition get_nvidia_driver_info (E : env) : M world string :=
  try_except
    (let* stdout := subprocess_run nvidia_smi_argv (nvidia_smi E) (ret ()) in
     let* line := index (splitlines stdout) 1 in
     let driver_version := strip line in
     logging_info ("NVIDIA Driver Version: " +:+ driver_version) ;;;
     ret driver_version)
    (λ e,
       match e with
       | CalledProcessError _ =>
           logging_error "Failed to retrieve NVIDIA driver info: " e ;;;
           ret "Unknown"
       | _ => raise e
       end).

(** [Path.home()]. *)
Definition Path_home (E : env) : M world path :=
  match home_dir E with
  | Some h => ret h
  | None => raise RuntimeError
  end.

Definition backup_dir_name (now : datetime) : string :=
  "NVIDIA_Settings_Backup_" +:+ strftime_stamp now.

Definition create_backup_directory (E : env) : M world path :=
  let* now := datetime_now E in
  let timestamp := strftime_stamp now in
  let* home := Path_home E in
  let backup_dir := home ++ ["NVIDIA_Settings_Backup_" +:+ timestamp] in
  emit (EvMkdir backup_dir) ;;;
  lift_fs (Path_mkdir (denied E) backup_dir) ;;;
  logging_info ("Created backup directory: " +:+ str_path backup_dir) ;;;
  ret backup_dir.

(** [Path(os.getenv('PROGRAMDATA')) / "NVIDIA Corporation" / "Drs"];
    [Path(None)] raises [TypeError]. *)
Definition src_dir_of (pd : path) : path := pd ++ ["NVIDIA Corporation"; "Drs"].
Definition get_src_dir (E : env) : M world path :=
  match PROGRAMDATA E with
  | Some pd => ret (src_dir_of pd)
  | None => raise TypeError
  end.

Definition dest_dir_of (backup_dir : path) : path := backup_dir ++ ["NVIDIA_Profiles"].

Definition backup_nvidia_profile_files (E : env) (backup_dir : path) : M world bool :=
  let* src_dir := get_src_dir E in
  let* found := lift_fs (Path_exists (stat_refused E) src_dir) in
  if negb found then
    logging_warning ("NVIDIA profile directory not found: " +:+ str_path src_dir) ;;;
    ret false
  else
    let dest_dir := dest_dir_of backup_dir in
    try_except
      (emit (EvCopytree src_dir dest_dir) ;;;
       lift_fs (copytree (denied E) (recursion_limit E) src_dir dest_dir) ;;;
       logging_info ("Backed up NVIDIA profile files to: " +:+ str_path dest_dir) ;;;
       ret true)
      (λ e,
         logging_error "Failed to back up NVIDIA profile files: " e ;;;
         ret false).

Definition reg_file_of (backup_dir : path) : path :=
  backup_dir ++ ["nvidia_registry_backup.reg"].
Definition reg_argv (reg_file : path) : list string :=
  ["reg"; "export"; "HKCU\Software\NVIDIA Corporation"; str_path reg_file].

(** The effect of [reg export] on the file system: when it exits with
    status 0 the export file holds the exported text. *)
Definition reg_effect (E : env) (reg_file : path) : M world unit :=
  match reg_export E with
  | ProcExit 0 _ => lift_fs (λ f, (Ok (), <[reg_file := EFile (reg_dump E)]> f))
  | _ => ret ()
  end.

Definition backup_nvidia_registry_settings (E : env) (backup_dir : path) : M world bool :=
  let reg_file := reg_file_of backup_dir in
  try_except
    (subprocess_run (reg_argv reg_file) (reg_export E) (reg_effect E reg_file) ;;;
     logging_info ("Backed up NVIDIA registry settings to: " +:+ str_path reg_file) ;;;
     ret true)
    (λ e,
       match e with
       | CalledProcessError _ =>
           logging_error "Failed to back up NVIDIA registry settings: " e ;;;
           ret false
       | _ => raise e
       end).

Definition msg_completed (backup_dir : path) : string :=
  nl +:+ "Backup completed! Files saved to: " +:+ str_path backup_dir.
Definition msg_partial : string :=
  nl +:+ "Backup partially failed. Check nvidia_backup.log for details.".
Definition msg_manual : string :=
  "Please manually document display settings (e.g., resolution, refresh rate, HDR) as they are not included.".

Definition driver_info_of (backup_dir : path) : path := backup_dir ++ ["driver_info.txt"].

Definition main (E : env) : M world unit :=
  setup_logging E ;;;
  logging_info "Starting NVIDIA driver settings backup process" ;;;
  let* driver_version := get_nvidia_driver_info E in
  let* backup_dir := create_backup_directory E in
  let* profile_backup_success := backup_nvidia_profile_files E backup_dir in
  let* registry_backup_success := backup_nvidia_registry_settings E backup_dir in
  (if profile_backup_success && registry_backup_success then
     logging_info ("Backup completed successfully. Files saved to: "
                   +:+ str_path backup_dir) ;;;
     print (msg_completed backup_dir) ;;;
     print msg_manual
   else
     logging_warning "Backup partially failed. Check log for details." ;;;
     print msg_partial) ;;;
  (let f := driver_info_of backup_dir in
   emit (EvOpen f) ;;;
   lift_fs (open_w (denied E) f) ;;;
   lift_fs (f_write f ("NVIDIA Driver Version: " +:+ driver_version +:+ nl)) ;;;
   let* now := datetime_now E in
   lift_fs (f_write f ("Backup Date: " +:+ str_datetime now +:+ nl)) ;;;
   lift_fs (f_write f ("System: Windows 11 Pro 64-bit (Build 26100)" +:+ nl)) ;;;
   lift_fs (f_write f ("GPU: NVIDIA GeForce RTX 4070 Ti SUPER" +:+ nl))) ;;;
  print (nl +:+ "Next steps:") ;;;
  print "- Verify the backup files in the directory." ;;;
  print "- Consider copying the backup folder to an external drive or cloud storage." ;;;
  print "- To restore, manually import the .reg file and copy profile files back (see documentation).".

(** ** make_json.py *)

Definition dquote : ascii := "034"%char.
Definition backslash : ascii := "\"%char.

Definition hex_digit (n : nat) : ascii :=
  match n with
  | 0 => "0" | 1 => "1" | 2 => "2" | 3 => "3" | 4 => "4" | 5 => "5" | 6 => "6"
  | 7 => "7" | 8 => "8" | 9 => "9" | 10 => "a" | 11 => "b" | 12 => "c"
  | 13 => "d" | 14 => "e" | _ => "f"
  end%char.

(** [json.encoder.encode_basestring_ascii], one character at a time, the
    output put in front of [rest]: the quote, the backslash and the control
    characters with a short form get it, the printable ASCII characters
    stand for themselves, every other code point becomes [\uXXXX]. *)
Definition escape_char (c : ascii) (rest : string) : string :=
  let n := nat_of_ascii c in
  if decide (c = dquote) then String backslash (String dquote rest)
  else if decide (c = backslash) then String backslash (String backslash rest)
  else if decide (n = 10) then String backslash (String "n" rest)
  else if decide (n = 13) then String backslash (String "r" rest)
  else if decide (n = 9) then String backslash (String "t" rest)
  else if decide (n = 8) then String backslash (String "b" rest)
  else if decide (n = 12) then String backslash (String "f" rest)
  else if decide (32 ≤ n ≤ 126)%nat then String c rest
  else String backslash (String "u" (String "0" (String "0"
         (String (hex_digit (n / 16)) (String (hex_digit (n mod 16)) rest))))).

Fixpoint escape (s : string) (rest : string) : string :=
  match s with
  | "" => rest
  | String c s' => escape_char c (escape s' rest)
  end.

Definition encode_basestring_ascii (s : string) (rest : string) : string :=
  String dquote (escape s (String dquote rest)).

(** The items of a dictionary as [json.dump(..., indent=4)] writes them at
    the top level: ["key": "value"], separated by a comma and a new line
    with four spaces. *)
Fixpoint dump_items (items : list (string * string)) (rest : string) : string :=
  match items with
  | [] => rest
  | (k, v) :: more =>
      encode_basestring_ascii k
        (": " +:+ encode_basestring_ascii v
           (match more with
            | [] => rest
            | _ => "," +:+ nl +:+ "    " +:+ dump_items more rest
            end))
  end.

(** [json.dumps(obj, indent=4)] for a dictionary from strings to strings. *)
Definition json_dumps (obj : list (string * string)) : string :=
  match obj with
  | [] => "{}"
  | _ => "{" +:+ nl +:+ "    " +:+ dump_items obj (nl +:+ "}")
  end.

Definition config_file : path := [""; "config.json"].

(** The configuration dictionary. *)
Definition config (src_dir : path) : list (string * string) :=
  [("src_dir", str_path src_dir)].

(** The script [make_json.py].  ([json.dump] writes the document in
    pieces; they are written here as one.) *)
Definition make_json (E : env) : M world unit :=
  let* src_dir := get_src_dir E in
  emit (EvOpen config_file) ;;;
  lift_fs (open_w (denied E) config_file) ;;;
  lift_fs (f_write config_file (json_dumps (config src_dir))) ;;;
  print ("Configuration file created: " +:+ "config.json").

(** *** Reading a JSON document

    To say what a document contains it is read back, by the JSON grammar
    for an object whose values are strings. *)










(** ** Relations between two states of the file system *)

Definition kind (e : entry) : bool :=
  match e with EDir => true | EFile _ => false end.

(** Nothing was removed, and nothing turned from a file into a directory or
    back. *)
Definition extends (fs fs' : filesystem) : Prop :=
  ∀ p e, fs !! p = Some e → ∃ e', fs' !! p = Some e' ∧ kind e' = kind e.

(** The only paths that differ are paths under [dst], and ancestors of
    [dst] that were missing and are now directories. *)
Definition touches_only (dst : path) (fs fs' : filesystem) : Prop :=
  ∀ p, fs' !! p = fs !! p ∨ dst `prefix_of` p ∨
       (p `prefix_of` dst ∧ fs !! p = None ∧ fs' !! p = Some EDir).

Definition step (dst : path) (fs fs' : filesystem) : Prop :=
  extends fs fs' ∧ touches_only dst fs fs' ∧ (wf fs → wf fs').

(** The exceptions other than [shutil.Error]. *)
Definition no_shutil (e : exn) : Prop :=
  match e with ShutilError _ => False | _ => True end.

(** The only change is that missing directories on the way to [p] were
    created. *)
Definition creates_dirs (p : path) (fs fs' : filesystem) : Prop :=
  ∀ q, fs' !! q = fs !! q ∨ (q `prefix_of` p ∧ fs !! q = None ∧ fs' !! q = Some EDir).

(** The state in which the copy from [src0] to [dst0] keeps the file system,
    seen from the state [fs0] it started in: nothing of [fs0] was removed
    or changed its kind, the file system is well formed, and a directory
    that [fs0] did not have mirrors a source directory or leads to
    [dst0]. *)
Definition copy_inv (src0 dst0 : path) (fs0 fs : filesystem) : Prop :=
  extends fs0 fs ∧ wf fs ∧
  ∀ p, fs !! p = Some EDir →
       fs0 !! p = Some EDir ∨
       (∃ q, p = dst0 ++ q ∧ fs !! (src0 ++ q) = Some EDir) ∨
       (p `prefix_of` dst0 ∧ p ≠ dst0).

(** What one round of the loop of [copytree] over the entries of
    [src0 ++ r] achieves for the entry [x]: when [x] is a file, that file is
    under [dst0]; when [x] is a directory, the files below it are. *)
Definition copied (src0 dst0 : path) (fs0 : filesystem)
    (r : path) (x : string * bool) (fs : filesystem) : Prop :=
  ∀ q d, fs0 !! (src0 ++ r ++ x.1 :: q) = Some (EFile d) →
         x.2 = bool_decide (q ≠ []) →
         ∃ d', fs !! (dst0 ++ r ++ x.1 :: q) = Some (EFile d').

(** ** Reading a trace *)

#[global] Instance exn_eq_dec : EqDecision exn.
Proof. solve_decision. Defined.
#[global] Instance level_eq_dec : EqDecision level.
Proof. solve_decision. Defined.
#[global] Instance event_eq_dec : EqDecision event.
Proof. solve_decision. Defined.

(** The steps of a run: its events other than log records. *)
Definition is_step (ev : event) : bool :=
  match ev with EvLog _ _ _ => false | _ => true end.
Definition steps (tr : list event) : list event := filter (λ ev, is_step ev) tr.

(** Whether the events of [evs] occur in [tr] in the order of [evs]. *)
Fixpoint occurs_in_order (evs tr : list event) : bool :=
  match evs, tr with
  | [], _ => true
  | _ :: _, [] => false
  | ev :: evs', x :: tr' =>
      if decide (ev = x) then occurs_in_order evs' tr' else occurs_in_order evs tr'
  end.

(** The four lines [main] prints last. *)
Definition next_steps : list event :=
  [EvPrint (nl +:+ "Next steps:");
   EvPrint "- Verify the backup files in the directory.";
   EvPrint "- Consider copying the backup folder to an external drive or cloud storage.";
   EvPrint "- To restore, manually import the .reg file and copy profile files back (see documentation)."].

(** What [main] prints as its summary, from the two flags. *)
Definition summary (backup_dir : path) (profile_ok registry_ok : bool) : list event :=
  if profile_ok && registry_ok
  then [EvPrint (msg_completed backup_dir); EvPrint msg_manual]
  else [EvPrint msg_partial].

(** The text [main] writes to [driver_info.txt]. *)
Definition driver_info_text (driver_version : string) (now : datetime) : string :=
  ("NVIDIA Driver Version: " +:+ driver_version +:+ nl) +:+
  ("Backup Date: " +:+ str_datetime now +:+ nl) +:+
  ("System: Windows 11 Pro 64-bit (Build 26100)" +:+ nl) +:+
  ("GPU: NVIDIA GeForce RTX 4070 Ti SUPER" +:+ nl).

(** Two clock readings within the same second. *)
Definition same_second (t1 t2 : datetime) : Prop :=
  year t1 = year t2 ∧ month t1 = month t2 ∧ day t1 = day t2 ∧
  hour t1 = hour t2 ∧ minute t1 = minute t2 ∧ second t1 = second t2.

(** A check of [wf] that computes. *)
Definition wf_check (fs : filesystem) : bool :=
  bool_decide (map_Forall (λ p _, fs !! parent p = Some EDir) fs).

(** A computation step that changes nothing but the log. *)
Definition quiet (w w' : world) : Prop :=
  fs w' = fs w ∧ clock_reads w' = clock_reads w ∧ steps (trace w') = steps (trace w).

(** What [get_nvidia_driver_info] returns or raises, from what
    [nvidia-smi] does. *)
Definition driver_query (E : env) : result string :=
  match nvidia_smi E with
  | ProcNotFound => Raise FileNotFoundError
  | ProcExit rc stdout =>
      if decide (rc = 0%Z) then
        match splitlines stdout !! 1 with
        | Some line => Ok (strip line)
        | None => Raise IndexError
        end
      else Ok "Unknown"
  end.

(** The file system and the flag that the profile step leaves, started in
    [f]: the copy is attempted when the source directory is there. *)
Definition profile_step (E : env) (src_dir dest_dir : path)
    (f f' : filesystem) (flag : bool) : Prop :=
  if exists_ src_dir f then
    ∃ r0, copytree (denied E) (recursion_limit E) src_dir dest_dir f = (r0, f') ∧
          flag = match r0 with Ok _ => true | Raise _ => false end
  else f' = f ∧ flag = false.

(** The same for the registry step, [reg] having exited with status [rc]. *)
Definition registry_step (E : env) (reg_file : path) (rc : Z)
    (f f' : filesystem) (flag : bool) : Prop :=
  if decide (rc = 0%Z) then f' = <[reg_file := EFile (reg_dump E)]> f ∧ flag = true
  else f' = f ∧ flag = false.

(** The steps of a run of [main] that completes. *)
Definition main_steps (src_dir backup_dir : path) (copy_attempted : bool)
    (profile_ok registry_ok : bool) : list event :=
  [EvSubprocess nvidia_smi_argv; EvMkdir backup_dir] ++
  (if copy_attempted then [EvCopytree src_dir (dest_dir_of backup_dir)] else []) ++
  [EvSubprocess (reg_argv (reg_file_of backup_dir))] ++
  summary backup_dir profile_ok registry_ok ++
  [EvOpen (driver_info_of backup_dir)] ++
  next_steps.

(** ** The runs of [main] in which no step raises past the script *)

(** [p] can be opened for writing: it lies in a directory, is not a
    directory itself and does not refuse writes. *)
Definition can_write (denied : path → bool) (f : filesystem) (p : path) : Prop :=
  f !! parent p = Some EDir ∧ f !! p ≠ Some EDir ∧ denied p = false.

(** The backup directory of a run started in [w], when the home directory
    is [home]. *)
Definition backup_dir_of (E : env) (w : world) (home : path) : path :=
  home ++ [backup_dir_name (clock E (clock_reads w))].

(** The log file can be opened; [nvidia-smi] starts, and prints at least
    two lines when it exits with status 0; the home directory is known and
    the backup directory can be made in it; PROGRAMDATA is set and the
    path of the profile directory can be examined; [reg] starts;
    [driver_info.txt] can be written.  Nothing is asked of what the
    profile directory holds or whether it is there, of the copy, or of the
    exit status of [reg]. *)
Definition runnable (E : env) (w : world) : Prop :=
  can_write (denied E) (fs w) log_file ∧
  (∃ rc stdout, nvidia_smi E = ProcExit rc stdout ∧
                (rc ≠ 0%Z ∨ is_Some (splitlines stdout !! 1))) ∧
  (∃ home, home_dir E = Some home ∧
     let backup_dir := backup_dir_of E w home in
     fs w !! parent backup_dir = Some EDir ∧
     (∀ d, fs w !! backup_dir ≠ Some (EFile d)) ∧
     denied E backup_dir = false ∧
     fs w !! driver_info_of backup_dir ≠ Some EDir ∧
     denied E (driver_info_of backup_dir) = false) ∧
  (∃ pd, PROGRAMDATA E = Some pd ∧ stat_refused E (src_dir_of pd) = false) ∧
  (∃ rc stdout, reg_export E = ProcExit rc stdout).

(** ** A machine to run the script on *)

Definition ex_home : path := ["C:\"; "Users"; "me"].
Definition ex_programdata : path := ["C:\"; "ProgramData"].
Definition ex_src : path := src_dir_of ex_programdata.

(** The current directory, a home directory, and a profile directory that
    holds one file and one subdirectory with a file. *)
Definition ex_fs : filesystem :=
  list_to_map
    [([""], EDir);
     (["C:\"], EDir);
     (["C:\"; "Users"], EDir);
     (ex_home, EDir);
     (ex_programdata, EDir);
     (ex_programdata ++ ["NVIDIA Corporation"], EDir);
     (ex_src, EDir);
     (ex_src ++ ["nvdrsdb0.bin"], EFile "profiles");
     (ex_src ++ ["backup"], EDir);
     (ex_src ++ ["backup"; "nvdrssel.bin"], EFile "selection")].

Definition ex_now : datetime :=
  {| year := 2024; month := 3; day := 9;
     hour := 14; minute := 5; second := 7; microsecond := 123 |}.
Definition ex_later : datetime :=
  {| year := 2024; month := 3; day := 9;
     hour := 14; minute := 5; second := 8; microsecond := 123 |}.
Definition ex_same_second : datetime :=
  {| year := 2024; month := 3; day := 9;
     hour := 14; minute := 5; second := 7; microsecond := 999999 |}.

Definition ex_env_with (smi reg : proc_outcome) (pd : option path)
    (denied : path → bool) (clock : nat → datetime) : env :=
  {| nvidia_smi := smi; reg_export := reg; reg_dump := "Windows Registry Editor Version 5.00";
     PROGRAMDATA := pd; home_dir := Some ex_home;
     clock := clock; denied := denied; stat_refused := λ _, false;
     recursion_limit := 100 |}.

Definition smi_ok : proc_outcome :=
  ProcExit 0 ("driver_version" +:+ nl +:+ "551.23" +:+ nl).
Definition reg_ok : proc_outcome := ProcExit 0 "The operation completed successfully.".

(** Everything works. *)
Definition ex_env : env :=
  ex_env_with smi_ok reg_ok (Some ex_programdata) (λ _, false) (λ _, ex_now).

Definition ex_world_on (f : filesystem) : world :=
  {| fs := f; trace := []; clock_reads := 0; logging_configured := false |}.
Definition ex_world : world := ex_world_on ex_fs.

Definition ex_backup_dir : path := ex_home ++ ["NVIDIA_Settings_Backup_20240309_140507"].

(** The same machine when the backup directory cannot be created, when
    [driver_info.txt] cannot be written, when [reg] cannot be started, and
    when [nvidia-smi] exits with status 1. *)
Definition ex_env_no_mkdir : env :=
  ex_env_with smi_ok reg_ok (Some ex_programdata)
    (λ p, bool_decide (p = ex_backup_dir)) (λ _, ex_now).
Definition ex_env_no_write : env :=
  ex_env_with smi_ok reg_ok (Some ex_programdata)
    (λ p, bool_decide (p = driver_info_of ex_backup_dir)) (λ _, ex_now).
Definition ex_env_no_reg : env :=
  ex_env_with smi_ok ProcNotFound (Some ex_programdata) (λ _, false) (λ _, ex_now).
Definition ex_env_smi_fails : env :=
  ex_env_with (ProcExit 1 "") reg_ok (Some ex_programdata) (λ _, false) (λ _, ex_now).

(** The order of steps with the status printed after the summary file is
    written. *)
Definition status_last_order (src_dir backup_dir : path) (status : event) : list event :=
  [EvSubprocess nvidia_smi_argv;
   EvMkdir backup_dir;
   EvCopytree src_dir (dest_dir_of backup_dir);
   EvSubprocess (reg_argv (reg_file_of backup_dir));
   EvOpen (driver_info_of backup_dir);
   status].

(** A check that [f] holds nothing at or under [dst]. *)
Definition nothing_under (dst : path) (f : filesystem) : bool :=
  bool_decide (map_Forall (λ k _, ¬ dst `prefix_of` k) f).

(** The machine with a backup directory and no profile directory. *)
Definition ex_fs_no_profiles : filesystem :=
  list_to_map
    [([""], EDir);
     (["C:\"], EDir);
     (["C:\"; "Users"], EDir);
     (ex_home, EDir);
     (ex_backup_dir, EDir);
     (ex_programdata, EDir)].

(** The machine with a backup directory whose [NVIDIA_Profiles] already
    holds a directory named like the profile file. *)
Definition ex_fs_clash : filesystem :=
  <[dest_dir_of ex_backup_dir ++ ["nvdrsdb0.bin"] := EDir]>
    (<[dest_dir_of ex_backup_dir := EDir]> (<[ex_backup_dir := EDir]> ex_fs)).

(** The machine on which a second run starts within the second of the
    first. *)
Definition ex_env_twice : env :=
  ex_env_with smi_ok reg_ok (Some ex_programdata) (λ _, false)
    (λ n, match n with 0 => ex_now | _ => ex_same_second end).

(** ** A copy into a new destination *)

(** The state in which a copy from [src0] into a destination [dst0] that
    was empty keeps the file system: it is well formed, the source tree is
    as in [fs0], and what the destination holds so far is what the source
    holds at the same relative path. *)
Definition mirror_inv (src0 dst0 : path) (fs0 fs : filesystem) : Prop :=
  wf fs ∧
  (∀ q, fs !! (src0 ++ q) = fs0 !! (src0 ++ q)) ∧
  (∀ q, fs !! (dst0 ++ q) = None ∨ fs !! (dst0 ++ q) = fs0 !! (src0 ++ q)).

(** What the round of the loop for the entry [x] of [src0 ++ r] leaves
    under [dst0]: the entry and all that lies below it. *)
Definition mirrored (src0 dst0 : path) (fs0 : filesystem)
    (r : path) (x : string * bool) (fs : filesystem) : Prop :=
  ∀ q e, fs0 !! (src0 ++ r ++ x.1 :: q) = Some e →
         x.2 = bool_decide (fs0 !! (src0 ++ r ++ [x.1]) = Some EDir) →
         fs !! (dst0 ++ r ++ x.1 :: q) = Some e.

(** ** Plain text *)

(** Whether every character of [s] satisfies [P]. *)
Fixpoint all_chars (P : ascii → bool) (s : string) : bool :=
  match s with
  | "" => true
  | String c s' => P c && all_chars P s'
  end.

(** A string without a line boundary. *)
Definition one_line (s : string) : Prop :=
  all_chars (λ c, negb (is_linebreak c)) s = true.

(** The characters of a plain ASCII text: the printable ones and the line
    feed. *)
Definition is_plain_ascii (c : ascii) : bool :=
  bool_decide (32 ≤ nat_of_ascii c ≤ 126 ∨ nat_of_ascii c = 10)%nat.

(** ** The wall clock and the making of the backup directory *)

(** [datetime.now()] gives the local time without its zone: at the instant
    [i], counted in microseconds of UTC from 0001-01-01 00:00:00, in a
    zone that is then [off] seconds ahead of UTC, it returns the datetime
    that lies [i + off * 1000000] microseconds after 0001-01-01
    00:00:00. *)
Definition reads_at (off i : Z) (t : datetime) : Prop :=
  valid_datetime t ∧ to_microseconds t = (i + off * 1000000)%Z.

(** The backup directory of a run started in [w] can be made: its parent
    is a directory, no file stands in its place, and its path does not
    refuse creation. *)
Definition can_make_backup_dir (E : env) (w : world) (home : path) : Prop :=
  let backup_dir := backup_dir_of E w home in
  fs w !! parent backup_dir = Some EDir ∧
  (∀ d, fs w !! backup_dir ≠ Some (EFile d)) ∧
  denied E backup_dir = false.

(** ** More machines *)

(** The machine of the examples when the operating system refuses to
    examine the path of the profile directory (a directory above it does
    not let its entries be looked up). *)
Definition ex_env_unreadable : env :=
  {| nvidia_smi := smi_ok; reg_export := reg_ok;
     reg_dump := "Windows Registry Editor Version 5.00";
     PROGRAMDATA := Some ex_programdata; home_dir := Some ex_home;
     clock := λ _, ex_now; denied := λ _, false;
     stat_refused := λ p, bool_decide (p = ex_src);
     recursion_limit := 100 |}.

(** The machine of the examples one second later. *)
Definition ex_env_later : env :=
  ex_env_with smi_ok reg_ok (Some ex_programdata) (λ _, false) (λ _, ex_later).

(** The night in which summer time ends in central Europe: the wall clock
    shows 02:30 twice, an hour apart. *)
Definition ex_fold : datetime :=
  {| year := 2024; month := 10; day := 27;
     hour := 2; minute := 30; second := 0; microsecond := 0 |}.
Definition ex_env_fold : env :=
  ex_env_with smi_ok reg_ok (Some ex_programdata) (λ _, false) (λ _, ex_fold).

(** The machine of the examples when the log file refuses writing, when
    [nvidia-smi] prints the header of its table and nothing else, when
    [reg] exits with status 1, and when PROGRAMDATA is not set. *)
Definition ex_env_no_log : env :=
  ex_env_with smi_ok reg_ok (Some ex_programdata)
    (λ p, bool_decide (p = log_file)) (λ _, ex_now).
Definition ex_env_header_only : env :=
  ex_env_with (ProcExit 0 ("driver_version" +:+ nl)) reg_ok (Some ex_programdata)
    (λ _, false) (λ _, ex_now).
Definition ex_env_reg_fails : env :=
  ex_env_with smi_ok (ProcExit 1 "") (Some ex_programdata) (λ _, false) (λ _, ex_now).
Definition ex_env_no_programdata : env :=
  ex_env_with smi_ok reg_ok None (λ _, false) (λ _, ex_now).

(** The machine with a PROGRAMDATA whose name has a character outside
    ASCII. *)
Definition ex_env_latin : env :=
  ex_env_with smi_ok reg_ok (Some ["C:\"; String "201"%char "tude"])
    (λ _, false) (λ _, ex_now).

(** A disk on which the home directory does not exist yet, and the disk of
    the examples with a file where the backup directory is to be made. *)
Definition ex_fs_no_home : filesystem :=
  list_to_map [([""], EDir); (["C:\"], EDir)].
Definition ex_fs_file_in_the_way : filesystem :=
  <[ex_backup_dir := EFile "notes"]> ex_fs.

(** The disk of the examples with a file where the profile directory
    should be. *)
Definition ex_fs_profile_file : filesystem :=
  list_to_map
    [([""], EDir);
     (["C:\"], EDir);
     (["C:\"; "Users"], EDir);
     (ex_home, EDir);
     (ex_programdata, EDir);
     (ex_programdata ++ ["NVIDIA Corporation"], EDir);
     (ex_src, EFile "not a directory")].

(** ** Tactics *)

(** Unfolds the monad. *)
Ltac run := unfold bind, try_except, ret, raise in *; simpl in *.

(** From [(Ok (errors ++ errs), _) = (Ok [], _)]: both lists are empty. *)
Ltac empty_errors H :=
  let H1 := fresh in let H2 := fresh in
  injection H as H1 H2; apply app_eq_nil in H1 as [? ?]; subst; try discriminate.

(** Runs one [logging] call in a hypothesis, by the lemma [spec] that says
    what such a call does. *)
Ltac log_step_with spec H :=
  unfold logging_info, logging_warning, logging_error in H;
  match type of H with
  | context [logging_log ?l ?m ?e ?w0] =>
      let w2 := fresh "w" in
      let Hlog := fresh "Hlog" in
      let Hfs := fresh "Hfs" in
      let Hclk := fresh "Hclk" in
      let Hst := fresh "Hst" in
      destruct (spec l m e w0) as (w2 & Hlog & (Hfs & Hclk & Hst));
      rewrite Hlog in H; clear Hlog
  end.

(** Proves [runnable] of a machine given in full. *)
Ltac solve_runnable :=
  unfold runnable; split_and!;
  [ unfold can_write; split_and!; by vm_compute
  | eexists _, _; split; [reflexivity|];
    first [by left | right; vm_compute; by eexists]
  | eexists; split; [reflexivity|];
    split_and!; [by vm_compute | intros d; by vm_compute | by vm_compute ..]
  | eexists; split; reflexivity
  | by eexists _, _ ].

(** * Properties *)

(** ** Paths *)

Lemma parent_snoc (p : path) (n : string) : p ≠ [] → parent (p ++ [n]) = p.
Proof.
  intros Hp. destruct p as [|a p]; [done|].
  unfold parent. simpl. destruct (p ++ [n]) eqn:E.
  - by destruct p.
  - rewrite <- E. change (a :: p ++ [n]) with ((a :: p) ++ [n]).
    by rewrite removelast_last.
Qed.

Lemma parent_cases (p : path) :
  parent p = p ∨ ∃ n, parent p ≠ [] ∧ p = parent p ++ [n].
Proof.
  destruct p as [|a [|b p]]; [by left | by left | right].
  destruct (exists_last (l := a :: b :: p)) as [q [n E]]; [done|].
  exists n. rewrite E.
  assert (q ≠ []) as Hq by (intros ->; simplify_list_eq).
  by rewrite parent_snoc.
Qed.

Lemma parent_prefix (p : path) : parent p `prefix_of` p.
Proof.
  destruct (parent_cases p) as [-> | (n & _ & E)]; [done|].
  rewrite E at 2. by apply prefix_app_r.
Qed.

Lemma basename_snoc (p : path) (n : string) : basename (p ++ [n]) = n.
Proof. unfold basename. apply last_last. Qed.

Lemma prefix_snoc_inv (p q : path) (n : string) :
  p `prefix_of` q ++ [n] → p `prefix_of` q ∨ p = q ++ [n].
Proof.
  intros [k E]. destruct k as [|m k' _] using rev_ind.
  - right. by rewrite app_nil_r in E.
  - left. rewrite app_assoc in E. apply app_inj_tail in E as [-> _].
    by apply prefix_app_r.
Qed.

(** ** The file system only grows *)

Lemma extends_refl fs : extends fs fs.
Proof. intros p e H. eauto. Qed.

Lemma extends_trans fs1 fs2 fs3 : extends fs1 fs2 → extends fs2 fs3 → extends fs1 fs3.
Proof.
  intros H1 H2 p e Hp. destruct (H1 p e Hp) as (e' & Hp' & Hk).
  destruct (H2 p e' Hp') as (e'' & Hp'' & Hk'). exists e''. split; congruence.
Qed.

Lemma extends_dir fs fs' p : extends fs fs' → fs !! p = Some EDir → fs' !! p = Some EDir.
Proof. intros H Hp. destruct (H p _ Hp) as ([] & ? & ?); by simplify_eq/=. Qed.

Lemma extends_file fs fs' p d :
  extends fs fs' → fs !! p = Some (EFile d) → ∃ d', fs' !! p = Some (EFile d').
Proof. intros H Hp. destruct (H p _ Hp) as ([] & ? & ?); simplify_eq/=; eauto. Qed.

Lemma touches_only_refl dst fs : touches_only dst fs fs.
Proof. intros p. by left. Qed.

Lemma touches_only_trans dst fs1 fs2 fs3 :
  touches_only dst fs1 fs2 → touches_only dst fs2 fs3 → touches_only dst fs1 fs3.
Proof.
  intros H1 H2 p.
  destruct (H1 p) as [E1 | [? | (Hpre & Hn1 & Hd1)]]; [|by right; left|];
    (destruct (H2 p) as [E2 | [? | (Hpre2 & Hn2 & Hd2)]]; [|by right; left|]).
  - left. congruence.
  - right; right. split_and!; [done|congruence|done].
  - right; right. split_and!; congruence.
  - congruence.
Qed.

Lemma touches_only_snoc dst n fs fs' :
  touches_only (dst ++ [n]) fs fs' → touches_only dst fs fs'.
Proof.
  intros H p. destruct (H p) as [? | [Hpre | (Hpre & ? & ?)]]; [by left | |].
  - right; left. by eapply prefix_app_l.
  - destruct (prefix_snoc_inv _ _ _ Hpre) as [? | ->].
    + by right; right.
    + right; left. by apply prefix_app_r.
Qed.

Lemma step_refl dst fs : step dst fs fs.
Proof. split_and!; [apply extends_refl | apply touches_only_refl | done]. Qed.

Lemma step_trans dst fs1 fs2 fs3 : step dst fs1 fs2 → step dst fs2 fs3 → step dst fs1 fs3.
Proof.
  intros (? & ? & ?) (? & ? & ?).
  split_and!; [by eapply extends_trans | by eapply touches_only_trans | auto].
Qed.

Lemma step_snoc dst n fs fs' : step (dst ++ [n]) fs fs' → step dst fs fs'.
Proof. intros (? & ? & ?). split_and!; [done | by eapply touches_only_snoc | done]. Qed.

Lemma wf_insert (fs : filesystem) (p : path) e :
  fs !! parent p = Some EDir → (e = EDir ∨ fs !! p ≠ Some EDir) → wf fs →
  wf (<[p := e]> fs).
Proof.
  intros Hpar He Hwf p' Hp'.
  assert (fs !! parent p' = Some EDir) as Hpar'.
  { destruct (decide (p' = p)) as [-> | Hne]; [done|].
    rewrite lookup_insert_ne in Hp'; auto. }
  destruct (decide (parent p' = p)) as [E | Hne].
  - rewrite E, lookup_insert_eq. destruct He as [-> | He]; [done|]. congruence.
  - by rewrite lookup_insert_ne.
Qed.

Lemma step_insert_dir (dst : path) (fs : filesystem) (p : path) :
  fs !! p = None → fs !! parent p = Some EDir →
  (dst `prefix_of` p ∨ p `prefix_of` dst) →
  step dst fs (<[p := EDir]> fs).
Proof.
  intros Hp Hpar Hpre. split_and!.
  - intros q e Hq. destruct (decide (q = p)) as [-> | ?]; [congruence|].
    exists e. by rewrite lookup_insert_ne.
  - intros q. destruct (decide (q = p)) as [-> | ?].
    + destruct Hpre; [by right; left|]. right; right. by rewrite lookup_insert_eq.
    + left. by rewrite lookup_insert_ne.
  - apply wf_insert; auto.
Qed.

Lemma step_insert_file (dst : path) (fs : filesystem) (p : path) d :
  fs !! p ≠ Some EDir → (wf fs → fs !! parent p = Some EDir) → dst `prefix_of` p →
  step dst fs (<[p := EFile d]> fs).
Proof.
  intros Hp Hpar Hpre. split_and!.
  - intros q e Hq. destruct (decide (q = p)) as [-> | ?].
    + exists (EFile d). rewrite lookup_insert_eq. split; [done|].
      destruct e; [done | congruence].
    + exists e. by rewrite lookup_insert_ne.
  - intros q. destruct (decide (q = p)) as [-> | ?].
    + by right; left.
    + left. by rewrite lookup_insert_ne.
  - intros Hwf. apply wf_insert; auto.
Qed.

Section fs_facts.
Variable denied : path → bool.

Lemma os_mkdir_step dst p fs r fs' :
  os_mkdir denied p fs = (r, fs') →
  (dst `prefix_of` p ∨ p `prefix_of` dst) → step dst fs fs'.
Proof.
  unfold os_mkdir. intros H Hpre.
  destruct (fs !! p) eqn:Hp; [simplify_eq; apply step_refl|].
  destruct (fs !! parent p) as [[]|] eqn:Hpar; try (simplify_eq; apply step_refl).
  destruct (denied p); simplify_eq; [apply step_refl|].
  by apply step_insert_dir.
Qed.

Lemma unless_is_dir_state p e fs r fs' : unless_is_dir p e fs = (r, fs') → fs' = fs.
Proof. unfold unless_is_dir. by destruct (_ && _); intros; simplify_eq. Qed.

Lemma makedirs_rec_step dst n p fs r fs' :
  makedirs_rec denied n p fs = (r, fs') → p `prefix_of` dst → step dst fs fs'.
Proof.
  revert p fs r fs'. induction n as [|n IH]; intros p fs r fs' H Hpre; simpl in H; run.
  - destruct (os_mkdir denied p fs) as [[[]|e] fs1] eqn:Hmk.
    + simplify_eq. eapply os_mkdir_step; eauto.
    + apply unless_is_dir_state in H as ->. eapply os_mkdir_step; eauto.
  - assert (∀ fs1 r1, (match os_mkdir denied p fs1 with
                       | (Ok a, s') => (Ok a, s')
                       | (Raise e, s') => unless_is_dir p e s'
                       end) = (r1, fs') → step dst fs1 fs') as Hlast.
    { intros fs1 r1 H1. destruct (os_mkdir denied p fs1) as [[[]|e] fs2] eqn:Hmk.
      - simplify_eq. eapply os_mkdir_step; eauto.
      - apply unless_is_dir_state in H1 as ->. eapply os_mkdir_step; eauto. }
    destruct (decide (parent p = p)); [eauto|].
    destruct (exists_ (parent p) fs); [eauto|].
    destruct (makedirs_rec denied n (parent p) fs) as [[[]|e] fs1] eqn:Hrec.
    + eapply step_trans; [|eauto]. eapply IH; eauto.
      etrans; [apply parent_prefix | done].
    + assert (step dst fs fs1) as Hs.
      { eapply IH; eauto. etrans; [apply parent_prefix | done]. }
      destruct e; simplify_eq; try done.
      eapply step_trans; eauto.
Qed.

Lemma makedirs_step dst fs r fs' :
  makedirs denied dst fs = (r, fs') → step dst fs fs'.
Proof. intros H. by eapply makedirs_rec_step. Qed.

Lemma open_w_step dst p fs r fs' :
  open_w denied p fs = (r, fs') → dst `prefix_of` p → step dst fs fs'.
Proof.
  unfold open_w. intros H Hpre.
  destruct (fs !! p) as [[]|] eqn:Hp; try (simplify_eq; apply step_refl);
    (destruct (fs !! parent p) as [[]|] eqn:Hpar; try (simplify_eq; apply step_refl));
    (destruct (denied p); simplify_eq; [apply step_refl|]);
    apply step_insert_file; auto; congruence.
Qed.

Lemma f_write_step dst p s fs r fs' :
  f_write p s fs = (r, fs') → dst `prefix_of` p → step dst fs fs'.
Proof.
  unfold f_write. intros H Hpre.
  destruct (fs !! p) as [[]|] eqn:Hp; simplify_eq; try apply step_refl.
  apply step_insert_file; [congruence | | done]. intros Hwf. apply Hwf. by rewrite Hp.
Qed.

Lemma read_file_state p fs r fs' : read_file p fs = (r, fs') → fs' = fs.
Proof. unfold read_file. by destruct (fs !! p) as [[]|]; intros; simplify_eq. Qed.

Lemma copyfile_step dst src p fs r fs' :
  copyfile denied src p fs = (r, fs') → dst `prefix_of` p → step dst fs fs'.
Proof.
  unfold copyfile. intros H Hpre.
  destruct (_ && _); [simplify_eq; apply step_refl|]. run.
  destruct (read_file src fs) as [[d|e] fs1] eqn:Hrd;
    apply read_file_state in Hrd as ->; [|simplify_eq; apply step_refl].
  destruct (open_w denied p fs) as [[[]|e] fs1] eqn:Hop.
  - eapply step_trans; [by eapply open_w_step | by eapply f_write_step].
  - simplify_eq. by eapply open_w_step.
Qed.

Lemma copy2_step dst src p fs r fs' :
  copy2 denied src p fs = (r, fs') → dst `prefix_of` p → step dst fs fs'.
Proof.
  unfold copy2. intros H Hpre. eapply copyfile_step; [done|].
  destruct (is_dir p fs); [by apply prefix_app_r | done].
Qed.

Lemma scandir_state src fs r fs' : scandir src fs = (r, fs') → fs' = fs.
Proof. unfold scandir. by destruct (fs !! src) as [[]|]; intros; simplify_eq. Qed.

(** What holds of every round of the loop holds of the loop. *)
Lemma for_entries_step dst body entries errors fs r fs' :
  (∀ errs e fs1 r1 fs2, body errs e fs1 = (r1, fs2) → step dst fs1 fs2) →
  for_entries body entries errors fs = (r, fs') → step dst fs fs'.
Proof.
  intros Hbody. revert errors fs.
  induction entries as [|e entries IH]; intros errors fs H; simpl in H; run.
  - simplify_eq. apply step_refl.
  - destruct (body errors e fs) as [[errs'|ex] fs1] eqn:Hb.
    + eapply step_trans; eauto.
    + simplify_eq. eauto.
Qed.

Lemma copy_entry_step rec src dst errors srcentry fs r fs' :
  (∀ fs1 r1 fs2, rec (src ++ [srcentry.1]) (dst ++ [srcentry.1]) fs1 = (r1, fs2) →
                 step (dst ++ [srcentry.1]) fs1 fs2) →
  copy_entry denied rec src dst errors srcentry fs = (r, fs') → step dst fs fs'.
Proof.
  intros Hrec. unfold copy_entry. run. intros H.
  destruct srcentry as [name isdir]; simpl in *.
  destruct isdir.
  - destruct (rec (src ++ [name]) (dst ++ [name]) fs) as [[[]|e] fs1] eqn:Hr.
    + simplify_eq. eapply step_snoc; eauto.
    + assert (fs' = fs1) as -> by (destruct e; simpl in H; simplify_eq; done).
      eapply step_snoc; eauto.
  - destruct (copy2 denied (src ++ [name]) (dst ++ [name]) fs) as [[[]|e] fs1] eqn:Hr.
    + simplify_eq. eapply step_snoc, copy2_step; eauto.
    + assert (fs' = fs1) as -> by (destruct e; simpl in H; simplify_eq; done).
      eapply step_snoc, copy2_step; eauto.
Qed.

(** Whatever its outcome, [copytree] stays under [dst] (creating the
    missing ancestors of [dst]), removes nothing and keeps the file system
    well formed. *)
Lemma copytree_step limit src dst fs r fs' :
  copytree denied limit src dst fs = (r, fs') → step dst fs fs'.
Proof.
  revert src dst fs r fs'.
  induction limit as [|n IH]; intros src dst fs r fs' H; simpl in H; run.
  - simplify_eq. apply step_refl.
  - destruct (scandir src fs) as [[entries|e] fs1] eqn:Hsc;
      apply scandir_state in Hsc as ->; [|simplify_eq; apply step_refl].
    destruct (makedirs denied dst fs) as [[[]|e] fs1] eqn:Hmk;
      [|simplify_eq; by eapply makedirs_step].
    eapply step_trans; [by eapply makedirs_step|].
    destruct (for_entries _ entries [] fs1) as [[errors|e] fs2] eqn:Hfor.
    + assert (fs' = fs2) as -> by (destruct errors; simplify_eq; done).
      eapply for_entries_step; [|done].
      intros errs e fs3 r1 fs4 Hb. eapply copy_entry_step; [|done]. intros; eauto.
    + simplify_eq. eapply for_entries_step; [|done].
      intros errs e' fs3 r1 fs4 Hb. eapply copy_entry_step; [|done]. intros; eauto.
Qed.
End fs_facts.

(** ** What a successful copy leaves behind *)

Lemma children_spec (src : path) (fs : filesystem) (n : string) (e : entry) :
  src ≠ [] → fs !! (src ++ [n]) = Some e →
  (n, bool_decide (e = EDir)) ∈ children src fs.
Proof.
  intros Hsrc Hn. unfold children. apply list_elem_of_omap.
  exists (src ++ [n], e). split; [by apply elem_of_map_to_list|].
  rewrite decide_True.
  - by rewrite basename_snoc.
  - split; [by apply parent_snoc|]. intros E. by apply (f_equal length) in E;
      rewrite length_app in E; simpl in E; lia.
Qed.

Lemma wf_ancestor (fs : filesystem) (p q : path) :
  wf fs → p ≠ [] → q ≠ [] → is_Some (fs !! (p ++ q)) → fs !! p = Some EDir.
Proof.
  intros Hwf Hp. induction q as [|n q IH] using rev_ind; [done|].
  intros _ Hq. apply Hwf in Hq. rewrite app_assoc, parent_snoc in Hq.
  - destruct q as [|m q]; [by rewrite app_nil_r in Hq|]. apply IH; [done|by rewrite Hq].
  - by destruct p.
Qed.

Lemma prefix_app_cases (q a b : path) :
  q `prefix_of` a ++ b → (q `prefix_of` a ∧ q ≠ a) ∨ ∃ b', q = a ++ b' ∧ b' `prefix_of` b.
Proof.
  revert q. induction b as [|n b IH] using rev_ind; intros q Hq.
  - rewrite app_nil_r in Hq. destruct (decide (q = a)) as [-> | ?]; [|by left].
    right. exists []. by rewrite app_nil_r.
  - rewrite app_assoc in Hq. destruct (prefix_snoc_inv _ _ _ Hq) as [Hq' | ->].
    + destruct (IH _ Hq') as [? | (b' & -> & ?)]; [by left|].
      right. exists b'. split; [done|]. by apply prefix_app_r.
    + right. exists (b ++ [n]). by rewrite app_assoc.
Qed.

Section copy_facts.
Variable denied : path → bool.

Lemma os_mkdir_raise p fs e fs' : os_mkdir denied p fs = (Raise e, fs') → no_shutil e.
Proof.
  unfold os_mkdir. intros H. repeat case_match; by simplify_eq.
Qed.

Lemma unless_is_dir_raise p e0 fs e fs' :
  unless_is_dir p e0 fs = (Raise e, fs') → e = e0.
Proof. unfold unless_is_dir. intros H. case_match; by simplify_eq. Qed.

Lemma makedirs_rec_raise n p fs e fs' :
  makedirs_rec denied n p fs = (Raise e, fs') → no_shutil e.
Proof.
  revert p fs e fs'. induction n as [|n IH]; intros p fs e fs' H; simpl in H; run.
  - destruct (os_mkdir denied p fs) as [[[]|e1] fs1] eqn:Hmk; [done|].
    apply unless_is_dir_raise in H as ->. by eapply os_mkdir_raise.
  - assert (∀ fs1, (match os_mkdir denied p fs1 with
                    | (Ok a, s') => (Ok a, s')
                    | (Raise e, s') => unless_is_dir p e s'
                    end) = (Raise e, fs') → no_shutil e) as Hlast.
    { intros fs1 H1. destruct (os_mkdir denied p fs1) as [[[]|e1] fs2] eqn:Hmk; [done|].
      apply unless_is_dir_raise in H1 as ->. by eapply os_mkdir_raise. }
    destruct (decide (parent p = p)); [eauto|].
    destruct (exists_ (parent p) fs); [eauto|].
    destruct (makedirs_rec denied n (parent p) fs) as [[[]|e1] fs1] eqn:Hrec; [eauto|].
    apply IH in Hrec. destruct e1; simplify_eq; eauto; done.
Qed.

Lemma creates_dirs_refl p fs : creates_dirs p fs fs.
Proof. intros q. by left. Qed.

Lemma creates_dirs_trans p fs1 fs2 fs3 :
  creates_dirs p fs1 fs2 → creates_dirs p fs2 fs3 → creates_dirs p fs1 fs3.
Proof.
  intros H1 H2 q.
  destruct (H1 q) as [E1 | (? & ? & E1)]; destruct (H2 q) as [E2 | (? & ? & E2)].
  - left. congruence.
  - right. split_and!; congruence.
  - right. split_and!; congruence.
  - congruence.
Qed.

Lemma creates_dirs_parent p fs fs' :
  creates_dirs (parent p) fs fs' → creates_dirs p fs fs'.
Proof.
  intros H q. destruct (H q) as [? | (? & ? & ?)]; [by left|].
  right. split_and!; [|done..]. etrans; [done | apply parent_prefix].
Qed.

Lemma os_mkdir_creates p fs r fs' :
  os_mkdir denied p fs = (r, fs') → creates_dirs p fs fs'.
Proof.
  unfold os_mkdir. intros H q. repeat case_match; simplify_eq; try by left.
  destruct (decide (q = p)) as [-> | ?].
  - right. by rewrite lookup_insert_eq.
  - left. by rewrite lookup_insert_ne.
Qed.

Lemma makedirs_rec_creates n p fs r fs' :
  makedirs_rec denied n p fs = (r, fs') → creates_dirs p fs fs'.
Proof.
  revert p fs r fs'. induction n as [|n IH]; intros p fs r fs' H; simpl in H; run.
  - destruct (os_mkdir denied p fs) as [[[]|e1] fs1] eqn:Hmk.
    + simplify_eq. by eapply os_mkdir_creates.
    + apply unless_is_dir_state in H as ->. by eapply os_mkdir_creates.
  - assert (∀ fs1 r1, (match os_mkdir denied p fs1 with
                       | (Ok a, s') => (Ok a, s')
                       | (Raise e, s') => unless_is_dir p e s'
                       end) = (r1, fs') → creates_dirs p fs1 fs') as Hlast.
    { intros fs1 r1 H1. destruct (os_mkdir denied p fs1) as [[[]|e1] fs2] eqn:Hmk.
      - simplify_eq. by eapply os_mkdir_creates.
      - apply unless_is_dir_state in H1 as ->. by eapply os_mkdir_creates. }
    destruct (decide (parent p = p)); [eauto|].
    destruct (exists_ (parent p) fs); [eauto|].
    destruct (makedirs_rec denied n (parent p) fs) as [[[]|e1] fs1] eqn:Hrec.
    + eapply creates_dirs_trans; [|eauto]. eapply creates_dirs_parent, IH; eauto.
    + assert (creates_dirs p fs fs1) as Hs by (eapply creates_dirs_parent, IH; eauto).
      destruct e1; simplify_eq; try done.
      eapply creates_dirs_trans; eauto.
Qed.

Lemma makedirs_rec_ok n p fs fs' :
  makedirs_rec denied n p fs = (Ok (), fs') → fs' !! p = Some EDir.
Proof.
  assert (∀ fs1, (match os_mkdir denied p fs1 with
                  | (Ok a, s') => (Ok a, s')
                  | (Raise e, s') => unless_is_dir p e s'
                  end) = (Ok (), fs') → fs' !! p = Some EDir) as Hlast.
  { intros fs1 H1. destruct (os_mkdir denied p fs1) as [[[]|e1] fs2] eqn:Hmk.
    - simplify_eq. unfold os_mkdir in Hmk. repeat case_match; simplify_eq.
      by rewrite lookup_insert_eq.
    - unfold unless_is_dir, is_dir in H1.
      destruct (fs2 !! p) as [[]|] eqn:Hp2; rewrite ?andb_false_r in H1;
        [done | | done]. by destruct (is_OSError e1); simplify_eq/=. }
  destruct n as [|n]; simpl; run; intros H; [eauto|].
  destruct (decide (parent p = p)); [eauto|].
  destruct (exists_ (parent p) fs); [eauto|].
  destruct (makedirs_rec denied n (parent p) fs) as [[[]|e1] fs1] eqn:Hrec; [eauto|].
  destruct e1; simplify_eq; eauto.
Qed.
Lemma copy2_ok src dst fs fs' :
  copy2 denied src dst fs = (Ok (), fs') →
  ∃ d, fs !! src = Some (EFile d) ∧
       fs' = <[(if is_dir dst fs then dst ++ [basename src] else dst) := EFile d]> fs.
Proof.
  unfold copy2, copyfile. generalize (if is_dir dst fs then dst ++ [basename src] else dst).
  intros p H. destruct (_ && _); [done|]. run. unfold read_file in H.
  destruct (fs !! src) as [[d|]|] eqn:Hsrc; try done. exists d. split; [done|].
  unfold open_w in H.
  assert (∀ fs1 : filesystem, f_write p d (<[p := EFile ""]> fs1) = (Ok (), <[p := EFile d]> fs1))
    as Hw.
  { intros fs1. unfold f_write. by rewrite lookup_insert_eq, insert_insert_eq. }
  destruct (fs !! p) as [[]|]; try done;
    (destruct (fs !! parent p) as [[]|]; try done);
    (destruct (denied p); [done|]); rewrite Hw in H; by simplify_eq.
Qed.

Lemma copy2_raise src dst fs e fs' :
  copy2 denied src dst fs = (Raise e, fs') → no_shutil e.
Proof.
  unfold copy2, copyfile. generalize (if is_dir dst fs then dst ++ [basename src] else dst).
  intros p H. destruct (_ && _); [by simplify_eq|]. run. unfold read_file in H.
  destruct (fs !! src) as [[d|]|] eqn:Hsrc; try by simplify_eq.
  unfold open_w, f_write in H. repeat case_match; by simplify_eq.
Qed.

Lemma copy_entry_raise rec src dst errors srcentry fs e fs' :
  copy_entry denied rec src dst errors srcentry fs = (Raise e, fs') →
  is_OSError e = false.
Proof.
  unfold copy_entry. run. intros H.
  destruct (if srcentry.2 then _ else _) as [[[]|e1] fs1]; [done|].
  destruct e1; simpl in H; by simplify_eq.
Qed.

Lemma for_entries_raise rec src dst entries errors fs e fs' :
  for_entries (copy_entry denied rec src dst) entries errors fs = (Raise e, fs') →
  is_OSError e = false.
Proof.
  revert errors fs. induction entries as [|x entries IH]; intros errors fs H;
    simpl in H; run; [done|].
  destruct (copy_entry denied rec src dst errors x fs) as [[errs|e1] fs1] eqn:Hb; [eauto|].
  simplify_eq. by eapply copy_entry_raise.
Qed.

(** [shutil.Error] is only raised with errors to report. *)
Lemma copytree_raise_shutil limit src dst fs errs fs' :
  copytree denied limit src dst fs = (Raise (ShutilError errs), fs') → errs ≠ [].
Proof.
  destruct limit as [|n]; simpl; run; [done|]. intros H.
  unfold scandir in H. destruct (fs !! src) as [[]|]; try done.
  destruct (makedirs denied dst fs) as [[[]|e] fs1] eqn:Hmk.
  - destruct (for_entries _ _ [] fs1) as [[errors|e] fs2] eqn:Hfor.
    + destruct errors; by simplify_eq.
    + simplify_eq. by apply for_entries_raise in Hfor.
  - simplify_eq. by apply makedirs_rec_raise in Hmk.
Qed.

(** A round that leaves the list of errors empty found it empty and
    copied its entry. *)
Lemma copy_entry_ok limit src dst errors name isdir fs fs' :
  copy_entry denied (copytree denied limit) src dst errors (name, isdir) fs = (Ok [], fs') →
  errors = [] ∧
  (if isdir then copytree denied limit (src ++ [name]) (dst ++ [name]) fs
   else copy2 denied (src ++ [name]) (dst ++ [name]) fs) = (Ok (), fs').
Proof.
  unfold copy_entry. run. intros H. destruct isdir.
  - destruct (copytree _ _ _ _ fs) as [[[]|e1] fs1] eqn:Hr; [by simplify_eq|].
    exfalso. destruct e1; simpl in H; try discriminate; empty_errors H.
    by apply copytree_raise_shutil in Hr.
  - destruct (copy2 _ _ _ fs) as [[[]|e1] fs1] eqn:Hr; [by simplify_eq|].
    exfalso. destruct e1; simpl in H; try discriminate; empty_errors H.
    by apply copy2_raise in Hr.
Qed.

Lemma copy_entry_errors rec src dst errors srcentry fs errors' fs' :
  copy_entry denied rec src dst errors srcentry fs = (Ok errors', fs') →
  errors' = [] → errors = [].
Proof.
  unfold copy_entry. run. intros H ->.
  destruct (if srcentry.2 then _ else _) as [[[]|e1] fs1]; [by simplify_eq|].
  destruct e1; simpl in H; try discriminate; by empty_errors H.
Qed.

Lemma for_entries_errors rec src dst entries errors fs fs' :
  for_entries (copy_entry denied rec src dst) entries errors fs = (Ok [], fs') →
  errors = [].
Proof.
  revert errors fs. induction entries as [|x entries IH]; intros errors fs H;
    simpl in H; run; [by simplify_eq|].
  destruct (copy_entry denied rec src dst errors x fs) as [[errs|e1] fs1] eqn:Hb; [|done].
  apply IH in H. by eapply copy_entry_errors.
Qed.
End copy_facts.

Section copytree_files.
Variables (denied : path → bool) (src0 dst0 : path) (fs0 : filesystem).
Hypothesis Hsrc0 : src0 ≠ [].
Hypothesis Hwf0 : wf fs0.
Hypothesis Hfree :
  ∀ q d, fs0 !! (src0 ++ q) = Some (EFile d) → fs0 !! (dst0 ++ q) ≠ Some EDir.

Lemma copy_inv_init : copy_inv src0 dst0 fs0 fs0.
Proof. split_and!; [apply extends_refl | done | by left]. Qed.

Lemma copy_inv_step fs fs' :
  copy_inv src0 dst0 fs0 fs → extends fs fs' → wf fs' →
  (∀ p, fs' !! p = Some EDir →
        fs !! p = Some EDir ∨
        (∃ q, p = dst0 ++ q ∧ fs' !! (src0 ++ q) = Some EDir) ∨
        (p `prefix_of` dst0 ∧ p ≠ dst0)) →
  copy_inv src0 dst0 fs0 fs'.
Proof.
  intros (Hext & Hwf & Hnew) Hext' Hwf' Hnew'.
  split_and!; [by eapply extends_trans | done |].
  intros p Hp. destruct (Hnew' p Hp) as [Hold | [? | ?]]; [|by right; left|by right; right].
  destruct (Hnew p Hold) as [? | [(q & -> & Hq) | ?]]; [by left| |by right; right].
  right; left. exists q. split; [done|]. by eapply extends_dir.
Qed.

Lemma copy_inv_makedirs r fs fs' :
  copy_inv src0 dst0 fs0 fs → fs !! (src0 ++ r) = Some EDir →
  makedirs denied (dst0 ++ r) fs = (Ok (), fs') → copy_inv src0 dst0 fs0 fs'.
Proof.
  intros Hinv Hsrc Hmk.
  destruct (makedirs_step _ _ _ _ _ Hmk) as (Hext & _ & Hwf').
  apply (copy_inv_step fs); [done | done | by apply Hwf', Hinv |].
  intros p Hp. destruct (makedirs_rec_creates _ _ _ _ _ _ Hmk p) as [E | (Hpre & _ & _)].
  { left. congruence. }
  right. destruct (prefix_app_cases _ _ _ Hpre) as [? | (r' & -> & [k ->])]; [by right|].
  left. exists r'. split; [done|]. eapply extends_dir; [done|].
  destruct k as [|n k]; [by rewrite app_nil_r in Hsrc|].
  eapply (wf_ancestor fs (src0 ++ r') (n :: k)); [apply Hinv | by destruct src0 | done |].
  by rewrite <- app_assoc, Hsrc.
Qed.

Lemma copy_inv_copy2 src dst fs fs' :
  copy_inv src0 dst0 fs0 fs → copy2 denied src dst fs = (Ok (), fs') → copy_inv src0 dst0 fs0 fs'.
Proof.
  intros Hinv Hcp.
  destruct (copy2_step _ dst _ _ _ _ _ Hcp) as (Hext & _ & Hwf'); [done|].
  apply (copy_inv_step fs); [done | done | by apply Hwf', Hinv |].
  intros p Hp. left. apply copy2_ok in Hcp as (d & _ & ->).
  destruct (decide (p = if is_dir dst fs then dst ++ [basename src] else dst)) as [-> | ?].
  - by rewrite lookup_insert_eq in Hp.
  - by rewrite lookup_insert_ne in Hp.
Qed.

(** A source file is never copied into a directory of its own name. *)
Lemma copy2_target q d fs fs' :
  copy_inv src0 dst0 fs0 fs → fs0 !! (src0 ++ q) = Some (EFile d) →
  copy2 denied (src0 ++ q) (dst0 ++ q) fs = (Ok (), fs') →
  ∃ d', fs' !! (dst0 ++ q) = Some (EFile d').
Proof.
  intros (Hext & Hwf & Hnew) Hq Hcp.
  assert (is_dir (dst0 ++ q) fs = false) as Hnd.
  { unfold is_dir. destruct (fs !! (dst0 ++ q)) as [[]|] eqn:Hd; [done| |done].
    exfalso. destruct (Hnew _ Hd) as [? | [(q' & E & Hq') | [Hpre Hne]]].
    - by eapply Hfree.
    - apply app_inv_head in E as <-.
      destruct (extends_file _ _ _ _ Hext Hq) as [d' ?]. congruence.
    - apply prefix_length in Hpre. rewrite length_app in Hpre.
      destruct q; [by rewrite app_nil_r in Hne | simpl in Hpre; lia]. }
  apply copy2_ok in Hcp as (d' & _ & ->). rewrite Hnd.
  exists d'. by rewrite lookup_insert_eq.
Qed.

Lemma copied_extends r x fs fs' : extends fs fs' → copied src0 dst0 fs0 r x fs → copied src0 dst0 fs0 r x fs'.
Proof.
  intros Hext Hc q d Hq Hx. destruct (Hc q d Hq Hx) as [d' Hd'].
  by eapply extends_file.
Qed.

Lemma for_entries_extends limit src dst entries errors fs r fs' :
  for_entries (copy_entry denied (copytree denied limit) src dst) entries errors fs
    = (r, fs') →
  extends fs fs'.
Proof.
  intros H. eapply (for_entries_step dst) in H; [apply H|].
  intros errs e fs1 r1 fs2 Hb. eapply copy_entry_step; [|done].
  intros. by eapply copytree_step.
Qed.

Lemma copytree_files_rec limit r fs fs' :
  copy_inv src0 dst0 fs0 fs →
  copytree denied limit (src0 ++ r) (dst0 ++ r) fs = (Ok (), fs') →
  copy_inv src0 dst0 fs0 fs' ∧
  ∀ q d, fs0 !! (src0 ++ r ++ q) = Some (EFile d) →
         ∃ d', fs' !! (dst0 ++ r ++ q) = Some (EFile d').
Proof.
  revert r fs fs'. induction limit as [|n IH]; intros r fs fs' Hinv H; simpl in H; run;
    [done|].
  unfold scandir in H. destruct (fs !! (src0 ++ r)) as [[]|] eqn:Hsrc; try done.
  destruct (makedirs denied (dst0 ++ r) fs) as [[[]|e] fs1] eqn:Hmk; [|done].
  destruct (for_entries _ (children (src0 ++ r) fs) [] fs1) as [[errors|e] fs2] eqn:Hfor;
    [|done].
  destruct errors; [|done]. simplify_eq.
  assert (copy_inv src0 dst0 fs0 fs1) as Hinv1 by (by eapply copy_inv_makedirs).
  (* the loop *)
  assert (∀ entries errors fs1 fs2,
            copy_inv src0 dst0 fs0 fs1 →
            for_entries (copy_entry denied (copytree denied n) (src0 ++ r) (dst0 ++ r))
              entries errors fs1 = (Ok [], fs2) →
            copy_inv src0 dst0 fs0 fs2 ∧ ∀ x, x ∈ entries → copied src0 dst0 fs0 r x fs2) as Hloop.
  { clear -IH Hsrc0 Hwf0 Hfree. induction entries as [|x entries IHe];
      intros errors fs1 fs2 Hinv1 Hfor; simpl in Hfor; run.
    { simplify_eq. split; [done|]. intros x Hx. by apply elem_of_nil in Hx. }
    destruct (copy_entry _ _ _ _ errors x fs1) as [[errs|e] fs1'] eqn:Hb; [|done].
    assert (errs = []) as -> by (by eapply for_entries_errors).
    destruct x as [name isdir]. apply copy_entry_ok in Hb as [-> Hb].
    assert (copy_inv src0 dst0 fs0 fs1' ∧ copied src0 dst0 fs0 r (name, isdir) fs1') as [Hinv1' Hc].
    { destruct isdir.
      - rewrite <- !(app_assoc _ r [name]) in Hb.
        destruct (IH _ _ _ Hinv1 Hb) as [? Hfiles]. split; [done|].
        intros q d Hq _. simpl in *.
        specialize (Hfiles q d). rewrite <- !app_assoc in Hfiles. by apply Hfiles.
      - split; [by eapply copy_inv_copy2|].
        intros q d Hq Hx. simpl in *. symmetry in Hx. apply bool_decide_eq_false in Hx.
        assert (q = []) as -> by (by destruct q; [|exfalso; apply Hx]).
        rewrite <- !(app_assoc _ r [name]) in Hb. by eapply copy2_target. }
    destruct (IHe _ _ _ Hinv1' Hfor) as [Hinv2 Hrest]. split; [done|].
    intros x Hx. apply elem_of_cons in Hx as [-> | Hx]; [|by apply Hrest].
    eapply copied_extends; [|done]. by eapply for_entries_extends. }
  destruct (Hloop _ _ _ _ Hinv1 Hfor) as [Hinv2 Hcopied]. split; [done|].
  intros q d Hq. destruct Hinv as (Hext & Hwf & _).
  destruct q as [|name q].
  { rewrite app_nil_r in Hq. destruct (extends_file _ _ _ _ Hext Hq). congruence. }
  (* the entry [name] of [src0 ++ r], as the listing saw it *)
  assert (∃ e, fs !! ((src0 ++ r) ++ [name]) = Some e ∧
               bool_decide (e = EDir) = bool_decide (q ≠ [])) as (e & He & Hk).
  { destruct q as [|m q].
    - rewrite <- app_assoc. destruct (extends_file _ _ _ _ Hext Hq) as [d' Hd'].
      exists (EFile d'). split; [done|].
      rewrite bool_decide_eq_false_2 by done. by rewrite bool_decide_eq_false_2 by auto.
    - exists EDir. split; [|by rewrite !bool_decide_eq_true_2].
      eapply extends_dir; [done|].
      apply (wf_ancestor fs0 _ (m :: q)); [done | by destruct src0 | done |].
      rewrite <- !app_assoc. simpl. by rewrite Hq. }
  apply children_spec in He; [|by destruct src0].
  apply (Hcopied _ He q d); [done|by simpl].
Qed.

Lemma copytree_files limit fs' q d :
  copytree denied limit src0 dst0 fs0 = (Ok (), fs') →
  fs0 !! (src0 ++ q) = Some (EFile d) →
  ∃ d', fs' !! (dst0 ++ q) = Some (EFile d').
Proof.
  intros H Hq. pose proof (copytree_files_rec limit [] fs0 fs' copy_inv_init) as Hrec.
  rewrite !app_nil_r in Hrec. destruct (Hrec H) as [_ Hfiles]. by apply (Hfiles q d).
Qed.
End copytree_files.

(** ** Creating the backup directory *)

Section mkdir_facts.
Variable denied : path → bool.

Lemma Path_mkdir_leaf_creates p fs r fs' :
  Path_mkdir_leaf denied p fs = (r, fs') → creates_dirs p fs fs'.
Proof.
  unfold Path_mkdir_leaf. run. intros H.
  destruct (os_mkdir denied p fs) as [[[]|e] fs1] eqn:Hmk.
  - simplify_eq. by eapply os_mkdir_creates.
  - assert (fs' = fs1) as ->.
    { destruct e; simplify_eq; try done; by eapply unless_is_dir_state. }
    by eapply os_mkdir_creates.
Qed.

Lemma os_mkdir_ok p fs fs' : os_mkdir denied p fs = (Ok (), fs') → fs' !! p = Some EDir.
Proof.
  unfold os_mkdir. intros H. repeat case_match; simplify_eq. by rewrite lookup_insert_eq.
Qed.

Lemma unless_is_dir_ok p e fs fs' :
  unless_is_dir p e fs = (Ok (), fs') → fs' !! p = Some EDir.
Proof.
  unfold unless_is_dir, is_dir. intros H.
  destruct (fs !! p) as [[]|] eqn:Hp; rewrite ?andb_false_r in H; [done| |done].
  by destruct (is_OSError e); simplify_eq/=.
Qed.

Lemma Path_mkdir_leaf_ok p fs fs' :
  Path_mkdir_leaf denied p fs = (Ok (), fs') → fs' !! p = Some EDir.
Proof.
  unfold Path_mkdir_leaf. run. intros H.
  destruct (os_mkdir denied p fs) as [[[]|e] fs1] eqn:Hmk.
  - simplify_eq. by eapply os_mkdir_ok.
  - destruct e; simplify_eq; by eapply unless_is_dir_ok.
Qed.

Lemma Path_mkdir_rec_creates n p fs r fs' :
  Path_mkdir_rec denied n p fs = (r, fs') → creates_dirs p fs fs'.
Proof.
  revert p fs r fs'. induction n as [|n IH]; intros p fs r fs' H; simpl in H; run.
  - destruct (os_mkdir denied p fs) as [[[]|e] fs1] eqn:Hmk.
    + simplify_eq. by eapply os_mkdir_creates.
    + assert (fs' = fs1) as ->.
      { destruct e; simplify_eq; try done; by eapply unless_is_dir_state. }
      by eapply os_mkdir_creates.
  - destruct (os_mkdir denied p fs) as [[[]|e] fs1] eqn:Hmk.
    + simplify_eq. by eapply os_mkdir_creates.
    + eapply creates_dirs_trans; [by eapply os_mkdir_creates|].
      destruct e; try (apply unless_is_dir_state in H as ->; apply creates_dirs_refl).
      destruct (decide (parent p = p)); [simplify_eq; apply creates_dirs_refl|].
      destruct (Path_mkdir_rec denied n (parent p) fs1) as [[[]|e] fs2] eqn:Hrec.
      * eapply creates_dirs_trans; [eapply creates_dirs_parent, IH; eauto|].
        by eapply Path_mkdir_leaf_creates.
      * simplify_eq. eapply creates_dirs_parent, IH; eauto.
Qed.

Lemma Path_mkdir_rec_ok n p fs fs' :
  Path_mkdir_rec denied n p fs = (Ok (), fs') → fs' !! p = Some EDir.
Proof.
  destruct n as [|n]; simpl; run; intros H.
  - destruct (os_mkdir denied p fs) as [[[]|e] fs1] eqn:Hmk.
    + simplify_eq. by eapply os_mkdir_ok.
    + destruct e; simplify_eq; by eapply unless_is_dir_ok.
  - destruct (os_mkdir denied p fs) as [[[]|e] fs1] eqn:Hmk.
    + simplify_eq. by eapply os_mkdir_ok.
    + destruct e; try by eapply unless_is_dir_ok.
      destruct (decide (parent p = p)); [done|].
      destruct (Path_mkdir_rec denied n (parent p) fs1) as [[[]|e] fs2]; [|done].
      by eapply Path_mkdir_leaf_ok.
Qed.

(** [mkdir(exist_ok=True)] on a directory that is there changes nothing. *)
Lemma Path_mkdir_exists p fs :
  fs !! p = Some EDir → Path_mkdir denied p fs = (Ok (), fs).
Proof.
  intros Hp. unfold Path_mkdir.
  destruct (length p); simpl; run; unfold os_mkdir; rewrite Hp; simpl;
    unfold unless_is_dir, is_dir; by rewrite Hp.
Qed.

Lemma Path_mkdir_new p fs :
  fs !! p = None → fs !! parent p = Some EDir → denied p = false →
  Path_mkdir denied p fs = (Ok (), <[p := EDir]> fs).
Proof.
  intros Hp Hpar Hd. unfold Path_mkdir.
  destruct (length p); simpl; run; unfold os_mkdir; by rewrite Hp, Hpar, Hd.
Qed.

(** The directory can be made when its parent is a directory and the
    path neither holds a file nor refuses creation. *)
Lemma Path_mkdir_can p fs :
  fs !! parent p = Some EDir → (∀ d, fs !! p ≠ Some (EFile d)) → denied p = false →
  ∃ fs', Path_mkdir denied p fs = (Ok (), fs').
Proof.
  intros Hpar Hnf Hd. destruct (fs !! p) as [[]|] eqn:Hp.
  - by destruct (Hnf data).
  - eexists. by apply Path_mkdir_exists.
  - eexists. by apply Path_mkdir_new.
Qed.
End mkdir_facts.

(** ** The functions of main.py, one by one *)

Lemma steps_app (tr1 tr2 : list event) : steps (tr1 ++ tr2) = steps tr1 ++ steps tr2.
Proof. unfold steps. apply filter_app. Qed.

Lemma steps_log tr lvl msg exc : steps (tr ++ [EvLog lvl msg exc]) = steps tr.
Proof. rewrite steps_app. simpl. apply app_nil_r. Qed.

Lemma quiet_refl w : quiet w w.
Proof. by split_and!. Qed.

Lemma logging_log_spec lvl msg exc w :
  ∃ w', logging_log lvl msg exc w = (Ok (), w') ∧ quiet w w'.
Proof.
  unfold logging_log, emit.
  destruct lvl, (logging_configured w); eexists; (split; [reflexivity|]);
    split_and!; simpl; try done; apply steps_log.
Qed.

Lemma logging_log_inv lvl msg exc w r w' :
  logging_log lvl msg exc w = (r, w') → r = Ok () ∧ quiet w w'.
Proof.
  intros H. destruct (logging_log_spec lvl msg exc w) as (w1 & H1 & ?).
  rewrite H1 in H. by simplify_eq.
Qed.

Lemma get_nvidia_driver_info_spec E w r w' :
  get_nvidia_driver_info E w = (r, w') →
  fs w' = fs w ∧ clock_reads w' = clock_reads w ∧
  steps (trace w') = steps (trace w) ++ [EvSubprocess nvidia_smi_argv] ∧
  r = driver_query E.
Proof.
  unfold driver_query, get_nvidia_driver_info, subprocess_run, index, logging_info, logging_error,
    logging_log, emit. run.
  destruct (nvidia_smi E) as [|rc out]; simpl.
  { intros; simplify_eq; simpl. rewrite steps_app. by split_and!. }
  destruct (decide (rc = 0%Z)); simpl.
  - destruct (splitlines out !! 1); simpl.
    + destruct (logging_configured w); intros; simplify_eq; simpl;
        rewrite ?steps_log, steps_app; by split_and!.
    + intros; simplify_eq; simpl. rewrite steps_app. by split_and!.
  - intros; simplify_eq; simpl. rewrite steps_log, steps_app. by split_and!.
Qed.

Lemma lift_fs_inv {A} (c : M filesystem A) w r w' :
  lift_fs c w = (r, w') →
  c (fs w) = (r, fs w') ∧ clock_reads w' = clock_reads w ∧ trace w' = trace w.
Proof. unfold lift_fs. destruct (c (fs w)) as [r1 f]. intros; by simplify_eq. Qed.

Lemma setup_logging_spec E w r w' :
  setup_logging E w = (r, w') →
  open_a (denied E) log_file (fs w) = (r, fs w') ∧
  clock_reads w' = clock_reads w ∧ trace w' = trace w.
Proof.
  unfold setup_logging. run. intros H.
  destruct (lift_fs _ w) as [[[]|e] w1] eqn:Hl; apply lift_fs_inv in Hl as (? & ? & ?);
    simplify_eq; simpl; by split_and!.
Qed.

Lemma create_backup_directory_spec E w r w' :
  create_backup_directory E w = (r, w') →
  clock_reads w' = S (clock_reads w) ∧
  match home_dir E with
  | None => r = Raise RuntimeError ∧ fs w' = fs w ∧ steps (trace w') = steps (trace w)
  | Some home =>
      let backup_dir := home ++ [backup_dir_name (clock E (clock_reads w))] in
      steps (trace w') = steps (trace w) ++ [EvMkdir backup_dir] ∧
      ∃ r0, Path_mkdir (denied E) backup_dir (fs w) = (r0, fs w') ∧
            r = match r0 with Ok _ => Ok backup_dir | Raise e => Raise e end
  end.
Proof.
  unfold create_backup_directory, datetime_now, Path_home, backup_dir_name. run.
  destruct (home_dir E) as [home|]; simpl; [|by intros; simplify_eq].
  intros H. match type of H with context [lift_fs ?c ?w0] =>
    destruct (lift_fs c w0) as [[[]|e] w1] eqn:Hl; apply lift_fs_inv in Hl as (Hmk & ? & Htr)
  end; simpl in *.
  - match type of H with context [logging_info ?m ?w0] =>
      destruct (logging_log_spec INFO m None w0) as (w2 & Hlog & (? & ? & Hq))
    end. unfold logging_info in H. rewrite Hlog in H. simplify_eq.
    split; [congruence|]. split; [by rewrite Hq, Htr, steps_app|].
    exists (Ok ()). split; [congruence | done].
  - simplify_eq. split; [done|]. split; [by rewrite Htr, steps_app|].
    by exists (Raise e).
Qed.

Lemma backup_nvidia_profile_files_spec E backup_dir w r w' :
  backup_nvidia_profile_files E backup_dir w = (r, w') →
  clock_reads w' = clock_reads w ∧
  match PROGRAMDATA E with
  | None => r = Raise TypeError ∧ fs w' = fs w ∧ steps (trace w') = steps (trace w)
  | Some pd =>
      let src_dir := src_dir_of pd in
      let dest_dir := dest_dir_of backup_dir in
      if stat_refused E src_dir then
        r = Raise PermissionError ∧ fs w' = fs w ∧ steps (trace w') = steps (trace w)
      else if exists_ src_dir (fs w) then
        steps (trace w') = steps (trace w) ++ [EvCopytree src_dir dest_dir] ∧
        ∃ r0, copytree (denied E) (recursion_limit E) src_dir dest_dir (fs w) = (r0, fs w') ∧
              r = Ok (match r0 with Ok _ => true | Raise _ => false end)
      else r = Ok false ∧ fs w' = fs w ∧ steps (trace w') = steps (trace w)
  end.
Proof.
  unfold backup_nvidia_profile_files, get_src_dir. run.
  destruct (PROGRAMDATA E) as [pd|]; simpl; [|by intros; simplify_eq].
  unfold lift_fs at 1, Path_exists. simpl.
  destruct (stat_refused E (src_dir_of pd)); simpl;
    [by intros; simplify_eq; destruct w|].
  destruct (exists_ (src_dir_of pd) (fs w)) eqn:Hex; simpl; intros H.
  - unfold emit, lift_fs in H. simpl in H.
    destruct (copytree _ _ _ _ (fs w)) as [[[]|e] f] eqn:Hcp; simpl in H.
    + log_step_with logging_log_spec H. simplify_eq. simpl in *.
      split; [done|]. split; [by rewrite Hst, steps_app|].
      exists (Ok ()). split; [congruence | done].
    + simplify_eq. simpl.
      split; [done|]. split; [by rewrite steps_log, steps_app|].
      by exists (Raise e).
  - unfold logging_warning, logging_log, emit in H. simplify_eq. simpl.
    by rewrite steps_log.
Qed.

Lemma backup_nvidia_registry_settings_spec E backup_dir w r w' :
  backup_nvidia_registry_settings E backup_dir w = (r, w') →
  clock_reads w' = clock_reads w ∧
  steps (trace w') = steps (trace w) ++ [EvSubprocess (reg_argv (reg_file_of backup_dir))] ∧
  match reg_export E with
  | ProcNotFound => r = Raise FileNotFoundError ∧ fs w' = fs w
  | ProcExit rc _ =>
      if decide (rc = 0%Z)
      then r = Ok true ∧ fs w' = <[reg_file_of backup_dir := EFile (reg_dump E)]> (fs w)
      else r = Ok false ∧ fs w' = fs w
  end.
Proof.
  unfold backup_nvidia_registry_settings, subprocess_run, reg_effect, emit. run.
  destruct (reg_export E) as [|rc out]; simpl.
  { intros; simplify_eq; simpl. rewrite steps_app. by split_and!. }
  destruct (decide (rc = 0%Z)) as [-> | Hrc]; simpl; intros H.
  - unfold lift_fs in H. simpl in H. log_step_with logging_log_spec H. simplify_eq.
    split; [by rewrite Hclk|]. split; [by rewrite Hst; simpl; rewrite steps_app|].
    split; [done|]. by rewrite Hfs.
  - assert ((match rc with
             | 0%Z => lift_fs (λ f, (Ok (), <[reg_file_of backup_dir := EFile (reg_dump E)]> f))
             | _ => λ s : world, (Ok (), s)
             end) = λ s : world, (Ok (), s)) as Heff by (by destruct rc).
    rewrite Heff in H. simpl in H. destruct (decide (rc = 0%Z)); [done|].
    simpl in H. simplify_eq. simpl. by rewrite steps_log, steps_app.
Qed.

(** ** The whole of [main] *)

Lemma bind_inv {S A B} (c : M S A) (k : A → M S B) s r s' :
  bind c k s = (r, s') →
  ∃ r1 s1, c s = (r1, s1) ∧
           match r1 with
           | Ok a => k a s1 = (r, s')
           | Raise e => r = Raise e ∧ s' = s1
           end.
Proof.
  unfold bind. destruct (c s) as [[a|e] s1]; intros H; eexists _, _; (split; [done|]).
  - done.
  - by simplify_eq.
Qed.

Lemma append_assoc (a b c : string) : (a +:+ b) +:+ c = a +:+ (b +:+ c).
Proof.
  induction a as [|x a IH]; [done|].
  change (String x ((a +:+ b) +:+ c) = String x (a +:+ b +:+ c)). by f_equal.
Qed.

Lemma emit_inv ev w r w' :
  emit ev w = (r, w') →
  r = Ok () ∧ fs w' = fs w ∧ clock_reads w' = clock_reads w ∧ trace w' = trace w ++ [ev].
Proof. unfold emit. intros; by simplify_eq. Qed.

(** [f.write(a)] on the file opened at [f]. *)
Lemma write_inv (f : path) (x a : string) (fs0 : filesystem) w r w' :
  fs w = <[f := EFile x]> fs0 →
  lift_fs (f_write f a) w = (r, w') →
  r = Ok () ∧ fs w' = <[f := EFile (x +:+ a)]> fs0 ∧
  clock_reads w' = clock_reads w ∧ trace w' = trace w.
Proof.
  intros Hfs H. apply lift_fs_inv in H as (H & ? & ?).
  unfold f_write in H. rewrite Hfs, lookup_insert_eq, insert_insert_eq in H.
  by simplify_eq.
Qed.

(** [main], outcome by outcome: the run stops at the first step that raises
    something no [except] clause of the script catches. *)
Lemma main_spec E w r w' :
  main E w = (r, w') →
  ∃ r1 fs1, open_a (denied E) log_file (fs w) = (r1, fs1) ∧
  match r1 with
  | Raise e => r = Raise e
  | Ok _ =>
  match driver_query E with
  | Raise e => r = Raise e
  | Ok driver_version =>
  match home_dir E with
  | None => r = Raise RuntimeError
  | Some home =>
  let backup_dir := home ++ [backup_dir_name (clock E (clock_reads w))] in
  ∃ r2 fs2, Path_mkdir (denied E) backup_dir fs1 = (r2, fs2) ∧
  match r2 with
  | Raise e => r = Raise e
  | Ok _ =>
  match PROGRAMDATA E with
  | None => r = Raise TypeError
  | Some pd =>
  if stat_refused E (src_dir_of pd) then r = Raise PermissionError else
  ∃ fs3 profile_ok,
    profile_step E (src_dir_of pd) (dest_dir_of backup_dir) fs2 fs3 profile_ok ∧
  match reg_export E with
  | ProcNotFound => r = Raise FileNotFoundError
  | ProcExit rc _ =>
  ∃ fs4 registry_ok,
    registry_step E (reg_file_of backup_dir) rc fs3 fs4 registry_ok ∧
  ∃ r5 fs5, open_w (denied E) (driver_info_of backup_dir) fs4 = (r5, fs5) ∧
  match r5 with
  | Raise e => r = Raise e
  | Ok _ =>
      r = Ok () ∧
      fs w' = <[driver_info_of backup_dir :=
                  EFile (driver_info_text driver_version (clock E (S (clock_reads w))))]> fs4 ∧
      steps (trace w') =
        steps (trace w) ++
        main_steps (src_dir_of pd) backup_dir (exists_ (src_dir_of pd) fs2)
          profile_ok registry_ok
  end end end end end end end.
Proof.
  unfold main. intros H.
  (* setup_logging *)
  apply bind_inv in H as (r1 & w1 & H1 & H).
  apply setup_logging_spec in H1 as (Hopen & Hclk1 & Htr1).
  exists r1, (fs w1). split; [done|]. destruct r1 as [[]|e]; [|by destruct H].
  apply bind_inv in H as (rl & wl & Hl & H).
  unfold logging_info in Hl. apply logging_log_inv in Hl as (-> & Hfsl & Hclkl & Hstl).
  (* get_nvidia_driver_info *)
  apply bind_inv in H as (rd & wd & Hd & H).
  apply get_nvidia_driver_info_spec in Hd as (Hfsd & Hclkd & Hstd & ->).
  destruct (driver_query E) as [driver_version|e]; [|by destruct H].
  (* create_backup_directory *)
  apply bind_inv in H as (rb & wb & Hb & H).
  apply create_backup_directory_spec in Hb as (Hclkb & Hb).
  destruct (home_dir E) as [home|]; [|by destruct Hb as (-> & _); destruct H].
  rewrite Hclkd, Hclkl, Hclk1 in Hb, Hclkb. rewrite Hfsd, Hfsl in Hb.
  simpl in Hb. destruct Hb as (Hstb & r2 & Hmk & ->).
  exists r2, (fs wb). split; [done|]. destruct r2 as [[]|e]; [|by destruct H].
  set (backup_dir := home ++ [backup_dir_name (clock E (clock_reads w))]) in *.
  (* backup_nvidia_profile_files *)
  apply bind_inv in H as (rp & wp & Hp & H).
  apply backup_nvidia_profile_files_spec in Hp as (Hclkp & Hp).
  destruct (PROGRAMDATA E) as [pd|]; [|by destruct Hp as (-> & _); destruct H].
  simpl in Hp.
  destruct (stat_refused E (src_dir_of pd)); [by destruct Hp as (-> & _); destruct H|].
  assert (∃ profile_ok,
            rp = Ok profile_ok ∧
            profile_step E (src_dir_of pd) (dest_dir_of backup_dir) (fs wb) (fs wp) profile_ok ∧
            steps (trace wp) = steps (trace wb) ++
              (if exists_ (src_dir_of pd) (fs wb)
               then [EvCopytree (src_dir_of pd) (dest_dir_of backup_dir)] else []))
    as (profile_ok & -> & Hprof & Hstp).
  { unfold profile_step. destruct (exists_ (src_dir_of pd) (fs wb)).
    - destruct Hp as (? & r0 & ? & ->). eexists. split; [done|]. split; [|done]. by exists r0.
    - destruct Hp as (-> & ? & ?). exists false. by rewrite app_nil_r. }
  exists (fs wp), profile_ok. split; [done|].
  (* backup_nvidia_registry_settings *)
  apply bind_inv in H as (rr & wr & Hr & H).
  apply backup_nvidia_registry_settings_spec in Hr as (Hclkr & Hstr & Hr).
  destruct (reg_export E) as [|rc out]; [by destruct Hr as (-> & _); destruct H|].
  assert (∃ registry_ok,
            rr = Ok registry_ok ∧
            registry_step E (reg_file_of backup_dir) rc (fs wp) (fs wr) registry_ok)
    as (registry_ok & -> & Hreg).
  { unfold registry_step. destruct (decide (rc = 0%Z)); destruct Hr as (-> & ?); eauto. }
  exists (fs wr), registry_ok. split; [done|].
  (* the summary *)
  apply bind_inv in H as (rs & ws & Hs & H).
  assert (rs = Ok () ∧ fs ws = fs wr ∧ clock_reads ws = clock_reads wr ∧
          steps (trace ws) = steps (trace wr) ++ summary backup_dir profile_ok registry_ok)
    as (-> & Hfss & Hclks & Hsts).
  { unfold summary. destruct (profile_ok && registry_ok).
    - apply bind_inv in Hs as (? & wa & Ha & Hs).
      unfold logging_info, logging_warning in Ha. apply logging_log_inv in Ha as (-> & Hfsa & Hclka & Hsta).
      apply bind_inv in Hs as (? & wc & Hc & Hs).
      apply emit_inv in Hc as (-> & Hfsc & Hclkc & Htrc).
      apply emit_inv in Hs as (-> & Hfse & Hclke & Htre).
      split_and!; [done | congruence | congruence |].
      by rewrite Htre, Htrc, !steps_app, Hsta, <- app_assoc.
    - apply bind_inv in Hs as (? & wa & Ha & Hs).
      unfold logging_info, logging_warning in Ha. apply logging_log_inv in Ha as (-> & Hfsa & Hclka & Hsta).
      apply emit_inv in Hs as (-> & Hfse & Hclke & Htre).
      split_and!; [done | congruence | congruence |].
      by rewrite Htre, !steps_app, Hsta. }
  (* driver_info.txt *)
  apply bind_inv in H as (rw & ww & Hw & H).
  apply bind_inv in Hw as (? & wo & Ho & Hw).
  apply emit_inv in Ho as (-> & Hfso & Hclko & Htro).
  apply bind_inv in Hw as (r5 & w5 & H5 & Hw).
  apply lift_fs_inv in H5 as (H5 & Hclk5 & Htr5).
  rewrite Hfso, Hfss in H5. exists r5, (fs w5). split; [done|].
  destruct r5 as [[]|e]; [|by destruct Hw as (-> & _); destruct H].
  assert (fs w5 = <[driver_info_of backup_dir := EFile ""]> (fs wr)) as Hfs5.
  { unfold open_w in H5. repeat case_match; by simplify_eq. }
  apply bind_inv in Hw as (? & x1 & Hx1 & Hw).
  apply write_inv with (x := "") (fs0 := fs wr) in Hx1 as (-> & Hfs1 & Hclkx1 & Htrx1);
    [|done].
  apply bind_inv in Hw as (rn & wn & Hn & Hw).
  unfold datetime_now in Hn. simplify_eq.
  apply bind_inv in Hw as (? & x2 & Hx2 & Hw).
  eapply write_inv in Hx2 as (-> & Hfs2 & Hclkx2 & Htrx2); [|exact Hfs1].
  apply bind_inv in Hw as (? & x3 & Hx3 & Hw).
  eapply write_inv in Hx3 as (-> & Hfs3 & Hclkx3 & Htrx3); [|exact Hfs2].
  eapply write_inv in Hw as (-> & Hfsw & Hclkw & Htrw); [|exact Hfs3].
  simpl in *.
  (* the last prints *)
  apply bind_inv in H as (? & wa & Ha & H). apply emit_inv in Ha as (-> & Hfsa & Hclka & Htra).
  apply bind_inv in H as (? & wc & Hc & H). apply emit_inv in Hc as (-> & Hfsc & Hclkc & Htrc).
  apply bind_inv in H as (? & wd' & Hd' & H).
  apply emit_inv in Hd' as (-> & Hfsd' & Hclkd' & Htrd').
  apply emit_inv in H as (-> & Hfse & Hclke & Htre).
  split; [done|]. split.
  - rewrite Hfse, Hfsd', Hfsc, Hfsa, Hfsw. unfold driver_info_text.
    rewrite !append_assoc.
    assert (clock_reads x1 = S (clock_reads w)) as -> by congruence. done.
  - rewrite Htre, Htrd', Htrc, Htra, Htrw, Htrx3, Htrx2, Htrx1, Htr5, Htro, !steps_app,
      Hsts, Hstr, Hstp, Hstb, Hstd, Hstl, Htr1.
    unfold main_steps, next_steps. simpl. rewrite <- !app_assoc. done.
Qed.

(** ** When [main] completes *)

Lemma open_a_can (denied : path → bool) (f : filesystem) (p : path) :
  can_write denied f p → ∃ f', open_a denied p f = (Ok (), f') ∧ extends f f' ∧
    ∀ q, q ≠ p → f' !! q = f !! q.
Proof.
  intros (Hpar & Hnd & Hd). unfold open_a. rewrite Hd.
  destruct (f !! p) as [[]|] eqn:Hp; [|done|].
  - exists f. split_and!; [done | apply extends_refl | done].
  - rewrite Hpar. eexists. split_and!; [done| |].
    + intros q e Hq. exists e. split; [|done]. rewrite lookup_insert_ne; [done|congruence].
    + intros q Hq. by rewrite lookup_insert_ne.
Qed.

Lemma open_w_can (denied : path → bool) (f : filesystem) (p : path) :
  can_write denied f p → open_w denied p f = (Ok (), <[p := EFile ""]> f).
Proof.
  intros (Hpar & Hnd & Hd). unfold open_w. rewrite Hd, Hpar.
  by destruct (f !! p) as [[]|].
Qed.

Lemma snoc_not_prefix (p : path) (a b : string) : a ≠ b → ¬ p ++ [a] `prefix_of` p ++ [b].
Proof.
  intros Hab Hpre. apply prefix_app_inv in Hpre. destruct Hpre as [k E].
  simpl in E. injection E as E _. by apply Hab.
Qed.

Lemma snoc_ne (p q : path) (a b : string) : a ≠ b → p ++ [a] ≠ q ++ [b].
Proof. intros Hab E. apply app_inj_tail in E as [_ ?]. done. Qed.

(** The profile step leaves alone what is not under its destination. *)
Lemma profile_step_sibling E src_dir backup_dir f f' flag (n : string) :
  n ≠ "NVIDIA_Profiles" →
  profile_step E src_dir (dest_dir_of backup_dir) f f' flag →
  extends f f' ∧ f' !! (backup_dir ++ [n]) = f !! (backup_dir ++ [n]).
Proof.
  unfold profile_step, dest_dir_of. intros Hn H.
  destruct (exists_ src_dir f); [|destruct H as [-> _]; split; [apply extends_refl|done]].
  destruct H as (r0 & Hcp & _). apply copytree_step in Hcp as (Hext & Hto & _).
  split; [done|]. destruct (Hto (backup_dir ++ [n])) as [? | [Hpre | (Hpre & _)]]; [done|..].
  - by apply snoc_not_prefix in Hpre.
  - by apply snoc_not_prefix in Hpre.
Qed.

Lemma backup_dir_of_parent E w home :
  parent (driver_info_of (backup_dir_of E w home)) = backup_dir_of E w home.
Proof. unfold driver_info_of, backup_dir_of. apply parent_snoc. by destruct home. Qed.

Lemma main_completes E w r w' : runnable E w → main E w = (r, w') → r = Ok ().
Proof.
  intros (Hlog & (rc & out & Hsmi & Hout) & (home & Hhome & Hbd) & (pd & Hpd & Hstat) &
          (rc' & out' & Hreg)) H.
  simpl in Hbd. destruct Hbd as (Hpar & Hnf & Hden & Hinfo & Hdeni).
  apply main_spec in H as (r1 & fs1 & Hopen & H).
  destruct (open_a_can _ _ _ Hlog) as (fs1' & Hopen' & Hext1 & Hsame1).
  rewrite Hopen' in Hopen. simplify_eq.
  assert (∃ dv, driver_query E = Ok dv) as [dv Hdv].
  { unfold driver_query. rewrite Hsmi. destruct (decide (rc = 0%Z)); [|by eauto].
    destruct Hout as [? | [line ->]]; [done | by eauto]. }
  rewrite Hdv, Hhome in H. fold (backup_dir_of E w home) in H.
  set (backup_dir := backup_dir_of E w home) in *.
  assert (log_file ≠ backup_dir) as Hne1.
  { unfold log_file, backup_dir, backup_dir_of. apply (snoc_ne [""]). done. }
  assert (log_file ≠ driver_info_of backup_dir) as Hne2.
  { unfold log_file, driver_info_of. apply (snoc_ne [""]). done. }
  destruct H as (r2 & fs2 & Hmk & H).
  destruct (Path_mkdir_can (denied E) backup_dir fs1) as [fs2' Hmk'].
  { by eapply extends_dir. }
  { intros d. rewrite Hsame1 by done. apply Hnf. }
  { done. }
  rewrite Hmk' in Hmk. simplify_eq. rewrite Hpd, Hstat in H.
  destruct H as (fs3 & profile_ok & Hprof & H). rewrite Hreg in H.
  destruct H as (fs4 & registry_ok & Hrs & r5 & fs5 & Hw & H).
  assert (can_write (denied E) fs4 (driver_info_of backup_dir)) as Hcan.
  { pose proof (Path_mkdir_rec_ok _ _ _ _ _ Hmk') as Hdir2.
    pose proof (Path_mkdir_rec_creates _ _ _ _ _ _ Hmk' (driver_info_of backup_dir)) as Hcr.
    apply profile_step_sibling with (n := "driver_info.txt") in Hprof as [Hext3 Hsame3];
      [|done].
    assert (fs3 !! driver_info_of backup_dir ≠ Some EDir) as Hinfo3.
    { unfold driver_info_of in *. rewrite Hsame3.
      destruct Hcr as [-> | (Hpre & _)].
      - by rewrite Hsame1.
      - apply prefix_length in Hpre. rewrite length_app in Hpre. simpl in Hpre. lia. }
    assert (fs3 !! backup_dir = Some EDir) as Hdir3 by (by eapply extends_dir).
    unfold can_write. unfold backup_dir at 1. rewrite backup_dir_of_parent.
    fold backup_dir. unfold registry_step in Hrs.
    destruct (decide (rc' = 0%Z)); destruct Hrs as [-> _]; [|done].
    split_and!; [|  |done].
    - rewrite lookup_insert_ne; [done|]. unfold reg_file_of.
      intros E'. apply (f_equal length) in E'. rewrite length_app in E'. simpl in E'. lia.
    - rewrite lookup_insert_ne; [done|]. unfold reg_file_of, driver_info_of.
      by apply snoc_ne. }
  rewrite (open_w_can _ _ _ Hcan) in Hw. simplify_eq. by destruct H.
Qed.

Lemma wf_check_ok (f : filesystem) : wf_check f = true → wf f.
Proof.
  unfold wf_check. intros H%bool_decide_eq_true p [e Hp]. by apply (H p e).
Qed.

Lemma ex_fs_wf : wf ex_fs.
Proof. apply wf_check_ok. by vm_compute. Qed.

Lemma steps_subseteq (ev : event) tr : ev ∈ steps tr → ev ∈ tr.
Proof. unfold steps. intros H%list_elem_of_filter. apply H. Qed.

(** What a run of [main] that completes went through. *)
Lemma main_ok_inv E w w' :
  main E w = (Ok (), w') →
  ∃ driver_version home pd rc out fs1 fs2 fs3 fs4 profile_ok registry_ok,
    driver_query E = Ok driver_version ∧ home_dir E = Some home ∧
    PROGRAMDATA E = Some pd ∧ reg_export E = ProcExit rc out ∧
    let backup_dir := backup_dir_of E w home in
    open_a (denied E) log_file (fs w) = (Ok (), fs1) ∧
    Path_mkdir (denied E) backup_dir fs1 = (Ok (), fs2) ∧
    profile_step E (src_dir_of pd) (dest_dir_of backup_dir) fs2 fs3 profile_ok ∧
    registry_step E (reg_file_of backup_dir) rc fs3 fs4 registry_ok ∧
    fs4 !! backup_dir = Some EDir ∧
    fs w' = <[driver_info_of backup_dir :=
                EFile (driver_info_text driver_version (clock E (S (clock_reads w))))]> fs4 ∧
    steps (trace w') =
      steps (trace w) ++
      main_steps (src_dir_of pd) backup_dir (exists_ (src_dir_of pd) fs2)
        profile_ok registry_ok.
Proof.
  intros H. apply main_spec in H as (r1 & fs1 & Hopen & H).
  destruct r1 as [[]|]; [|done].
  destruct (driver_query E) as [driver_version|]; [|done].
  destruct (home_dir E) as [home|]; [|done].
  destruct H as (r2 & fs2 & Hmk & H). destruct r2 as [[]|]; [|done].
  destruct (PROGRAMDATA E) as [pd|]; [|done].
  destruct (stat_refused E (src_dir_of pd)); [done|].
  destruct H as (fs3 & profile_ok & Hprof & H).
  destruct (reg_export E) as [|rc out]; [done|].
  destruct H as (fs4 & registry_ok & Hrs & r5 & fs5 & Hw & H).
  destruct r5 as [[]|]; [|done]. destruct H as (_ & Hfs & Hst).
  exists driver_version, home, pd, rc, out, fs1, fs2, fs3, fs4, profile_ok, registry_ok.
  fold (backup_dir_of E w home) in *. cbv zeta. split_and!; try done.
  unfold open_w in Hw. rewrite backup_dir_of_parent in Hw.
  destruct (fs4 !! backup_dir_of E w home) as [[]|]; [|done|];
    by destruct (fs4 !! driver_info_of _) as [[]|].
Qed.

(** * Main results *)

(** C1, as the code has it: when the log file can be opened, [nvidia-smi]
    starts (and prints at least two lines when it exits with status 0), the
    backup directory can be created, PROGRAMDATA is set, the path of the
    profile directory can be examined (the [exists()] of line 47, which no
    [try] guards, does not raise), [reg] starts and [driver_info.txt] can
    be written, a run of [main] completes without an exception and prints
    the full-success or the partial-success summary, whether the profile
    directory is there or not, whatever happens to the copy and whatever
    the exit status of either tool. *)
Theorem main_reports_a_summary E w :
  runnable E w →
  ∃ w' home, main E w = (Ok (), w') ∧ home_dir E = Some home ∧
    (EvPrint (msg_completed (backup_dir_of E w home)) ∈ trace w' ∨
     EvPrint msg_partial ∈ trace w').
Proof.
  intros Hrun. destruct (main E w) as [r w'] eqn:H.
  pose proof (main_completes _ _ _ _ Hrun H) as ->.
  apply main_ok_inv in H
    as (dv & home & pd & rc & out & fs1 & fs2 & fs3 & fs4 & pok & rok &
        _ & Hhome & _ & _ & _ & _ & _ & _ & _ & _ & Hst).
  exists w', home. split_and!; [done | done |].
  assert (∀ ev, ev ∈ summary (backup_dir_of E w home) pok rok → ev ∈ trace w') as Hin.
  { intros ev Hev. apply steps_subseteq. rewrite Hst. unfold main_steps.
    rewrite !elem_of_app. auto 10. }
  unfold summary in Hin. destruct (pok && rok).
  - left. apply Hin. by left.
  - right. apply Hin. by left.
Qed.

Lemma main_reports_a_summary_witness :
  runnable ex_env ex_world ∧
  ∃ w' home, main ex_env ex_world = (Ok (), w') ∧ home_dir ex_env = Some home ∧
    (EvPrint (msg_completed (backup_dir_of ex_env ex_world home)) ∈ trace w' ∨
     EvPrint msg_partial ∈ trace w').
Proof.
  assert (runnable ex_env ex_world) as Hrun by solve_runnable.
  split; [exact Hrun | exact (main_reports_a_summary ex_env ex_world Hrun)].
Defined.

(** C1 as stated fails: nothing guards the creation of the backup directory,
    and a refusal there ends the run with [PermissionError] before any
    summary is printed. *)
Lemma main_aborts_when_mkdir_fails :
  (main ex_env_no_mkdir ex_world).1 = Raise PermissionError ∧
  steps (trace (main ex_env_no_mkdir ex_world).2) =
    [EvSubprocess nvidia_smi_argv; EvMkdir ex_backup_dir].
Proof. by vm_compute. Qed.




(** Nor is the file written when a tool cannot be started: the
    [FileNotFoundError] of [subprocess.run] is not a [CalledProcessError]
    and passes the [except] clause of the step. *)
Example tool_not_started_is_not_caught :
  (main ex_env_no_reg ex_world).1 = Raise FileNotFoundError ∧
  fs (main ex_env_no_reg ex_world).2 !! ex_backup_dir = Some EDir ∧
  fs (main ex_env_no_reg ex_world).2 !! driver_info_of ex_backup_dir = None.
Proof. by vm_compute. Qed.

(** C6, as the code has it: a run of [main] that completes queries the
    driver version, creates the backup directory, copies the profile tree,
    exports the registry, prints the status, writes [driver_info.txt] and
    last prints the next steps, in this order.  The copy is attempted
    exactly when the profile directory exists once the backup directory has
    been made; the status is the success message exactly when the copy was
    attempted and raised nothing and [reg] exited with status 0. *)
Theorem main_order E w w' :
  main E w = (Ok (), w') →
  ∃ home pd rc out fs1 fs2 fs3 profile_ok,
    home_dir E = Some home ∧ PROGRAMDATA E = Some pd ∧
    reg_export E = ProcExit rc out ∧
    let backup_dir := backup_dir_of E w home in
    open_a (denied E) log_file (fs w) = (Ok (), fs1) ∧
    Path_mkdir (denied E) backup_dir fs1 = (Ok (), fs2) ∧
    profile_step E (src_dir_of pd) (dest_dir_of backup_dir) fs2 fs3 profile_ok ∧
    steps (trace w') =
      steps (trace w) ++
      main_steps (src_dir_of pd) backup_dir
        (exists_ (src_dir_of pd) fs2) profile_ok (bool_decide (rc = 0%Z)).
Proof.
  intros H. apply main_ok_inv in H
    as (dv & home & pd & rc & out & fs1 & fs2 & fs3 & fs4 & pok & rok &
        _ & Hhome & Hpd & Hreg & Hopen & Hmk & Hprof & Hrs & _ & _ & Hst).
  exists home, pd, rc, out, fs1, fs2, fs3, pok. cbv zeta. split_and!; try done.
  assert (rok = bool_decide (rc = 0%Z)) as <-; [|done].
  unfold registry_step in Hrs. destruct (decide (rc = 0%Z)) as [Hrc | Hrc];
    destruct Hrs as [_ ->]; symmetry;
    [by apply bool_decide_eq_true_2 | by apply bool_decide_eq_false_2].
Qed.

Lemma main_order_witness :
  ∃ w', main ex_env ex_world = (Ok (), w') ∧
  ∃ home pd rc out fs1 fs2 fs3 profile_ok,
    home_dir ex_env = Some home ∧ PROGRAMDATA ex_env = Some pd ∧
    reg_export ex_env = ProcExit rc out ∧
    let backup_dir := backup_dir_of ex_env ex_world home in
    open_a (denied ex_env) log_file (fs ex_world) = (Ok (), fs1) ∧
    Path_mkdir (denied ex_env) backup_dir fs1 = (Ok (), fs2) ∧
    profile_step ex_env (src_dir_of pd) (dest_dir_of backup_dir) fs2 fs3 profile_ok ∧
    steps (trace w') =
      steps (trace ex_world) ++
      main_steps (src_dir_of pd) backup_dir
        (exists_ (src_dir_of pd) fs2) profile_ok (bool_decide (rc = 0%Z)).
Proof.
  assert ((main ex_env ex_world).1 = Ok ()) as H1 by (vm_compute; reflexivity).
  destruct (main ex_env ex_world) as [r w'] eqn:H. simpl in H1. subst r.
  exists w'. split; [reflexivity | exact (main_order ex_env ex_world w' H)].
Defined.

(** C6 as stated fails: in the run where everything works the status is
    printed before [driver_info.txt] is opened, not after; no status line
    follows the writing of the file. *)
Lemma status_printed_before_driver_info :
  (main ex_env ex_world).1 = Ok () ∧
  occurs_in_order
    (status_last_order ex_src ex_backup_dir (EvPrint (msg_completed ex_backup_dir)))
    (trace (main ex_env ex_world).2) = false ∧
  occurs_in_order
    (status_last_order ex_src ex_backup_dir (EvPrint msg_partial))
    (trace (main ex_env ex_world).2) = false ∧
  occurs_in_order
    [EvPrint (msg_completed ex_backup_dir); EvOpen (driver_info_of ex_backup_dir)]
    (trace (main ex_env ex_world).2) = true.
Proof. by vm_compute. Qed.

(** C8: when [nvidia-smi] exits with a status other than 0,
    [get_nvidia_driver_info] returns "Unknown" (it does return), and the
    [driver_info.txt] that [main] writes, in every run in which it writes
    one, starts with the line "NVIDIA Driver Version: Unknown". *)
Theorem unknown_driver_version E rc stdout :
  nvidia_smi E = ProcExit rc stdout → rc ≠ 0%Z →
  (∀ w, ∃ w', get_nvidia_driver_info E w = (Ok "Unknown", w')) ∧
  (∀ w w', main E w = (Ok (), w') →
     ∃ home text,
       home_dir E = Some home ∧
       fs w' !! driver_info_of (backup_dir_of E w home) = Some (EFile text) ∧
       splitlines text !! 0 = Some "NVIDIA Driver Version: Unknown").
Proof.
  intros Hsmi Hrc.
  assert (driver_query E = Ok "Unknown") as Hq.
  { unfold driver_query. rewrite Hsmi. by destruct (decide (rc = 0%Z)). }
  split.
  - intros w. destruct (get_nvidia_driver_info E w) as [r w'] eqn:H.
    apply get_nvidia_driver_info_spec in H as (_ & _ & _ & ->).
    exists w'. by rewrite Hq.
  - intros w w' H. apply main_ok_inv in H
      as (dv & home & pd & rc' & out & fs1 & fs2 & fs3 & fs4 & pok & rok &
          Hdv & Hhome & _ & _ & _ & _ & _ & _ & _ & Hfs & _).
    rewrite Hq in Hdv. simplify_eq.
    exists home. eexists. split_and!; [done | |].
    + rewrite Hfs. apply lookup_insert_eq.
    + reflexivity.
Qed.

(** The run of the machine on which [nvidia-smi] exits with status 1. *)
Lemma unknown_driver_version_witness :
  nvidia_smi ex_env_smi_fails = ProcExit 1 "" ∧ (1 ≠ 0)%Z ∧
  (∃ w', get_nvidia_driver_info ex_env_smi_fails ex_world = (Ok "Unknown", w')) ∧
  ∃ w', main ex_env_smi_fails ex_world = (Ok (), w') ∧
    ∃ home text,
      home_dir ex_env_smi_fails = Some home ∧
      fs w' !! driver_info_of (backup_dir_of ex_env_smi_fails ex_world home)
        = Some (EFile text) ∧
      splitlines text !! 0 = Some "NVIDIA Driver Version: Unknown".
Proof.
  assert (nvidia_smi ex_env_smi_fails = ProcExit 1 "") as H1 by reflexivity.
  assert ((1 ≠ 0)%Z) as H2 by lia.
  assert ((main ex_env_smi_fails ex_world).1 = Ok ()) as H0 by (vm_compute; reflexivity).
  destruct (main ex_env_smi_fails ex_world) as [r w'] eqn:H. simpl in H0. subst r.
  split; [exact H1|]. split; [exact H2|].
  split; [exact (proj1 (unknown_driver_version ex_env_smi_fails 1 "" H1 H2) ex_world)|].
  exists w'. split; [reflexivity|].
  exact (proj2 (unknown_driver_version ex_env_smi_fails 1 "" H1 H2) ex_world w' H).
Defined.

Lemma nothing_under_ok (dst : path) (f : filesystem) :
  nothing_under dst f = true → ∀ q, f !! (dst ++ q) = None.
Proof.
  unfold nothing_under. intros H%bool_decide_eq_true q.
  destruct (f !! (dst ++ q)) as [e|] eqn:Hq; [|done].
  destruct (H _ _ Hq). by apply prefix_app_r.
Qed.

(** C3, as the code has it: when PROGRAMDATA is set, the path of the
    profile directory can be examined and nothing is there,
    [backup_nvidia_profile_files] returns [False] without raising, and the
    backup directory is still there. *)
Theorem missing_source_returns_false E backup_dir w pd :
  PROGRAMDATA E = Some pd →
  stat_refused E (src_dir_of pd) = false →
  exists_ (src_dir_of pd) (fs w) = false →
  is_dir backup_dir (fs w) = true →
  ∃ w', backup_nvidia_profile_files E backup_dir w = (Ok false, w') ∧
        is_dir backup_dir (fs w') = true.
Proof.
  intros Hpd Hstat Hex Hdir.
  destruct (backup_nvidia_profile_files E backup_dir w) as [r w'] eqn:H.
  apply backup_nvidia_profile_files_spec in H as (_ & H).
  rewrite Hpd in H. simpl in H. rewrite Hstat, Hex in H. destruct H as (-> & Hfs & _).
  exists w'. by rewrite Hfs.
Qed.

Lemma missing_source_returns_false_witness :
  PROGRAMDATA ex_env = Some ex_programdata ∧
  stat_refused ex_env (src_dir_of ex_programdata) = false ∧
  exists_ (src_dir_of ex_programdata) (fs (ex_world_on ex_fs_no_profiles)) = false ∧
  is_dir ex_backup_dir (fs (ex_world_on ex_fs_no_profiles)) = true ∧
  ∃ w', backup_nvidia_profile_files ex_env ex_backup_dir (ex_world_on ex_fs_no_profiles)
          = (Ok false, w') ∧
        is_dir ex_backup_dir (fs w') = true.
Proof.
  assert (PROGRAMDATA ex_env = Some ex_programdata) as H1 by reflexivity.
  assert (stat_refused ex_env (src_dir_of ex_programdata) = false) as H2 by reflexivity.
  assert (exists_ (src_dir_of ex_programdata) (fs (ex_world_on ex_fs_no_profiles)) = false)
    as H3 by (vm_compute; reflexivity).
  assert (is_dir ex_backup_dir (fs (ex_world_on ex_fs_no_profiles)) = true)
    as H4 by (vm_compute; reflexivity).
  split_and!; [exact H1 | exact H2 | exact H3 | exact H4 |].
  exact (missing_source_returns_false ex_env ex_backup_dir _ ex_programdata H1 H2 H3 H4).
Defined.

(** C3 as stated fails: the existence test of line 47 stands outside the
    [try].  On a disk without the profile directory and with the backup
    directory in place, the function raises [PermissionError] when the
    operating system refuses to examine the path ([Path.exists] passes on
    every error of [stat] that does not say that the path is missing), and
    the [Path(None)] of line 46 raises [TypeError] when PROGRAMDATA is not
    set. *)
Lemma missing_source_can_raise :
  fs (ex_world_on ex_fs_no_profiles) !! ex_src = None ∧
  is_dir ex_backup_dir (fs (ex_world_on ex_fs_no_profiles)) = true ∧
  (backup_nvidia_profile_files ex_env_unreadable ex_backup_dir
     (ex_world_on ex_fs_no_profiles)).1 = Raise PermissionError ∧
  (backup_nvidia_profile_files ex_env_no_programdata ex_backup_dir
     (ex_world_on ex_fs_no_profiles)).1 = Raise TypeError.
Proof. by vm_compute. Qed.

(** C4, as the code has it: when [backup_nvidia_profile_files] returns
    [True], every file of the source tree is a file at the same relative
    path under [backup_dir/NVIDIA_Profiles], provided that path did not hold
    a directory before (as is the case when the destination is new). *)
Theorem copied_files_present E backup_dir w w' pd :
  PROGRAMDATA E = Some pd →
  wf (fs w) →
  (∀ q d, fs w !! (src_dir_of pd ++ q) = Some (EFile d) →
          fs w !! (dest_dir_of backup_dir ++ q) ≠ Some EDir) →
  backup_nvidia_profile_files E backup_dir w = (Ok true, w') →
  ∀ q d, fs w !! (src_dir_of pd ++ q) = Some (EFile d) →
         ∃ d', fs w' !! (dest_dir_of backup_dir ++ q) = Some (EFile d').
Proof.
  intros Hpd Hwf Hfree H q d Hq.
  apply backup_nvidia_profile_files_spec in H as (_ & H).
  rewrite Hpd in H. simpl in H.
  destruct (stat_refused E (src_dir_of pd)); [by destruct H|].
  destruct (exists_ (src_dir_of pd) (fs w)); [|by destruct H].
  destruct H as (_ & r0 & Hcp & Hr). destruct r0 as [[]|]; [|done].
  eapply copytree_files; [| done | done | done | done].
  unfold src_dir_of. by destruct pd.
Qed.

Lemma copied_files_present_witness :
  ∃ w', PROGRAMDATA ex_env = Some ex_programdata ∧
    wf (fs ex_world) ∧
    (∀ q d, fs ex_world !! (src_dir_of ex_programdata ++ q) = Some (EFile d) →
            fs ex_world !! (dest_dir_of ex_backup_dir ++ q) ≠ Some EDir) ∧
    backup_nvidia_profile_files ex_env ex_backup_dir ex_world = (Ok true, w') ∧
    ∀ q d, fs ex_world !! (src_dir_of ex_programdata ++ q) = Some (EFile d) →
           ∃ d', fs w' !! (dest_dir_of ex_backup_dir ++ q) = Some (EFile d').
Proof.
  assert (PROGRAMDATA ex_env = Some ex_programdata) as H1 by reflexivity.
  assert (wf (fs ex_world)) as H2 by (apply wf_check_ok; vm_compute; reflexivity).
  assert (∀ q d, fs ex_world !! (src_dir_of ex_programdata ++ q) = Some (EFile d) →
                 fs ex_world !! (dest_dir_of ex_backup_dir ++ q) ≠ Some EDir) as H3.
  { intros q d _. rewrite (nothing_under_ok (dest_dir_of ex_backup_dir) (fs ex_world));
      [discriminate | vm_compute; reflexivity]. }
  assert ((backup_nvidia_profile_files ex_env ex_backup_dir ex_world).1 = Ok true) as H4
    by (vm_compute; reflexivity).
  destruct (backup_nvidia_profile_files ex_env ex_backup_dir ex_world) as [r w'] eqn:H.
  simpl in H4. subst r. exists w'. split_and!; [exact H1 | exact H2 | exact H3 | reflexivity |].
  exact (copied_files_present ex_env ex_backup_dir ex_world w' ex_programdata H1 H2 H3 H).
Defined.

(** C4 as stated fails: when the destination already holds a directory
    where the source holds a file, [shutil.copy2] puts the file inside that
    directory; the copy succeeds and the file is not at its relative path. *)
Lemma copy_into_directory_of_same_name :
  wf_check ex_fs_clash = true ∧
  ex_fs_clash !! (ex_src ++ ["nvdrsdb0.bin"]) = Some (EFile "profiles") ∧
  (backup_nvidia_profile_files ex_env ex_backup_dir (ex_world_on ex_fs_clash)).1 = Ok true ∧
  fs (backup_nvidia_profile_files ex_env ex_backup_dir (ex_world_on ex_fs_clash)).2
    !! (dest_dir_of ex_backup_dir ++ ["nvdrsdb0.bin"]) = Some EDir ∧
  fs (backup_nvidia_profile_files ex_env ex_backup_dir (ex_world_on ex_fs_clash)).2
    !! (dest_dir_of ex_backup_dir ++ ["nvdrsdb0.bin"; "nvdrsdb0.bin"])
    = Some (EFile "profiles").
Proof. by vm_compute. Qed.

(** C10, as the code has it: whatever its outcome,
    [backup_nvidia_profile_files] removes nothing, and changes the file
    system only under [backup_dir/NVIDIA_Profiles] and by creating the
    missing directories that lead to it; when that directory and the source
    directory do not lie inside one another, the source tree is unchanged.
    (The log records it emits are kept apart from the file system.) *)
Theorem profile_backup_frame E backup_dir w r w' :
  backup_nvidia_profile_files E backup_dir w = (r, w') →
  extends (fs w) (fs w') ∧
  touches_only (dest_dir_of backup_dir) (fs w) (fs w') ∧
  ∀ pd, PROGRAMDATA E = Some pd →
        ¬ src_dir_of pd `prefix_of` dest_dir_of backup_dir →
        ¬ dest_dir_of backup_dir `prefix_of` src_dir_of pd →
        ∀ p, src_dir_of pd `prefix_of` p → fs w' !! p = fs w !! p.
Proof.
  intros H. apply backup_nvidia_profile_files_spec in H as (_ & H).
  assert (step (dest_dir_of backup_dir) (fs w) (fs w')) as (Hext & Hto & _).
  { destruct (PROGRAMDATA E) as [pd|]; [|destruct H as (_ & -> & _); apply step_refl].
    simpl in H.
    destruct (stat_refused E (src_dir_of pd)); [destruct H as (_ & -> & _); apply step_refl|].
    destruct (exists_ (src_dir_of pd) (fs w)).
    - destruct H as (_ & r0 & Hcp & _). by eapply copytree_step.
    - destruct H as (_ & -> & _). apply step_refl. }
  split_and!; [done | done |].
  intros pd _ Hsd Hds p Hp. destruct (Hto p) as [? | [Hpre | (Hpre & _)]]; [done|..].
  - destruct (prefix_weak_total _ _ _ Hp Hpre); done.
  - destruct Hsd. by etrans.
Qed.

Lemma profile_backup_frame_witness :
  ∃ r w', backup_nvidia_profile_files ex_env ex_backup_dir ex_world = (r, w') ∧
    extends (fs ex_world) (fs w') ∧
    touches_only (dest_dir_of ex_backup_dir) (fs ex_world) (fs w') ∧
    ∀ pd, PROGRAMDATA ex_env = Some pd →
          ¬ src_dir_of pd `prefix_of` dest_dir_of ex_backup_dir →
          ¬ dest_dir_of ex_backup_dir `prefix_of` src_dir_of pd →
          ∀ p, src_dir_of pd `prefix_of` p → fs w' !! p = fs ex_world !! p.
Proof.
  destruct (backup_nvidia_profile_files ex_env ex_backup_dir ex_world) as [r w'] eqn:H.
  exists r, w'. split; [reflexivity|].
  exact (profile_backup_frame ex_env ex_backup_dir ex_world r w' H).
Defined.

(** C10 as stated fails twice.  Given a backup directory that does not
    exist, the copy creates it, a path outside [backup_dir/NVIDIA_Profiles];
    given a backup directory inside the source tree (here the source
    directory itself), the copy adds to the source tree. *)
Lemma profile_backup_touches_more :
  (¬ dest_dir_of ex_backup_dir `prefix_of` ex_backup_dir ∧
   fs ex_world !! ex_backup_dir = None ∧
   fs (backup_nvidia_profile_files ex_env ex_backup_dir ex_world).2 !! ex_backup_dir
     = Some EDir) ∧
  (ex_src `prefix_of` dest_dir_of ex_src ++ ["nvdrsdb0.bin"] ∧
   fs ex_world !! (dest_dir_of ex_src ++ ["nvdrsdb0.bin"]) = None ∧
   fs (backup_nvidia_profile_files ex_env ex_src ex_world).2
     !! (dest_dir_of ex_src ++ ["nvdrsdb0.bin"]) = Some (EFile "profiles")).
Proof.
  split_and!; try (by vm_compute).
  - intros Hpre. apply prefix_length in Hpre. vm_compute in Hpre. lia.
  - unfold dest_dir_of. rewrite <- app_assoc. by apply prefix_app_r.
Qed.

(** ** The name of the backup directory *)

Lemma digit_inj a b :
  (0 ≤ a < 10)%Z → (0 ≤ b < 10)%Z → digit a = digit b → a = b.
Proof.
  intros Ha Hb.
  assert (a = 0 ∨ a = 1 ∨ a = 2 ∨ a = 3 ∨ a = 4 ∨ a = 5 ∨ a = 6 ∨ a = 7 ∨ a = 8 ∨ a = 9)%Z
    as Ha' by lia.
  assert (b = 0 ∨ b = 1 ∨ b = 2 ∨ b = 3 ∨ b = 4 ∨ b = 5 ∨ b = 6 ∨ b = 7 ∨ b = 8 ∨ b = 9)%Z
    as Hb' by lia.
  destruct_or!; subst; simpl; intros; done.
Qed.

Lemma pad2_inj a b r r' :
  (0 ≤ a < 100)%Z → (0 ≤ b < 100)%Z → pad2 a r = pad2 b r' → a = b ∧ r = r'.
Proof.
  intros Ha Hb. unfold pad2. intros [= H1 H2 ->]. split; [|done].
  apply digit_inj in H1; [|Z.div_mod_to_equations; lia..].
  apply digit_inj in H2; [|Z.div_mod_to_equations; lia..].
  Z.div_mod_to_equations; lia.
Qed.

Lemma pad4_inj a b r r' :
  (0 ≤ a < 10000)%Z → (0 ≤ b < 10000)%Z → pad4 a r = pad4 b r' → a = b ∧ r = r'.
Proof.
  intros Ha Hb. unfold pad4. intros H.
  apply pad2_inj in H as [H1 H]; [|Z.div_mod_to_equations; lia..].
  apply pad2_inj in H as [H2 ->]; [|Z.div_mod_to_equations; lia..].
  split; [Z.div_mod_to_equations; lia|done].
Qed.

Lemma strftime_stamp_inj t1 t2 :
  valid_datetime t1 → valid_datetime t2 →
  strftime_stamp t1 = strftime_stamp t2 → same_second t1 t2.
Proof.
  intros (? & ? & ? & ? & ? & ? & _) (? & ? & ? & ? & ? & ? & _). unfold strftime_stamp.
  intros Heq.
  apply pad4_inj in Heq as [? Ea]; [|lia..]. apply pad2_inj in Ea as [? Eb]; [|lia..].
  apply pad2_inj in Eb as [? Ec]; [|lia..].
  assert (pad2 (hour t1) (pad2 (minute t1) (pad2 (second t1) ""))
          = pad2 (hour t2) (pad2 (minute t2) (pad2 (second t2) ""))) as Ed
    by exact (f_equal (λ s, match s with String _ r => r | _ => s end) Ec).
  apply pad2_inj in Ed as [? Ee]; [|lia..]. apply pad2_inj in Ee as [? Ef]; [|lia..].
  apply pad2_inj in Ef as [? _]; [|lia..]. by split_and!.
Qed.

Lemma same_second_stamp t1 t2 : same_second t1 t2 → strftime_stamp t1 = strftime_stamp t2.
Proof.
  intros (Hy & Hm & Hd & Hh & Hmi & Hs). unfold strftime_stamp.
  by rewrite Hy, Hm, Hd, Hh, Hmi, Hs.
Qed.

Lemma same_second_microseconds t1 t2 :
  same_second t1 t2 →
  (to_microseconds t1 - to_microseconds t2 = microsecond t1 - microsecond t2)%Z.
Proof.
  intros (Hy & Hm & Hd & Hh & Hmi & Hs). unfold to_microseconds, toordinal.
  rewrite Hy, Hm, Hd, Hh, Hmi, Hs. lia.
Qed.

Lemma append_inv_head (p a b : string) : p +:+ a = p +:+ b → a = b.
Proof.
  induction p as [|c p IH]; [done|].
  change (String c (p +:+ a) = String c (p +:+ b) → a = b). intros [= H]. auto.
Qed.

Lemma backup_dir_name_inj t1 t2 :
  backup_dir_name t1 = backup_dir_name t2 → strftime_stamp t1 = strftime_stamp t2.
Proof. apply append_inv_head. Qed.

Lemma create_backup_directory_returns E w p w' :
  create_backup_directory E w = (Ok p, w') →
  ∃ home, home_dir E = Some home ∧ p = backup_dir_of E w home ∧
          Path_mkdir (denied E) p (fs w) = (Ok (), fs w').
Proof.
  intros H. apply create_backup_directory_spec in H as (_ & H).
  destruct (home_dir E) as [home|]; [|by destruct H].
  simpl in H. destruct H as (_ & r0 & Hmk & Hr). destruct r0 as [[]|]; [|done].
  exists home. by simplify_eq.
Qed.

Lemma create_backup_directory_can E w home :
  home_dir E = Some home → can_make_backup_dir E w home →
  ∃ w', create_backup_directory E w = (Ok (backup_dir_of E w home), w').
Proof.
  intros Hhome (Hpar & Hnf & Hd).
  destruct (create_backup_directory E w) as [r w'] eqn:H. exists w'.
  apply create_backup_directory_spec in H as (_ & H). rewrite Hhome in H.
  cbv zeta in H. destruct H as (_ & r0 & Hmk & ->).
  fold (backup_dir_of E w home) in Hmk |- *.
  destruct (Path_mkdir_can (denied E) _ (fs w) Hpar Hnf Hd) as [f' Hok].
  rewrite Hok in Hmk. by simplify_eq.
Qed.

(** C5, as the code has it: two runs of [create_backup_directory] whose
    readings of the wall clock (the local datetimes that [datetime.now()]
    returns) are at least one second apart, each on a machine where the
    backup directory can be made, both return, and the directories they
    return are named differently. *)
Theorem backup_dir_names_distinct E1 E2 w1 w2 home1 home2 :
  let t1 := clock E1 (clock_reads w1) in
  let t2 := clock E2 (clock_reads w2) in
  valid_datetime t1 → valid_datetime t2 →
  (1000000 ≤ Z.abs (to_microseconds t1 - to_microseconds t2))%Z →
  home_dir E1 = Some home1 → home_dir E2 = Some home2 →
  can_make_backup_dir E1 w1 home1 → can_make_backup_dir E2 w2 home2 →
  ∃ w1' w2',
    create_backup_directory E1 w1 = (Ok (home1 ++ [backup_dir_name t1]), w1') ∧
    create_backup_directory E2 w2 = (Ok (home2 ++ [backup_dir_name t2]), w2') ∧
    backup_dir_name t1 ≠ backup_dir_name t2 ∧
    home1 ++ [backup_dir_name t1] ≠ home2 ++ [backup_dir_name t2].
Proof.
  intros t1 t2 Hv1 Hv2 Hfar Hh1 Hh2 Hc1 Hc2.
  assert (backup_dir_name t1 ≠ backup_dir_name t2) as Hne.
  { intros Heq%backup_dir_name_inj%strftime_stamp_inj; [|done..].
    apply same_second_microseconds in Heq.
    destruct Hv1 as (_ & _ & _ & _ & _ & _ & ?), Hv2 as (_ & _ & _ & _ & _ & _ & ?). lia. }
  destruct (create_backup_directory_can E1 w1 home1 Hh1 Hc1) as [w1' H1].
  destruct (create_backup_directory_can E2 w2 home2 Hh2 Hc2) as [w2' H2].
  exists w1', w2'. split_and!; [done | done | done |].
  intros Heq. by apply app_inj_tail in Heq as [_ Heq].
Qed.

Lemma backup_dir_names_distinct_witness :
  valid_datetime (clock ex_env (clock_reads ex_world)) ∧
  valid_datetime (clock ex_env_later (clock_reads ex_world)) ∧
  (1000000 ≤ Z.abs (to_microseconds (clock ex_env (clock_reads ex_world))
                    - to_microseconds (clock ex_env_later (clock_reads ex_world))))%Z ∧
  home_dir ex_env = Some ex_home ∧ home_dir ex_env_later = Some ex_home ∧
  can_make_backup_dir ex_env ex_world ex_home ∧
  can_make_backup_dir ex_env_later ex_world ex_home ∧
  ∃ w1' w2',
    create_backup_directory ex_env ex_world
      = (Ok (ex_home ++ [backup_dir_name ex_now]), w1') ∧
    create_backup_directory ex_env_later ex_world
      = (Ok (ex_home ++ [backup_dir_name ex_later]), w2') ∧
    backup_dir_name ex_now ≠ backup_dir_name ex_later ∧
    ex_home ++ [backup_dir_name ex_now] ≠ ex_home ++ [backup_dir_name ex_later].
Proof.
  assert (valid_datetime (clock ex_env (clock_reads ex_world))) as H1
    by (unfold valid_datetime; simpl; lia).
  assert (valid_datetime (clock ex_env_later (clock_reads ex_world))) as H2
    by (unfold valid_datetime; simpl; lia).
  assert (1000000 ≤ Z.abs (to_microseconds (clock ex_env (clock_reads ex_world))
                           - to_microseconds (clock ex_env_later (clock_reads ex_world))))%Z
    as H3 by (vm_compute; intros ?; discriminate).
  assert (home_dir ex_env = Some ex_home) as H4 by reflexivity.
  assert (home_dir ex_env_later = Some ex_home) as H5 by reflexivity.
  assert (can_make_backup_dir ex_env ex_world ex_home) as H6
    by (unfold can_make_backup_dir; split_and!;
        [by vm_compute | intros d; by vm_compute | by vm_compute]).
  assert (can_make_backup_dir ex_env_later ex_world ex_home) as H7
    by (unfold can_make_backup_dir; split_and!;
        [by vm_compute | intros d; by vm_compute | by vm_compute]).
  split_and!; [exact H1 | exact H2 | exact H3 | exact H4 | exact H5 | exact H6 | exact H7 |].
  exact (backup_dir_names_distinct ex_env ex_env_later ex_world ex_world ex_home ex_home
           H1 H2 H3 H4 H5 H6 H7).
Defined.

(** C5 as stated fails: the name comes from the wall clock, not from the
    time that has passed.  In the night in which summer time ends the wall
    clock shows 02:30:00 twice, at two instants 3600 seconds apart (two
    hours ahead of UTC at the first, one hour at the second); a run at
    each of them, the second on the disk that the first has left, returns
    the same directory. *)
Lemma same_name_an_hour_apart :
  let i1 := (to_microseconds ex_fold - 7200 * 1000000)%Z in
  let i2 := (to_microseconds ex_fold - 3600 * 1000000)%Z in
  (i2 - i1 = 3600 * 1000000)%Z ∧
  reads_at 7200 i1 ex_fold ∧ reads_at 3600 i2 ex_fold ∧
  let first := create_backup_directory ex_env_fold ex_world in
  let second := create_backup_directory ex_env_fold first.2 in
  first.1 = Ok (ex_home ++ ["NVIDIA_Settings_Backup_20241027_023000"]) ∧
  second.1 = Ok (ex_home ++ ["NVIDIA_Settings_Backup_20241027_023000"]).
Proof.
  cbv zeta. split_and!; by vm_compute.
Qed.

(** C9: [create_backup_directory] does not raise when its target is already
    a directory, and changes nothing then; so a run that starts within the
    second of a run that succeeded, in the file system that run left and
    with the same home directory, succeeds too and returns the same path. *)
Theorem create_backup_directory_exist_ok E w home :
  home_dir E = Some home →
  let target := backup_dir_of E w home in
  (fs w !! target = Some EDir →
   ∃ w', create_backup_directory E w = (Ok target, w') ∧ fs w' = fs w) ∧
  (∀ E0 w0 p0 w0',
     home_dir E0 = Some home →
     same_second (clock E0 (clock_reads w0)) (clock E (clock_reads w)) →
     create_backup_directory E0 w0 = (Ok p0, w0') →
     fs w = fs w0' →
     p0 = target ∧
     ∃ w', create_backup_directory E w = (Ok target, w') ∧ fs w' = fs w).
Proof.
  intros Hhome target.
  assert (fs w !! target = Some EDir →
          ∃ w', create_backup_directory E w = (Ok target, w') ∧ fs w' = fs w) as Hfirst.
  { intros Hdir. destruct (create_backup_directory E w) as [r w'] eqn:H.
    apply create_backup_directory_spec in H as (_ & H). rewrite Hhome in H. simpl in H.
    destruct H as (_ & r0 & Hmk & ->). fold (backup_dir_of E w home) in Hmk.
    rewrite (Path_mkdir_exists _ _ _ Hdir) in Hmk. simplify_eq. by exists w'. }
  split; [done|].
  intros E0 w0 p0 w0' Hhome0 Hsame H0 Hfs.
  apply create_backup_directory_returns in H0 as (h0 & Hh0 & -> & Hmk).
  rewrite Hhome0 in Hh0. simplify_eq.
  assert (backup_dir_of E0 w0 h0 = target) as Heq.
  { unfold target, backup_dir_of, backup_dir_name. by rewrite (same_second_stamp _ _ Hsame). }
  split; [done|]. apply Hfirst. rewrite Hfs, <- Heq. by eapply Path_mkdir_rec_ok.
Qed.

Lemma create_backup_directory_exist_ok_witness :
  home_dir ex_env_twice = Some ex_home ∧
  let w := (create_backup_directory ex_env_twice ex_world).2 in
  let target := backup_dir_of ex_env_twice w ex_home in
  (fs w !! target = Some EDir →
   ∃ w', create_backup_directory ex_env_twice w = (Ok target, w') ∧ fs w' = fs w) ∧
  (∀ E0 w0 p0 w0',
     home_dir E0 = Some ex_home →
     same_second (clock E0 (clock_reads w0)) (clock ex_env_twice (clock_reads w)) →
     create_backup_directory E0 w0 = (Ok p0, w0') →
     fs w = fs w0' →
     p0 = target ∧
     ∃ w', create_backup_directory ex_env_twice w = (Ok target, w') ∧ fs w' = fs w).
Proof.
  assert (home_dir ex_env_twice = Some ex_home) as H1 by reflexivity.
  split; [exact H1|].
  exact (create_backup_directory_exist_ok ex_env_twice _ ex_home H1).
Defined.

(** Two runs within one second, on the machine of the examples: both return
    the same directory. *)
Example two_runs_in_one_second :
  (create_backup_directory ex_env_twice ex_world).1 = Ok ex_backup_dir ∧
  (create_backup_directory ex_env_twice
     (create_backup_directory ex_env_twice ex_world).2).1 = Ok ex_backup_dir.
Proof. by vm_compute. Qed.

(** ** The document that make_json.py writes *)











(** The document for the machine of the examples. *)
Example config_json_example :
  fs (make_json ex_env ex_world).2 !! config_file =
    Some (EFile ("{" +:+ nl +:+ "    " +:+ String dquote "src_dir" +:+ String dquote ": "
                 +:+ String dquote "C:\\ProgramData\\NVIDIA Corporation\\Drs"
                 +:+ String dquote nl +:+ "}")).
Proof. by vm_compute. Qed.

(** * Further properties *)

(** ** The copy of the profile directory into a new directory *)

Lemma not_nested_app (a b q r : path) :
  ¬ a `prefix_of` b → ¬ b `prefix_of` a → ¬ a ++ q `prefix_of` b ++ r.
Proof.
  intros Hab Hba Hpre.
  destruct (prefix_weak_total a b (b ++ r)); [|by apply prefix_app_r|done..].
  etrans; [|done]. by apply prefix_app_r.
Qed.

Section copytree_mirror.
Variables (denied : path → bool) (src0 dst0 : path) (fs0 : filesystem).
Hypothesis Hsrc0 : src0 ≠ [].
Hypothesis Hsd : ¬ src0 `prefix_of` dst0.
Hypothesis Hds : ¬ dst0 `prefix_of` src0.

Lemma mirror_inv_init :
  wf fs0 → (∀ q, fs0 !! (dst0 ++ q) = None) → mirror_inv src0 dst0 fs0 fs0.
Proof. intros Hwf Hnew. split_and!; [done | done |]. intros q. left. apply Hnew. Qed.

Lemma mirror_inv_makedirs r fs fs' :
  mirror_inv src0 dst0 fs0 fs → fs !! (src0 ++ r) = Some EDir →
  makedirs denied (dst0 ++ r) fs = (Ok (), fs') → mirror_inv src0 dst0 fs0 fs'.
Proof.
  intros (Hwf & Hsrc & Hdst) Hr Hmk.
  destruct (makedirs_step _ _ _ _ _ Hmk) as (_ & _ & Hwf').
  pose proof (makedirs_rec_creates _ _ _ _ _ _ Hmk) as Hcr.
  split_and!; [auto | |].
  - intros q. destruct (Hcr (src0 ++ q)) as [-> | (Hpre & _)]; [done|].
    by apply not_nested_app in Hpre.
  - intros q. destruct (Hcr (dst0 ++ q)) as [-> | (Hpre & _ & ->)]; [done|].
    right. apply prefix_app_inv in Hpre as [k ->]. rewrite <- Hsrc. symmetry.
    destruct k as [|n k]; [by rewrite app_nil_r in Hr|].
    apply (wf_ancestor fs (src0 ++ q) (n :: k)); [done | by destruct src0 | done |].
    by rewrite <- app_assoc, Hr.
Qed.

Lemma mirror_inv_copy2 q fs fs' :
  mirror_inv src0 dst0 fs0 fs →
  copy2 denied (src0 ++ q) (dst0 ++ q) fs = (Ok (), fs') →
  mirror_inv src0 dst0 fs0 fs' ∧ fs' !! (dst0 ++ q) = fs0 !! (src0 ++ q).
Proof.
  intros (Hwf & Hsrc & Hdst) Hcp.
  destruct (copy2_step _ (dst0 ++ q) _ _ _ _ _ Hcp) as (_ & _ & Hwf'); [done|].
  apply copy2_ok in Hcp as (d & Hd & ->).
  assert (is_dir (dst0 ++ q) fs = false) as Hnd.
  { unfold is_dir. destruct (fs !! (dst0 ++ q)) as [[]|] eqn:Hq; [done| |done].
    destruct (Hdst q) as [? | Heq]; [congruence|].
    rewrite Hq, <- Hsrc, Hd in Heq. done. }
  rewrite Hnd in *.
  rewrite Hsrc in Hd. split; [|by rewrite lookup_insert_eq].
  split_and!; [by apply Hwf' | |].
  - intros q'. rewrite lookup_insert_ne; [done|].
    intros E. apply (not_nested_app src0 dst0 q' q Hsd Hds). by rewrite E.
  - intros q'. destruct (decide (q' = q)) as [-> | Hne].
    + right. by rewrite lookup_insert_eq.
    + rewrite lookup_insert_ne; [done|]. by intros ?%app_inv_head.
Qed.

Lemma mirrored_later r x fs fs' :
  extends fs fs' → mirror_inv src0 dst0 fs0 fs' →
  mirrored src0 dst0 fs0 r x fs → mirrored src0 dst0 fs0 r x fs'.
Proof.
  intros Hext (_ & _ & Hdst) Hm q e Hq Hx.
  destruct (Hext _ _ (Hm q e Hq Hx)) as (e' & He' & _).
  destruct (Hdst (r ++ x.1 :: q)) as [? | Heq]; [congruence|]. by rewrite Heq.
Qed.

Lemma copytree_mirror_rec limit r fs fs' :
  mirror_inv src0 dst0 fs0 fs →
  copytree denied limit (src0 ++ r) (dst0 ++ r) fs = (Ok (), fs') →
  mirror_inv src0 dst0 fs0 fs' ∧
  ∀ q e, fs0 !! (src0 ++ r ++ q) = Some e → fs' !! (dst0 ++ r ++ q) = Some e.
Proof.
  revert r fs fs'. induction limit as [|n IH]; intros r fs fs' Hinv H; simpl in H; run;
    [done|].
  unfold scandir in H. destruct (fs !! (src0 ++ r)) as [[]|] eqn:Hsrc; try done.
  destruct (makedirs denied (dst0 ++ r) fs) as [[[]|e] fs1] eqn:Hmk; [|done].
  destruct (for_entries _ (children (src0 ++ r) fs) [] fs1) as [[errors|e] fs2] eqn:Hfor;
    [|done].
  destruct errors; [|done]. simplify_eq.
  assert (mirror_inv src0 dst0 fs0 fs1) as Hinv1 by (by eapply mirror_inv_makedirs).
  assert (fs1 !! (dst0 ++ r) = Some EDir) as Hdst1 by (by eapply makedirs_rec_ok).
  assert (∀ entries errors fs1 fs2,
            mirror_inv src0 dst0 fs0 fs1 →
            for_entries (copy_entry denied (copytree denied n) (src0 ++ r) (dst0 ++ r))
              entries errors fs1 = (Ok [], fs2) →
            mirror_inv src0 dst0 fs0 fs2 ∧ extends fs1 fs2 ∧
            ∀ x, x ∈ entries → mirrored src0 dst0 fs0 r x fs2) as Hloop.
  { clear -IH Hsrc0 Hsd Hds. induction entries as [|x entries IHe];
      intros errors fs1 fs2 Hinv1 Hfor; simpl in Hfor; run.
    { simplify_eq. split_and!; [done | apply extends_refl |].
      intros x Hx. by apply elem_of_nil in Hx. }
    destruct (copy_entry _ _ _ _ errors x fs1) as [[errs|e] fs1'] eqn:Hb; [|done].
    assert (errs = []) as -> by (by eapply for_entries_errors).
    assert (extends fs1 fs1') as Hext1.
    { eapply copy_entry_step in Hb; [apply Hb|]. intros. by eapply copytree_step. }
    destruct x as [name isdir]. apply copy_entry_ok in Hb as [-> Hb].
    assert (mirror_inv src0 dst0 fs0 fs1' ∧ mirrored src0 dst0 fs0 r (name, isdir) fs1')
      as [Hinv1' Hc].
    { destruct isdir.
      - rewrite <- !(app_assoc _ r [name]) in Hb.
        destruct (IH _ _ _ Hinv1 Hb) as [? Hall]. split; [done|].
        intros q e Hq _. simpl in *.
        specialize (Hall q e). rewrite <- !app_assoc in Hall. by apply Hall.
      - rewrite <- !(app_assoc _ r [name]) in Hb.
        destruct (mirror_inv_copy2 _ _ _ Hinv1 Hb) as [Hinv1' Hfile]. split; [done|].
        intros q e Hq Hx. simpl in *. symmetry in Hx. apply bool_decide_eq_false in Hx.
        destruct q as [|m q]; [by rewrite Hfile|].
        destruct Hx. destruct Hinv1 as (Hwf1 & Hsrc1 & _).
        rewrite <- Hsrc1. rewrite app_assoc.
        apply (wf_ancestor fs1 _ (m :: q)); [done | by destruct src0 | done |].
        rewrite <- !app_assoc. simpl. by rewrite Hsrc1, Hq. }
    destruct (IHe _ _ _ Hinv1' Hfor) as (Hinv2 & Hext2 & Hrest).
    split_and!; [done | by eapply extends_trans |].
    intros x Hx. apply elem_of_cons in Hx as [-> | Hx]; [|by apply Hrest].
    by eapply mirrored_later. }
  destruct (Hloop _ _ _ _ Hinv1 Hfor) as (Hinv2 & Hext2 & Hmirrored). split; [done|].
  intros q e Hq. destruct q as [|name q].
  { rewrite app_nil_r in *. destruct Hinv as (_ & Hsrc' & _).
    rewrite <- Hsrc', Hsrc in Hq. simplify_eq. by eapply extends_dir. }
  destruct Hinv as (Hwf & Hsrc' & _).
  assert (∃ e', fs !! ((src0 ++ r) ++ [name]) = Some e' ∧
                fs0 !! (src0 ++ r ++ [name]) = Some e') as (e' & He' & He0).
  { rewrite <- app_assoc, Hsrc'. destruct q as [|m q]; [by eauto|].
    exists EDir. split; rewrite <- Hsrc', (app_assoc src0 r [name]);
      (apply (wf_ancestor fs _ (m :: q)); [done | by destruct src0 | done |]);
      rewrite <- !app_assoc; simpl; by rewrite Hsrc', Hq. }
  apply children_spec in He'; [|by destruct src0].
  apply (Hmirrored _ He' q e); [done|]. simpl. rewrite He0.
  destruct e'; [by rewrite !bool_decide_eq_false_2 | by rewrite !bool_decide_eq_true_2].
Qed.

(** After a successful copy into a destination that held nothing, the
    destination holds exactly what the source holds, and the source is as
    it was. *)
Lemma copytree_mirror limit fs' :
  wf fs0 → (∀ q, fs0 !! (dst0 ++ q) = None) →
  copytree denied limit src0 dst0 fs0 = (Ok (), fs') →
  ∀ q, fs' !! (dst0 ++ q) = fs0 !! (src0 ++ q) ∧ fs' !! (src0 ++ q) = fs0 !! (src0 ++ q).
Proof.
  intros Hwf Hnew H q.
  pose proof (copytree_mirror_rec limit [] fs0 fs' (mirror_inv_init Hwf Hnew)) as Hrec.
  rewrite !app_nil_r in Hrec. destruct (Hrec H) as [(_ & Hsrc & Hdst) Hall].
  split; [|done]. destruct (fs0 !! (src0 ++ q)) as [e|] eqn:Hq; [by apply Hall|].
  destruct (Hdst q) as [? | Heq]; [done | by rewrite Heq].
Qed.
End copytree_mirror.

(** X1: when [backup_nvidia_profile_files] returns [True] for a destination
    [backup_dir/NVIDIA_Profiles] that held nothing and does not lie inside
    the profile directory, the destination is an exact copy: at every
    relative path it holds what the profile directory held at that path
    when the function was called (the same content for a file, a directory
    for a directory, nothing for nothing), and the profile directory is as
    it was. *)
Theorem profile_backup_exact E backup_dir w w' pd :
  PROGRAMDATA E = Some pd →
  wf (fs w) →
  (∀ q, fs w !! (dest_dir_of backup_dir ++ q) = None) →
  ¬ src_dir_of pd `prefix_of` dest_dir_of backup_dir →
  backup_nvidia_profile_files E backup_dir w = (Ok true, w') →
  ∀ q, fs w' !! (dest_dir_of backup_dir ++ q) = fs w !! (src_dir_of pd ++ q) ∧
       fs w' !! (src_dir_of pd ++ q) = fs w !! (src_dir_of pd ++ q).
Proof.
  intros Hpd Hwf Hnew Hsd H.
  apply backup_nvidia_profile_files_spec in H as (_ & H).
  rewrite Hpd in H. simpl in H.
  destruct (stat_refused E (src_dir_of pd)); [by destruct H|].
  destruct (exists_ (src_dir_of pd) (fs w)) eqn:Hex; [|by destruct H].
  destruct H as (_ & r0 & Hcp & Hr). destruct r0 as [[]|]; [|done].
  eapply copytree_mirror; [| done | | done | done | done].
  - unfold src_dir_of. by destruct pd.
  - intros [k Hk]. unfold exists_ in Hex. by rewrite Hk, Hnew in Hex.
Qed.

Lemma profile_backup_exact_witness :
  ∃ w', PROGRAMDATA ex_env = Some ex_programdata ∧
    wf (fs ex_world) ∧
    (∀ q, fs ex_world !! (dest_dir_of ex_backup_dir ++ q) = None) ∧
    ¬ src_dir_of ex_programdata `prefix_of` dest_dir_of ex_backup_dir ∧
    backup_nvidia_profile_files ex_env ex_backup_dir ex_world = (Ok true, w') ∧
    ∀ q, fs w' !! (dest_dir_of ex_backup_dir ++ q)
           = fs ex_world !! (src_dir_of ex_programdata ++ q) ∧
         fs w' !! (src_dir_of ex_programdata ++ q)
           = fs ex_world !! (src_dir_of ex_programdata ++ q).
Proof.
  assert (PROGRAMDATA ex_env = Some ex_programdata) as H1 by reflexivity.
  assert (wf (fs ex_world)) as H2 by (apply wf_check_ok; vm_compute; reflexivity).
  assert (∀ q, fs ex_world !! (dest_dir_of ex_backup_dir ++ q) = None) as H3
    by (apply nothing_under_ok; vm_compute; reflexivity).
  assert (¬ src_dir_of ex_programdata `prefix_of` dest_dir_of ex_backup_dir) as H4
    by (intros [k Hk]; discriminate Hk).
  assert ((backup_nvidia_profile_files ex_env ex_backup_dir ex_world).1 = Ok true) as H5
    by (vm_compute; reflexivity).
  destruct (backup_nvidia_profile_files ex_env ex_backup_dir ex_world) as [r w'] eqn:H.
  simpl in H5. subst r. exists w'.
  split_and!; [exact H1 | exact H2 | exact H3 | exact H4 | reflexivity |].
  exact (profile_backup_exact ex_env ex_backup_dir ex_world w' ex_programdata H1 H2 H3 H4 H).
Defined.

(** ** What a run leaves alone *)

Lemma open_a_frame (denied : path → bool) (p : path) f r f' :
  open_a denied p f = (r, f') →
  (wf f → wf f') ∧ ∀ q, q ≠ p → f' !! q = f !! q.
Proof.
  unfold open_a. intros H.
  destruct (f !! p) as [[]|] eqn:Hp; [by destruct (denied p); simplify_eq | by simplify_eq |].
  destruct (f !! parent p) as [[]|] eqn:Hpar; try by simplify_eq.
  destruct (denied p); simplify_eq; [done|]. split.
  - apply wf_insert; [done|]. right. congruence.
  - intros q Hq. by rewrite lookup_insert_ne.
Qed.

Lemma open_a_raise (denied : path → bool) (p : path) f e f' :
  open_a denied p f = (Raise e, f') → f' = f ∧ is_OSError e = true.
Proof.
  unfold open_a. intros H.
  destruct (f !! p) as [[]|]; [by destruct (denied p); simplify_eq | by simplify_eq |].
  destruct (f !! parent p) as [[]|]; try by simplify_eq.
  by destruct (denied p); simplify_eq.
Qed.

Lemma open_a_ok (denied : path → bool) (p : path) f f' :
  open_a denied p f = (Ok (), f') → denied p = false.
Proof.
  unfold open_a. intros H.
  destruct (f !! p) as [[]|]; [by destruct (denied p) | done |].
  destruct (f !! parent p) as [[]|]; try done. by destruct (denied p).
Qed.

Lemma open_w_can_inv (denied : path → bool) (f : filesystem) (p : path) f' :
  open_w denied p f = (Ok (), f') → can_write denied f p.
Proof.
  unfold open_w, can_write. intros H.
  destruct (f !! p) as [[]|]; try done;
    (destruct (f !! parent p) as [[]|]; try done); by destruct (denied p).
Qed.

Lemma open_w_raise (denied : path → bool) (p : path) f e f' :
  open_w denied p f = (Raise e, f') → f' = f.
Proof.
  unfold open_w. intros H.
  destruct (f !! p) as [[]|]; try (by simplify_eq);
    (destruct (f !! parent p) as [[]|]; try (by simplify_eq));
    by destruct (denied p); simplify_eq.
Qed.

Lemma Path_mkdir_leaf_wf denied p f r f' :
  Path_mkdir_leaf denied p f = (r, f') → wf f → wf f'.
Proof.
  unfold Path_mkdir_leaf. run. intros H.
  destruct (os_mkdir denied p f) as [[[]|e] f1] eqn:Hmk.
  - simplify_eq. by eapply (os_mkdir_step denied p); [|left].
  - assert (f' = f1) as ->.
    { destruct e; simplify_eq; try done; by eapply unless_is_dir_state. }
    by eapply (os_mkdir_step denied p); [|left].
Qed.

Lemma Path_mkdir_rec_wf denied n p f r f' :
  Path_mkdir_rec denied n p f = (r, f') → wf f → wf f'.
Proof.
  revert p f r f'. induction n as [|n IH]; intros p f r f' H Hwf; simpl in H; run.
  - destruct (os_mkdir denied p f) as [[[]|e] f1] eqn:Hmk.
    + simplify_eq. by eapply (os_mkdir_step denied p); [|left|].
    + assert (f' = f1) as ->.
      { destruct e; simplify_eq; try done; by eapply unless_is_dir_state. }
      by eapply (os_mkdir_step denied p); [|left|].
  - destruct (os_mkdir denied p f) as [[[]|e] f1] eqn:Hmk.
    + simplify_eq. by eapply (os_mkdir_step denied p); [|left|].
    + assert (wf f1) as Hwf1 by (by eapply (os_mkdir_step denied p); [|left|]).
      destruct e; try (by apply unless_is_dir_state in H as ->).
      destruct (decide (parent p = p)); [by simplify_eq|].
      destruct (Path_mkdir_rec denied n (parent p) f1) as [[[]|e] f2] eqn:Hrec.
      * eapply Path_mkdir_leaf_wf; [done|]. by eapply IH.
      * simplify_eq. by eapply IH.
Qed.

Lemma Path_mkdir_on_file (denied : path → bool) (p : path) (f : filesystem) (d : string) :
  f !! p = Some (EFile d) → Path_mkdir denied p f = (Raise FileExistsError, f).
Proof.
  intros Hp. unfold Path_mkdir.
  destruct (length p); simpl; run; unfold os_mkdir; rewrite Hp; simpl;
    unfold unless_is_dir, is_dir; by rewrite Hp.
Qed.

Lemma creates_dirs_touches p f f' : creates_dirs p f f' → touches_only p f f'.
Proof. intros H q. destruct (H q) as [? | ?]; [by left | by right; right]. Qed.

Lemma touches_only_insert (dst p : path) (e : entry) (f : filesystem) :
  dst `prefix_of` p → touches_only dst f (<[p := e]> f).
Proof.
  intros Hpre q. destruct (decide (q = p)) as [-> | ?]; [by right; left|].
  left. by rewrite lookup_insert_ne.
Qed.

Lemma set_fs_same w : set_fs (fs w) w = w.
Proof. by destruct w. Qed.

(** The file system through a run of [main], whatever its outcome: opening
    the log file changes that path at most, and from then on the changes
    lie in the backup directory or create the missing directories that
    lead to it. *)
Lemma main_changes E w r w' :
  main E w = (r, w') →
  ∃ f1, (wf (fs w) → wf f1) ∧ (∀ q, q ≠ log_file → f1 !! q = fs w !! q) ∧
  match home_dir E with
  | None => fs w' = f1
  | Some home => touches_only (backup_dir_of E w home) f1 (fs w')
  end.
Proof.
  unfold main. intros H.
  assert (∀ x : world, fs w' = fs x →
            match home_dir E with
            | None => fs w' = fs x
            | Some home => touches_only (backup_dir_of E w home) (fs x) (fs w')
            end) as Hsame.
  { intros x Hx. rewrite Hx. destruct (home_dir E); [apply touches_only_refl | done]. }
  (* setup_logging *)
  apply bind_inv in H as (r1 & w1 & H1 & H).
  apply setup_logging_spec in H1 as (Hopen & Hclk1 & Htr1).
  apply open_a_frame in Hopen as [Hwf1 Hopen].
  exists (fs w1). split; [done|]. split; [done|].
  destruct r1 as [[]|e]; [|destruct H as [_ ->]; by apply Hsame].
  apply bind_inv in H as (rl & wl & Hl & H).
  unfold logging_info in Hl. apply logging_log_inv in Hl as (-> & Hfsl & Hclkl & Hstl).
  (* get_nvidia_driver_info *)
  apply bind_inv in H as (rd & wd & Hd & H).
  apply get_nvidia_driver_info_spec in Hd as (Hfsd & Hclkd & Hstd & ->).
  destruct (driver_query E) as [driver_version|e];
    [|destruct H as [_ ->]; apply Hsame; congruence].
  (* create_backup_directory *)
  apply bind_inv in H as (rb & wb & Hb & H).
  apply create_backup_directory_spec in Hb as (Hclkb & Hb).
  destruct (home_dir E) as [home|].
  2: { destruct Hb as (-> & Hfsb & _). destruct H as [_ ->]. congruence. }
  rewrite Hclkd, Hclkl, Hclk1 in Hb, Hclkb. rewrite Hfsd, Hfsl in Hb.
  simpl in Hb. destruct Hb as (Hstb & r2 & Hmk & ->).
  fold (backup_dir_of E w home) in *.
  set (backup_dir := backup_dir_of E w home) in *.
  assert (touches_only backup_dir (fs w1) (fs wb)) as Hb.
  { by eapply creates_dirs_touches, Path_mkdir_rec_creates. }
  destruct r2 as [[]|e]; [|by destruct H as [_ ->]].
  (* backup_nvidia_profile_files *)
  apply bind_inv in H as (rp & wp & Hp & H).
  apply backup_nvidia_profile_files_spec in Hp as (Hclkp & Hp).
  assert (touches_only backup_dir (fs w1) (fs wp)) as Hp'.
  { eapply touches_only_trans; [done|].
    destruct (PROGRAMDATA E) as [pd|]; [|destruct Hp as (_ & -> & _); apply touches_only_refl].
    simpl in Hp.
    destruct (stat_refused E (src_dir_of pd));
      [destruct Hp as (_ & -> & _); apply touches_only_refl|].
    destruct (exists_ (src_dir_of pd) (fs wb)).
    - destruct Hp as (_ & r0 & Hcp & _). apply copytree_step in Hcp as (_ & Hcp & _).
      by eapply touches_only_snoc.
    - destruct Hp as (_ & -> & _). apply touches_only_refl. }
  destruct rp as [profile_ok|e]; [|by destruct H as [_ ->]].
  (* backup_nvidia_registry_settings *)
  apply bind_inv in H as (rr & wr & Hr & H).
  apply backup_nvidia_registry_settings_spec in Hr as (Hclkr & Hstr & Hr).
  assert (touches_only backup_dir (fs w1) (fs wr)) as Hr'.
  { eapply touches_only_trans; [done|].
    destruct (reg_export E) as [|rc out]; [destruct Hr as (_ & ->); apply touches_only_refl|].
    destruct (decide (rc = 0%Z)); destruct Hr as (_ & ->); [|apply touches_only_refl].
    apply touches_only_insert. by apply prefix_app_r. }
  destruct rr as [registry_ok|e]; [|by destruct H as [_ ->]].
  (* the summary *)
  apply bind_inv in H as (rs & ws & Hs & H).
  assert (rs = Ok () ∧ fs ws = fs wr) as (-> & Hfss).
  { destruct (profile_ok && registry_ok).
    - apply bind_inv in Hs as (? & wa & Ha & Hs).
      unfold logging_info in Ha. apply logging_log_inv in Ha as (-> & Hfsa & _).
      apply bind_inv in Hs as (? & wc & Hc & Hs).
      apply emit_inv in Hc as (-> & Hfsc & _).
      apply emit_inv in Hs as (-> & Hfse & _). split; congruence.
    - apply bind_inv in Hs as (? & wa & Ha & Hs).
      unfold logging_warning in Ha. apply logging_log_inv in Ha as (-> & Hfsa & _).
      apply emit_inv in Hs as (-> & Hfse & _). split; congruence. }
  (* driver_info.txt *)
  assert (backup_dir `prefix_of` driver_info_of backup_dir) as Hpre
    by (by apply prefix_app_r).
  apply bind_inv in H as (rw & ww & Hw & H).
  assert (touches_only backup_dir (fs w1) (fs ww)) as Hw'.
  { apply bind_inv in Hw as (? & wo & Ho & Hw).
    apply emit_inv in Ho as (-> & Hfso & _).
    apply bind_inv in Hw as (r5 & w5 & H5 & Hw).
    apply lift_fs_inv in H5 as (H5 & _). rewrite Hfso, Hfss in H5.
    apply (open_w_step _ backup_dir) in H5 as (_ & H5 & _); [|done].
    assert (touches_only backup_dir (fs w1) (fs w5)) as T5 by (by eapply touches_only_trans).
    destruct r5 as [[]|e]; [|by destruct Hw as [_ ->]].
    apply bind_inv in Hw as (r6 & w6 & H6 & Hw).
    apply lift_fs_inv in H6 as (H6 & _).
    apply (f_write_step backup_dir) in H6 as (_ & H6 & _); [|done].
    assert (touches_only backup_dir (fs w1) (fs w6)) as T6 by (by eapply touches_only_trans).
    destruct r6 as [[]|e]; [|by destruct Hw as [_ ->]].
    apply bind_inv in Hw as (rn & wn & Hn & Hw).
    unfold datetime_now in Hn. simplify_eq. simpl in Hw.
    apply bind_inv in Hw as (r7 & w7 & H7 & Hw).
    apply lift_fs_inv in H7 as (H7 & _). simpl in H7.
    apply (f_write_step backup_dir) in H7 as (_ & H7 & _); [|done].
    assert (touches_only backup_dir (fs w1) (fs w7)) as T7 by (by eapply touches_only_trans).
    destruct r7 as [[]|e]; [|by destruct Hw as [_ ->]].
    apply bind_inv in Hw as (r8 & w8 & H8 & Hw).
    apply lift_fs_inv in H8 as (H8 & _).
    apply (f_write_step backup_dir) in H8 as (_ & H8 & _); [|done].
    assert (touches_only backup_dir (fs w1) (fs w8)) as T8 by (by eapply touches_only_trans).
    destruct r8 as [[]|e]; [|by destruct Hw as [_ ->]].
    apply lift_fs_inv in Hw as (H9 & _).
    apply (f_write_step backup_dir) in H9 as (_ & H9 & _); [|done].
    by eapply touches_only_trans. }
  destruct rw as [[]|e]; [|by destruct H as [_ ->]].
  (* the last prints *)
  apply bind_inv in H as (? & wa & Ha & H). apply emit_inv in Ha as (-> & Hfsa & _).
  apply bind_inv in H as (? & wc & Hc & H). apply emit_inv in Hc as (-> & Hfsc & _).
  apply bind_inv in H as (? & wd' & Hd' & H). apply emit_inv in Hd' as (-> & Hfsd' & _).
  apply emit_inv in H as (-> & Hfse & _).
  by rewrite Hfse, Hfsd', Hfsc, Hfsa.
Qed.

(** X2: whatever the outcome of [main], also when it stops with an
    exception, a path whose entry differs after the run is the log file,
    lies in the backup directory of the run, or is a directory that was
    missing on the way to the backup directory and has been created.
    Nothing else on the disk is changed or removed.  (Of the two tools,
    [nvidia-smi] is taken to write nothing and [reg] to write its export
    file only.) *)
Theorem main_frame E w r w' :
  main E w = (r, w') →
  ∀ p, fs w' !! p = fs w !! p ∨ p = log_file ∨
       ∃ home, home_dir E = Some home ∧
         (backup_dir_of E w home `prefix_of` p ∨
          (p `prefix_of` backup_dir_of E w home ∧
           fs w !! p = None ∧ fs w' !! p = Some EDir)).
Proof.
  intros H p. apply main_changes in H as (f1 & _ & H1 & H).
  destruct (decide (p = log_file)) as [-> | Hp]; [by right; left|].
  specialize (H1 p Hp). destruct (home_dir E) as [home|].
  - destruct (H p) as [? | [? | (? & ? & ?)]].
    + left. congruence.
    + right; right. exists home. split; [done | by left].
    + right; right. exists home. split; [done|]. right. split_and!; [done | congruence | done].
  - left. congruence.
Qed.

Lemma main_frame_witness :
  ∃ r w', main ex_env_no_write ex_world = (r, w') ∧
  ∀ p, fs w' !! p = fs ex_world !! p ∨ p = log_file ∨
       ∃ home, home_dir ex_env_no_write = Some home ∧
         (backup_dir_of ex_env_no_write ex_world home `prefix_of` p ∨
          (p `prefix_of` backup_dir_of ex_env_no_write ex_world home ∧
           fs ex_world !! p = None ∧ fs w' !! p = Some EDir)).
Proof.
  destruct (main ex_env_no_write ex_world) as [r w'] eqn:H.
  exists r, w'. split; [reflexivity|].
  exact (main_frame ex_env_no_write ex_world r w' H).
Defined.

Lemma not_log_file (p q : path) (a b : string) :
  a ≠ "" → b ≠ "nvidia_backup.log" → p ++ a :: b :: q ≠ log_file.
Proof.
  intros Ha Hb E. unfold log_file in E.
  destruct p as [|x [|y p]]; simpl in E; simplify_eq. by destruct p.
Qed.

Lemma under_snoc_ne (p q r : path) (a b : string) : a ≠ b → p ++ a :: q ≠ p ++ [b].
Proof. intros Hab E. apply app_inv_head in E. simplify_eq. Qed.

Lemma summary_prints backup_dir profile_ok registry_ok :
  (EvPrint msg_partial ∈ summary backup_dir profile_ok registry_ok
   ↔ profile_ok && registry_ok = false) ∧
  (EvPrint (msg_completed backup_dir) ∈ summary backup_dir profile_ok registry_ok
   ↔ profile_ok && registry_ok = true).
Proof.
  unfold summary. destruct (profile_ok && registry_ok);
    rewrite !elem_of_cons, !elem_of_nil; split; split; try done.
  - intros [H | [H | []]]; discriminate H.
  - by left.
  - by left.
  - intros [H | []]. discriminate H.
Qed.

Lemma print_in_main_steps s src_dir backup_dir copy_attempted profile_ok registry_ok :
  EvPrint s ∈ main_steps src_dir backup_dir copy_attempted profile_ok registry_ok ↔
  EvPrint s ∈ summary backup_dir profile_ok registry_ok ∨ EvPrint s ∈ next_steps.
Proof.
  unfold main_steps. rewrite !elem_of_app, !elem_of_cons, !elem_of_nil.
  destruct copy_attempted; rewrite ?elem_of_cons, ?elem_of_nil; intuition discriminate.
Qed.

Lemma status_not_in_next_steps backup_dir :
  (EvPrint msg_partial ∉ next_steps) ∧ (EvPrint (msg_completed backup_dir) ∉ next_steps).
Proof.
  unfold next_steps. rewrite !elem_of_cons, !elem_of_nil.
  split; intros [H | [H | [H | [H | []]]]]; discriminate H.
Qed.

(** X3: a run of [main] that completes without printing the
    partial-failure message, started on a well-formed disk where the backup
    directory of the run did not exist and does not lie inside the profile
    directory, leaves [backup_dir/NVIDIA_Profiles] an exact copy of the
    profile directory as it was when the run started, the profile directory
    as it was, and the export of [reg] in
    [backup_dir/nvidia_registry_backup.reg]: the later steps of the run
    overwrite none of that. *)
Theorem main_full_backup E w w' home pd :
  main E w = (Ok (), w') →
  home_dir E = Some home → PROGRAMDATA E = Some pd →
  wf (fs w) →
  (∀ q, fs w !! (backup_dir_of E w home ++ q) = None) →
  ¬ src_dir_of pd `prefix_of` backup_dir_of E w home →
  EvPrint msg_partial ∉ trace w' →
  (∀ q, fs w' !! (dest_dir_of (backup_dir_of E w home) ++ q) = fs w !! (src_dir_of pd ++ q) ∧
        fs w' !! (src_dir_of pd ++ q) = fs w !! (src_dir_of pd ++ q)) ∧
  fs w' !! reg_file_of (backup_dir_of E w home) = Some (EFile (reg_dump E)).
Proof.
  intros H Hhome Hpd Hwf Hnew Hsb Hnp.
  apply main_ok_inv in H
    as (dv & home' & pd' & rc & out & fs1 & fs2 & fs3 & fs4 & profile_ok & registry_ok &
        _ & Hhome' & Hpd' & Hreg & H).
  assert (home' = home) as -> by congruence.
  assert (pd' = pd) as -> by congruence. cbv zeta in H.
  set (backup_dir := backup_dir_of E w home) in *.
  destruct H as (Hopen & Hmk & Hprof & Hrs & Hdir4 & Hfs & Hst).
  (* both steps succeeded *)
  destruct (profile_ok && registry_ok) eqn:Hflags.
  2: { destruct Hnp. apply steps_subseteq. rewrite Hst, elem_of_app, print_in_main_steps.
       right; left. by apply (summary_prints backup_dir profile_ok registry_ok). }
  apply andb_prop in Hflags as [-> ->].
  (* the file system when the copy starts *)
  apply open_a_frame in Hopen as [Hwf1 Hopen].
  pose proof (Path_mkdir_rec_wf _ _ _ _ _ _ Hmk (Hwf1 Hwf)) as Hwf2.
  pose proof (Path_mkdir_rec_creates _ _ _ _ _ _ Hmk) as Hcr.
  assert (backup_dir_name (clock E (clock_reads w)) ≠ "") as Hname by done.
  assert (∀ q, fs2 !! (dest_dir_of backup_dir ++ q) = None) as Hnew2.
  { intros q. destruct (Hcr (dest_dir_of backup_dir ++ q)) as [-> | (Hpre & _)].
    - rewrite Hopen.
      + unfold dest_dir_of. rewrite <- app_assoc. apply Hnew.
      + unfold dest_dir_of, backup_dir, backup_dir_of. rewrite <- !app_assoc. simpl.
        by apply not_log_file.
    - apply prefix_length in Hpre. unfold dest_dir_of in Hpre.
      rewrite !length_app in Hpre. simpl in Hpre. lia. }
  assert (∀ q, fs2 !! (src_dir_of pd ++ q) = fs w !! (src_dir_of pd ++ q)) as Hsrc2.
  { intros q. destruct (Hcr (src_dir_of pd ++ q)) as [-> | (Hpre & _)].
    - apply Hopen. unfold src_dir_of. rewrite <- app_assoc. simpl. by apply not_log_file.
    - destruct Hsb. etrans; [|done]. by apply prefix_app_r. }
  (* the copy *)
  unfold profile_step in Hprof.
  destruct (exists_ (src_dir_of pd) fs2) eqn:Hex; [|by destruct Hprof].
  destruct Hprof as (r0 & Hcp & Hr0). destruct r0 as [[]|]; [|done].
  assert (∀ q, fs3 !! (dest_dir_of backup_dir ++ q) = fs2 !! (src_dir_of pd ++ q) ∧
               fs3 !! (src_dir_of pd ++ q) = fs2 !! (src_dir_of pd ++ q)) as Hmirror.
  { eapply copytree_mirror; [| | | done | done | done].
    - unfold src_dir_of. by destruct pd.
    - intros Hpre. unfold dest_dir_of in Hpre.
      apply prefix_snoc_inv in Hpre as [? | E']; [done|].
      unfold src_dir_of in E'. change (pd ++ ["NVIDIA Corporation"; "Drs"])
        with (pd ++ ["NVIDIA Corporation"] ++ ["Drs"]) in E'.
      rewrite app_assoc in E'. by apply snoc_ne in E'.
    - intros [k Hk]. unfold exists_ in Hex. by rewrite Hk, Hnew2 in Hex. }
  (* the export and the summary file *)
  unfold registry_step in Hrs. destruct (decide (rc = 0%Z)); [|by destruct Hrs].
  destruct Hrs as [-> _].
  assert (∀ q (n : string), n ≠ "Drs" → src_dir_of pd ++ q ≠ backup_dir ++ [n]) as Hne.
  { intros q n Hn E'. induction q as [|x q _] using rev_ind.
    - rewrite app_nil_r in E'. unfold src_dir_of in E'.
      change (pd ++ ["NVIDIA Corporation"; "Drs"])
        with (pd ++ ["NVIDIA Corporation"] ++ ["Drs"]) in E'.
      rewrite app_assoc in E'. apply app_inj_tail in E' as [_ ?]. by apply Hn.
    - rewrite app_assoc in E'. apply app_inj_tail in E' as [E' _].
      destruct Hsb. rewrite <- E'. by apply prefix_app_r. }
  split.
  - intros q. rewrite Hfs. unfold driver_info_of, reg_file_of, dest_dir_of.
    rewrite <- !(app_assoc backup_dir). simpl.
    rewrite !lookup_insert_ne; try (by apply not_eq_sym, Hne);
      try (apply not_eq_sym; by apply (under_snoc_ne _ _ [])).
    destruct (Hmirror q) as [Hd Hs]. unfold dest_dir_of in Hd.
    rewrite <- (app_assoc backup_dir) in Hd. simpl in Hd.
    by rewrite Hd, Hs, Hsrc2.
  - rewrite Hfs. unfold driver_info_of, reg_file_of.
    rewrite lookup_insert_ne; [|by apply snoc_ne]. by rewrite lookup_insert_eq.
Qed.

Lemma main_full_backup_witness :
  ∃ w', main ex_env ex_world = (Ok (), w') ∧
    home_dir ex_env = Some ex_home ∧ PROGRAMDATA ex_env = Some ex_programdata ∧
    wf (fs ex_world) ∧
    (∀ q, fs ex_world !! (backup_dir_of ex_env ex_world ex_home ++ q) = None) ∧
    ¬ src_dir_of ex_programdata `prefix_of` backup_dir_of ex_env ex_world ex_home ∧
    (EvPrint msg_partial ∉ trace w') ∧
    (∀ q, fs w' !! (dest_dir_of (backup_dir_of ex_env ex_world ex_home) ++ q)
            = fs ex_world !! (src_dir_of ex_programdata ++ q) ∧
          fs w' !! (src_dir_of ex_programdata ++ q)
            = fs ex_world !! (src_dir_of ex_programdata ++ q)) ∧
    fs w' !! reg_file_of (backup_dir_of ex_env ex_world ex_home)
      = Some (EFile (reg_dump ex_env)).
Proof.
  assert (home_dir ex_env = Some ex_home) as H1 by reflexivity.
  assert (PROGRAMDATA ex_env = Some ex_programdata) as H2 by reflexivity.
  assert (wf (fs ex_world)) as H3 by (apply wf_check_ok; vm_compute; reflexivity).
  assert (∀ q, fs ex_world !! (backup_dir_of ex_env ex_world ex_home ++ q) = None) as H4
    by (apply nothing_under_ok; vm_compute; reflexivity).
  assert (¬ src_dir_of ex_programdata `prefix_of` backup_dir_of ex_env ex_world ex_home)
    as H5 by (intros [k Hk]; discriminate Hk).
  assert ((main ex_env ex_world).1 = Ok ()) as H0 by (vm_compute; reflexivity).
  assert (EvPrint msg_partial ∉ trace (main ex_env ex_world).2) as H6
    by (apply (bool_decide_unpack _); vm_compute; exact I).
  destruct (main ex_env ex_world) as [r w'] eqn:H. simpl in H0, H6. subst r. exists w'.
  split_and!; [reflexivity | exact H1 | exact H2 | exact H3 | exact H4 | exact H5 | exact H6 | ..];
    apply (main_full_backup ex_env ex_world w' ex_home ex_programdata H H1 H2 H3 H4 H5 H6).
Defined.

(** ** The driver version and the summary file *)

Lemma splitlines_continue c s :
  is_linebreak c = false →
  splitlines (String c s) =
    match splitlines s with
    | [] => [String c ""]
    | l :: ls => String c l :: ls
    end.
Proof. intros H. cbn [splitlines]. by rewrite H. Qed.

Lemma splitlines_break c s :
  is_linebreak c = true →
  splitlines (String c s) = "" :: splitlines s ∨
  ∃ s', s = String "010" s' ∧ splitlines (String c s) = "" :: splitlines s'.
Proof.
  intros H. cbn [splitlines]. rewrite H.
  destruct (decide (c = "013"%char)) as [-> | Hc].
  - destruct s as [|c' s']; [by left|].
    destruct (decide (c' = "010"%char)) as [-> | Hc']; [right; by eexists|].
    left. destruct c' as [[] [] [] [] [] [] [] []]; done.
  - left. destruct c as [[] [] [] [] [] [] [] []]; done.
Qed.

Lemma splitlines_nl s : splitlines (String "010" s) = "" :: splitlines s.
Proof. done. Qed.

(** The lines of [str.splitlines] hold no line boundary. *)
Lemma splitlines_one_line s l : l ∈ splitlines s → one_line l.
Proof.
  revert l. induction s as [|c s IH]; intros l Hl; [by apply elem_of_nil in Hl|].
  destruct (is_linebreak c) eqn:Hc.
  - destruct (splitlines_break c s Hc) as [E | (s' & -> & E)]; rewrite E in Hl;
      apply elem_of_cons in Hl as [-> | Hl]; try done; apply IH; [done|].
    rewrite splitlines_nl. by apply elem_of_cons; right.
  - rewrite splitlines_continue in Hl by done.
    destruct (splitlines s) as [|l0 ls] eqn:Hs.
    + apply list_elem_of_singleton in Hl as ->. unfold one_line. simpl. by rewrite Hc.
    + apply elem_of_cons in Hl as [-> | Hl].
      * unfold one_line. simpl. rewrite Hc. simpl. apply IH, list_elem_of_here.
      * apply IH. by apply elem_of_cons; right.
Qed.

(** A text that starts with a line and its line feed. *)
Lemma splitlines_line a rest :
  one_line a → splitlines (a +:+ nl +:+ rest) = a :: splitlines rest.
Proof.
  unfold one_line. induction a as [|c a IH]; intros Ha; [done|].
  simpl in Ha. apply andb_prop in Ha as [Hc Ha]. apply negb_true_iff in Hc.
  change (String c a +:+ nl +:+ rest) with (String c (a +:+ nl +:+ rest)).
  rewrite splitlines_continue by done. by rewrite IH.
Qed.

Lemma all_chars_app P a b : all_chars P (a +:+ b) = all_chars P a && all_chars P b.
Proof.
  induction a as [|c a IH]; [done|].
  change (String c a +:+ b) with (String c (a +:+ b)). simpl. by rewrite IH, andb_assoc.
Qed.

Lemma all_chars_lstrip P s : all_chars P s = true → all_chars P (lstrip s) = true.
Proof.
  induction s as [|c s IH]; [done|]. intros H. simpl.
  destruct (is_space c); [|done]. simpl in H. apply andb_prop in H as [_ ?]. auto.
Qed.

Lemma all_chars_rstrip P s : all_chars P s = true → all_chars P (rstrip s) = true.
Proof.
  induction s as [|c s IH]; [done|]. intros H. simpl in *.
  apply andb_prop in H as [Hc Hs]. specialize (IH Hs).
  destruct (rstrip s) as [|c' r].
  - destruct (is_space c); [done|]. simpl. by rewrite Hc.
  - simpl in *. by rewrite Hc.
Qed.

Lemma rstrip_rstrip s : rstrip (rstrip s) = rstrip s.
Proof.
  induction s as [|c s IH]; [done|]. simpl.
  destruct (rstrip s) as [|c' r] eqn:Hr.
  - destruct (is_space c) eqn:Hc; [done|]. simpl. by rewrite Hc.
  - change (rstrip (String c (String c' r))) with
      (match rstrip (String c' r) with
       | "" => if is_space c then "" else String c ""
       | r0 => String c r0
       end).
    by rewrite IH.
Qed.

Lemma lstrip_rstrip_lstrip s : lstrip (rstrip (lstrip s)) = rstrip (lstrip s).
Proof.
  induction s as [|c s IH]; [done|]. simpl.
  destruct (is_space c) eqn:Hc; [done|]. simpl.
  destruct (rstrip s); rewrite ?Hc; simpl; by rewrite Hc.
Qed.

Lemma digit_one_line n : is_linebreak (digit n) = false.
Proof. unfold digit. by repeat case_match. Qed.

Lemma str_datetime_one_line t : one_line (str_datetime t).
Proof.
  unfold one_line, str_datetime, pad6, pad4, pad2.
  destruct (decide (microsecond t = 0%Z)); simpl; by rewrite !digit_one_line.
Qed.

Lemma driver_query_cases E v :
  driver_query E = Ok v →
  (∃ rc out, nvidia_smi E = ProcExit rc out ∧ rc ≠ 0%Z ∧ v = "Unknown") ∨
  (∃ out line, nvidia_smi E = ProcExit 0 out ∧ splitlines out !! 1 = Some line ∧
               v = strip line).
Proof.
  unfold driver_query. destruct (nvidia_smi E) as [|rc out]; [done|].
  destruct (decide (rc = 0%Z)) as [-> | Hrc].
  - destruct (splitlines out !! 1) as [line|] eqn:Hl; [|done].
    intros; simplify_eq. right. by eexists _, _.
  - intros; simplify_eq. left. by eexists _, _.
Qed.

Lemma driver_query_clean E v :
  driver_query E = Ok v → one_line v ∧ lstrip v = v ∧ rstrip v = v.
Proof.
  intros [(rc & out & _ & _ & ->) | (out & line & _ & Hl & ->)]%driver_query_cases;
    [done|].
  apply list_elem_of_lookup_2, splitlines_one_line in Hl.
  split_and!.
  - by apply all_chars_rstrip, all_chars_lstrip.
  - apply lstrip_rstrip_lstrip.
  - apply rstrip_rstrip.
Qed.

(** X4: the version that [get_nvidia_driver_info] returns, whatever
    [nvidia-smi] printed, is a single line (it holds no line boundary) and
    has no white space at either end. *)
Theorem driver_version_is_clean E w v w' :
  get_nvidia_driver_info E w = (Ok v, w') →
  one_line v ∧ lstrip v = v ∧ rstrip v = v.
Proof.
  intros H. apply get_nvidia_driver_info_spec in H as (_ & _ & _ & H).
  by apply driver_query_clean with (E := E).
Qed.

Lemma driver_version_is_clean_witness :
  ∃ w', get_nvidia_driver_info ex_env ex_world = (Ok "551.23", w') ∧
  one_line "551.23" ∧ lstrip "551.23" = "551.23" ∧ rstrip "551.23" = "551.23".
Proof.
  assert ((get_nvidia_driver_info ex_env ex_world).1 = Ok "551.23") as H0
    by (vm_compute; reflexivity).
  destruct (get_nvidia_driver_info ex_env ex_world) as [r w'] eqn:H. simpl in H0. subst r.
  exists w'. split; [reflexivity|].
  exact (driver_version_is_clean ex_env ex_world "551.23" w' H).
Defined.

(** X5: after a run of [main] that completes, [driver_info.txt] has exactly
    four lines: the driver version ("Unknown", or the second line of the
    output of [nvidia-smi] without the white space around it), the date,
    which is the second reading of the clock in the run (the name of the
    backup directory comes from the first), and the two fixed lines that
    name the system and the GPU. *)
Theorem driver_info_lines E w w' home :
  main E w = (Ok (), w') → home_dir E = Some home →
  ∃ driver_version text,
    ((∃ rc out, nvidia_smi E = ProcExit rc out ∧ rc ≠ 0%Z ∧ driver_version = "Unknown") ∨
     (∃ out line, nvidia_smi E = ProcExit 0 out ∧ splitlines out !! 1 = Some line ∧
                  driver_version = strip line)) ∧
    fs w' !! driver_info_of (backup_dir_of E w home) = Some (EFile text) ∧
    splitlines text =
      ["NVIDIA Driver Version: " +:+ driver_version;
       "Backup Date: " +:+ str_datetime (clock E (S (clock_reads w)));
       "System: Windows 11 Pro 64-bit (Build 26100)";
       "GPU: NVIDIA GeForce RTX 4070 Ti SUPER"].
Proof.
  intros H Hhome.
  apply main_ok_inv in H
    as (dv & home' & pd & rc & out & fs1 & fs2 & fs3 & fs4 & profile_ok & registry_ok &
        Hdv & Hhome' & _ & _ & H).
  assert (home' = home) as -> by congruence. cbv zeta in H.
  destruct H as (_ & _ & _ & _ & _ & Hfs & _).
  exists dv, (driver_info_text dv (clock E (S (clock_reads w)))).
  split; [by apply driver_query_cases|]. split; [by rewrite Hfs, lookup_insert_eq|].
  destruct (driver_query_clean _ _ Hdv) as (Hline & _).
  unfold driver_info_text. rewrite !append_assoc.
  rewrite <- (append_assoc "NVIDIA Driver Version: " dv).
  rewrite splitlines_line.
  2: { unfold one_line. by rewrite all_chars_app, Hline. }
  rewrite <- (append_assoc "Backup Date: ").
  rewrite splitlines_line; [done|].
  unfold one_line. rewrite all_chars_app. by rewrite str_datetime_one_line.
Qed.

Lemma driver_info_lines_witness :
  ∃ w', main ex_env ex_world = (Ok (), w') ∧ home_dir ex_env = Some ex_home ∧
  ∃ driver_version text,
    ((∃ rc out, nvidia_smi ex_env = ProcExit rc out ∧ rc ≠ 0%Z ∧
                driver_version = "Unknown") ∨
     (∃ out line, nvidia_smi ex_env = ProcExit 0 out ∧ splitlines out !! 1 = Some line ∧
                  driver_version = strip line)) ∧
    fs w' !! driver_info_of (backup_dir_of ex_env ex_world ex_home) = Some (EFile text) ∧
    splitlines text =
      ["NVIDIA Driver Version: " +:+ driver_version;
       "Backup Date: " +:+ str_datetime (clock ex_env (S (clock_reads ex_world)));
       "System: Windows 11 Pro 64-bit (Build 26100)";
       "GPU: NVIDIA GeForce RTX 4070 Ti SUPER"].
Proof.
  assert (home_dir ex_env = Some ex_home) as H1 by reflexivity.
  assert ((main ex_env ex_world).1 = Ok ()) as H0 by (vm_compute; reflexivity).
  destruct (main ex_env ex_world) as [r w'] eqn:H. simpl in H0. subst r.
  exists w'. split_and!; [reflexivity | exact H1 |].
  exact (driver_info_lines ex_env ex_world w' ex_home H H1).
Defined.

(** ** Runs that stop early *)

(** X6: when the log file cannot be opened for appending, [main] raises the
    error of that [open], an [OSError], and nothing else has happened: the
    disk is as it was, no tool was run, nothing was printed or logged. *)
Theorem main_needs_the_log_file E w e f :
  open_a (denied E) log_file (fs w) = (Raise e, f) →
  is_OSError e = true ∧ main E w = (Raise e, w).
Proof.
  intros H. destruct (open_a_raise _ _ _ _ _ H) as [-> He]. split; [done|].
  unfold main, setup_logging, bind, lift_fs. rewrite H. by rewrite set_fs_same.
Qed.

Lemma main_needs_the_log_file_witness :
  open_a (denied ex_env_no_log) log_file (fs ex_world) = (Raise PermissionError, ex_fs) ∧
  is_OSError PermissionError = true ∧
  main ex_env_no_log ex_world = (Raise PermissionError, ex_world).
Proof.
  assert (open_a (denied ex_env_no_log) log_file (fs ex_world)
          = (Raise PermissionError, ex_fs)) as H by reflexivity.
  split; [exact H|].
  exact (main_needs_the_log_file ex_env_no_log ex_world PermissionError ex_fs H).
Defined.

(** X7: when [nvidia-smi] cannot be started, or exits with status 0 after
    printing fewer than two lines, [main] stops with an exception
    ([FileNotFoundError] or [IndexError] when the log file could be opened)
    before the backup directory is made: no path other than the log file
    has changed, and [nvidia-smi] is the only step that may have run. *)
Theorem main_stops_when_the_query_raises E w r w' :
  nvidia_smi E = ProcNotFound ∨
  (∃ out, nvidia_smi E = ProcExit 0 out ∧ (length (splitlines out) < 2)%nat) →
  main E w = (r, w') →
  (∃ e, r = Raise e ∧
        (can_write (denied E) (fs w) log_file →
         e = match nvidia_smi E with
             | ProcNotFound => FileNotFoundError
             | ProcExit _ _ => IndexError
             end)) ∧
  (∀ p, p ≠ log_file → fs w' !! p = fs w !! p) ∧
  (steps (trace w') = steps (trace w) ∨
   steps (trace w') = steps (trace w) ++ [EvSubprocess nvidia_smi_argv]).
Proof.
  intros Hsmi H.
  assert (driver_query E = Raise match nvidia_smi E with
                                 | ProcNotFound => FileNotFoundError
                                 | ProcExit _ _ => IndexError
                                 end) as Hq.
  { unfold driver_query. destruct Hsmi as [-> | (out & -> & Hlen)]; [done|].
    simpl. by rewrite lookup_ge_None_2 by lia. }
  unfold main in H.
  apply bind_inv in H as (r1 & w1 & H1 & H).
  apply setup_logging_spec in H1 as (Hopen & _ & Htr1).
  destruct r1 as [[]|e].
  2: { destruct H as [-> ->]. destruct (open_a_raise _ _ _ _ _ Hopen) as [Hfs _]. split_and!.
       - exists e. split; [done|]. intros Hcan.
         destruct (open_a_can _ _ _ Hcan) as (f' & Hok & _). congruence.
       - intros p _. by rewrite Hfs.
       - left. by rewrite Htr1. }
  apply open_a_frame in Hopen as [_ Hopen].
  apply bind_inv in H as (rl & wl & Hl & H).
  unfold logging_info in Hl. apply logging_log_inv in Hl as (-> & Hfsl & _ & Hstl).
  apply bind_inv in H as (rd & wd & Hd & H).
  apply get_nvidia_driver_info_spec in Hd as (Hfsd & _ & Hstd & ->).
  rewrite Hq in H. destruct H as [-> ->]. split_and!.
  - by eexists.
  - intros p Hp. rewrite Hfsd, Hfsl. by apply Hopen.
  - right. by rewrite Hstd, Hstl, Htr1.
Qed.

Lemma main_stops_when_the_query_raises_witness :
  (nvidia_smi ex_env_header_only = ProcNotFound ∨
   (∃ out, nvidia_smi ex_env_header_only = ProcExit 0 out ∧
           (length (splitlines out) < 2)%nat)) ∧
  ∃ r w', main ex_env_header_only ex_world = (r, w') ∧
  (∃ e, r = Raise e ∧
        (can_write (denied ex_env_header_only) (fs ex_world) log_file →
         e = match nvidia_smi ex_env_header_only with
             | ProcNotFound => FileNotFoundError
             | ProcExit _ _ => IndexError
             end)) ∧
  (∀ p, p ≠ log_file → fs w' !! p = fs ex_world !! p) ∧
  (steps (trace w') = steps (trace ex_world) ∨
   steps (trace w') = steps (trace ex_world) ++ [EvSubprocess nvidia_smi_argv]).
Proof.
  assert (nvidia_smi ex_env_header_only = ProcNotFound ∨
          (∃ out, nvidia_smi ex_env_header_only = ProcExit 0 out ∧
                  (length (splitlines out) < 2)%nat)) as H1.
  { right. eexists. split; [reflexivity|]. simpl. lia. }
  split; [exact H1|].
  destruct (main ex_env_header_only ex_world) as [r w'] eqn:H.
  exists r, w'. split; [reflexivity|].
  exact (main_stops_when_the_query_raises ex_env_header_only ex_world r w' H1 H).
Defined.

(** X8: what a run of [main] that completes tells about the machine: both
    tools could be started, [nvidia-smi] printed at least two lines if it
    exited with status 0, PROGRAMDATA is set, the home directory is known,
    and neither the log file nor [driver_info.txt] refused writing. *)
Theorem main_completes_only_if E w w' :
  main E w = (Ok (), w') →
  (∃ rc out, nvidia_smi E = ProcExit rc out ∧
             (rc = 0%Z → (2 ≤ length (splitlines out))%nat)) ∧
  (∃ rc out, reg_export E = ProcExit rc out) ∧
  is_Some (PROGRAMDATA E) ∧
  denied E log_file = false ∧
  ∃ home, home_dir E = Some home ∧
          denied E (driver_info_of (backup_dir_of E w home)) = false.
Proof.
  intros H. apply main_spec in H as (r1 & fs1 & Hopen & H).
  destruct r1 as [[]|]; [|done].
  destruct (driver_query E) as [driver_version|] eqn:Hdv; [|done].
  destruct (home_dir E) as [home|]; [|done].
  destruct H as (r2 & fs2 & Hmk & H). destruct r2 as [[]|]; [|done].
  destruct (PROGRAMDATA E) as [pd|]; [|done].
  destruct (stat_refused E (src_dir_of pd)); [done|].
  destruct H as (fs3 & profile_ok & Hprof & H).
  destruct (reg_export E) as [|rc out]; [done|].
  destruct H as (fs4 & registry_ok & Hrs & r5 & fs5 & Hw & H).
  destruct r5 as [[]|]; [|done].
  split_and!.
  - unfold driver_query in Hdv. destruct (nvidia_smi E) as [|rc' out']; [done|].
    exists rc', out'. split; [done|]. intros ->. simpl in Hdv.
    destruct (splitlines out' !! 1) eqn:Hl; [|done].
    apply lookup_lt_Some in Hl. lia.
  - by eexists _, _.
  - by eexists.
  - by eapply open_a_ok.
  - exists home. split; [done|]. by eapply open_w_can_inv.
Qed.

Lemma main_completes_only_if_witness :
  ∃ w', main ex_env ex_world = (Ok (), w') ∧
  (∃ rc out, nvidia_smi ex_env = ProcExit rc out ∧
             (rc = 0%Z → (2 ≤ length (splitlines out))%nat)) ∧
  (∃ rc out, reg_export ex_env = ProcExit rc out) ∧
  is_Some (PROGRAMDATA ex_env) ∧
  denied ex_env log_file = false ∧
  ∃ home, home_dir ex_env = Some home ∧
          denied ex_env (driver_info_of (backup_dir_of ex_env ex_world home)) = false.
Proof.
  assert ((main ex_env ex_world).1 = Ok ()) as H0 by (vm_compute; reflexivity).
  destruct (main ex_env ex_world) as [r w'] eqn:H. simpl in H0. subst r.
  exists w'. split; [reflexivity|].
  exact (main_completes_only_if ex_env ex_world w' H).
Defined.

(** Where the file system stands when a run of [main] stops with an
    exception: as the last step that ran left it. *)
Lemma main_raise_inv E w e w' :
  main E w = (Raise e, w') →
  ∃ r1 fs1, open_a (denied E) log_file (fs w) = (r1, fs1) ∧
  match r1 with
  | Raise _ => fs w' = fs1
  | Ok _ =>
  match driver_query E with
  | Raise _ => fs w' = fs1
  | Ok _ =>
  match home_dir E with
  | None => fs w' = fs1
  | Some home =>
  let backup_dir := backup_dir_of E w home in
  ∃ r2 fs2, Path_mkdir (denied E) backup_dir fs1 = (r2, fs2) ∧
  match r2 with
  | Raise _ => fs w' = fs2
  | Ok _ =>
  match PROGRAMDATA E with
  | None => fs w' = fs2
  | Some pd =>
  if stat_refused E (src_dir_of pd) then fs w' = fs2 else
  ∃ fs3 profile_ok,
    profile_step E (src_dir_of pd) (dest_dir_of backup_dir) fs2 fs3 profile_ok ∧
  match reg_export E with
  | ProcNotFound => fs w' = fs3
  | ProcExit rc _ =>
  ∃ fs4 registry_ok,
    registry_step E (reg_file_of backup_dir) rc fs3 fs4 registry_ok ∧ fs w' = fs4
  end end end end end end.
Proof.
  unfold main. intros H.
  (* setup_logging *)
  apply bind_inv in H as (r1 & w1 & H1 & H).
  apply setup_logging_spec in H1 as (Hopen & Hclk1 & Htr1).
  exists r1, (fs w1). split; [done|]. destruct r1 as [[]|e1]; [|by destruct H as [_ ->]].
  apply bind_inv in H as (rl & wl & Hl & H).
  unfold logging_info in Hl. apply logging_log_inv in Hl as (-> & Hfsl & Hclkl & Hstl).
  (* get_nvidia_driver_info *)
  apply bind_inv in H as (rd & wd & Hd & H).
  apply get_nvidia_driver_info_spec in Hd as (Hfsd & Hclkd & Hstd & ->).
  destruct (driver_query E) as [driver_version|e2];
    [|destruct H as [_ ->]; congruence].
  (* create_backup_directory *)
  apply bind_inv in H as (rb & wb & Hb & H).
  apply create_backup_directory_spec in Hb as (Hclkb & Hb).
  destruct (home_dir E) as [home|].
  2: { destruct Hb as (-> & Hfsb & _). destruct H as [_ ->]. congruence. }
  rewrite Hclkd, Hclkl, Hclk1 in Hb, Hclkb. rewrite Hfsd, Hfsl in Hb.
  simpl in Hb. destruct Hb as (Hstb & r2 & Hmk & ->).
  fold (backup_dir_of E w home) in *. cbv zeta.
  set (backup_dir := backup_dir_of E w home) in *.
  exists r2, (fs wb). split; [done|]. destruct r2 as [[]|e3]; [|by destruct H as [_ ->]].
  (* backup_nvidia_profile_files *)
  apply bind_inv in H as (rp & wp & Hp & H).
  apply backup_nvidia_profile_files_spec in Hp as (Hclkp & Hp).
  destruct (PROGRAMDATA E) as [pd|].
  2: { destruct Hp as (-> & Hfsp & _). destruct H as [_ ->]. done. }
  simpl in Hp.
  destruct (stat_refused E (src_dir_of pd)).
  { destruct Hp as (-> & Hfsp & _). destruct H as [_ ->]. done. }
  assert (∃ profile_ok,
            rp = Ok profile_ok ∧
            profile_step E (src_dir_of pd) (dest_dir_of backup_dir) (fs wb) (fs wp) profile_ok)
    as (profile_ok & -> & Hprof).
  { unfold profile_step. destruct (exists_ (src_dir_of pd) (fs wb)).
    - destruct Hp as (? & r0 & ? & ->). eexists. split; [done|]. by exists r0.
    - destruct Hp as (-> & ? & ?). by exists false. }
  exists (fs wp), profile_ok. split; [done|].
  (* backup_nvidia_registry_settings *)
  apply bind_inv in H as (rr & wr & Hr & H).
  apply backup_nvidia_registry_settings_spec in Hr as (Hclkr & Hstr & Hr).
  destruct (reg_export E) as [|rc out].
  { destruct Hr as (-> & Hfsr). destruct H as [_ ->]. done. }
  assert (∃ registry_ok,
            rr = Ok registry_ok ∧
            registry_step E (reg_file_of backup_dir) rc (fs wp) (fs wr) registry_ok)
    as (registry_ok & -> & Hreg).
  { unfold registry_step. destruct (decide (rc = 0%Z)); destruct Hr as (-> & ?); eauto. }
  exists (fs wr), registry_ok. split; [done|].
  (* the summary *)
  apply bind_inv in H as (rs & ws & Hs & H).
  assert (rs = Ok () ∧ fs ws = fs wr) as (-> & Hfss).
  { destruct (profile_ok && registry_ok).
    - apply bind_inv in Hs as (? & wa & Ha & Hs).
      unfold logging_info in Ha. apply logging_log_inv in Ha as (-> & Hfsa & _).
      apply bind_inv in Hs as (? & wc & Hc & Hs).
      apply emit_inv in Hc as (-> & Hfsc & _).
      apply emit_inv in Hs as (-> & Hfse & _). split; congruence.
    - apply bind_inv in Hs as (? & wa & Ha & Hs).
      unfold logging_warning in Ha. apply logging_log_inv in Ha as (-> & Hfsa & _).
      apply emit_inv in Hs as (-> & Hfse & _). split; congruence. }
  (* driver_info.txt *)
  apply bind_inv in H as (rw & ww & Hw & H).
  apply bind_inv in Hw as (? & wo & Ho & Hw).
  apply emit_inv in Ho as (-> & Hfso & _).
  apply bind_inv in Hw as (r5 & w5 & H5 & Hw).
  apply lift_fs_inv in H5 as (H5 & _). rewrite Hfso, Hfss in H5.
  destruct r5 as [[]|e5].
  2: { destruct Hw as [-> ->]. destruct H as [_ ->]. by apply open_w_raise in H5. }
  exfalso.
  assert (fs w5 = <[driver_info_of backup_dir := EFile ""]> (fs wr)) as Hfs5.
  { unfold open_w in H5. repeat case_match; by simplify_eq. }
  apply bind_inv in Hw as (? & x1 & Hx1 & Hw).
  apply write_inv with (x := "") (fs0 := fs wr) in Hx1 as (-> & Hfs1 & _); [|done].
  apply bind_inv in Hw as (rn & wn & Hn & Hw).
  unfold datetime_now in Hn. simplify_eq.
  apply bind_inv in Hw as (? & x2 & Hx2 & Hw).
  eapply write_inv in Hx2 as (-> & Hfs2 & _); [|exact Hfs1].
  apply bind_inv in Hw as (? & x3 & Hx3 & Hw).
  eapply write_inv in Hx3 as (-> & Hfs3 & _); [|exact Hfs2].
  eapply write_inv in Hw as (-> & Hfsw & _); [|exact Hfs3].
  apply bind_inv in H as (? & wa & Ha & H). apply emit_inv in Ha as (-> & _).
  apply bind_inv in H as (? & wc & Hc & H). apply emit_inv in Hc as (-> & _).
  apply bind_inv in H as (? & wd' & Hd' & H). apply emit_inv in Hd' as (-> & _).
  by apply emit_inv in H as (? & _).
Qed.

(** X9: [driver_info.txt] marks a run that completed.  When the file was
    not there before the run, it is there after the run exactly when
    [main] returned: a run that stops with an exception, at whatever step,
    has not written it. *)
Theorem driver_info_marks_completion E w r w' home :
  main E w = (r, w') → home_dir E = Some home →
  fs w !! driver_info_of (backup_dir_of E w home) = None →
  (r = Ok () ↔ is_Some (fs w' !! driver_info_of (backup_dir_of E w home))).
Proof.
  intros H Hhome Hnone. split.
  - intros ->. apply main_ok_inv in H
      as (dv & home' & pd & rc & out & fs1 & fs2 & fs3 & fs4 & profile_ok & registry_ok &
          _ & Hhome' & _ & _ & H).
    assert (home' = home) as -> by congruence. cbv zeta in H.
    destruct H as (_ & _ & _ & _ & _ & Hfs & _). rewrite Hfs, lookup_insert_eq. by eexists.
  - intros Hsome. destruct r as [[]|e]; [done|]. exfalso.
    apply main_raise_inv in H as (r1 & fs1 & Hopen & H).
    set (backup_dir := backup_dir_of E w home) in *.
    assert (fs1 !! driver_info_of backup_dir = None) as H1.
    { apply open_a_frame in Hopen as [_ Hopen]. rewrite Hopen; [done|].
      unfold driver_info_of, backup_dir, backup_dir_of. rewrite <- app_assoc.
      by apply not_log_file. }
    assert (∀ f, fs w' = f → f !! driver_info_of backup_dir = None → False) as Hno.
    { intros f Hf Hd. rewrite Hf, Hd in Hsome. by destruct Hsome. }
    destruct r1 as [[]|]; [|by eapply Hno].
    destruct (driver_query E); [|by eapply Hno].
    rewrite Hhome in H. cbv zeta in H. fold backup_dir in H.
    destruct H as (r2 & fs2 & Hmk & H).
    assert (fs2 !! driver_info_of backup_dir = None) as H2.
    { destruct (Path_mkdir_rec_creates _ _ _ _ _ _ Hmk (driver_info_of backup_dir))
        as [-> | (Hpre & _)]; [done|].
      apply prefix_length in Hpre. unfold driver_info_of in Hpre.
      rewrite length_app in Hpre. simpl in Hpre. lia. }
    destruct r2 as [[]|]; [|by eapply Hno].
    destruct (PROGRAMDATA E) as [pd|]; [|by eapply Hno].
    destruct (stat_refused E (src_dir_of pd)); [by eapply Hno|].
    destruct H as (fs3 & profile_ok & Hprof & H).
    assert (fs3 !! driver_info_of backup_dir = None) as H3.
    { apply profile_step_sibling with (n := "driver_info.txt") in Hprof as [_ Hsame];
        [|done]. unfold driver_info_of. by rewrite Hsame. }
    destruct (reg_export E) as [|rc out]; [by eapply Hno|].
    destruct H as (fs4 & registry_ok & Hrs & H). eapply Hno; [done|].
    unfold registry_step in Hrs.
    destruct (decide (rc = 0%Z)); destruct Hrs as [-> _]; [|done].
    rewrite lookup_insert_ne; [done|]. unfold reg_file_of, driver_info_of. by apply snoc_ne.
Qed.

Lemma driver_info_marks_completion_witness :
  ∃ r w', main ex_env_no_reg ex_world = (r, w') ∧ home_dir ex_env_no_reg = Some ex_home ∧
  fs ex_world !! driver_info_of (backup_dir_of ex_env_no_reg ex_world ex_home) = None ∧
  (r = Ok () ↔
   is_Some (fs w' !! driver_info_of (backup_dir_of ex_env_no_reg ex_world ex_home))).
Proof.
  assert (home_dir ex_env_no_reg = Some ex_home) as H1 by reflexivity.
  assert (fs ex_world !! driver_info_of (backup_dir_of ex_env_no_reg ex_world ex_home) = None)
    as H2 by (vm_compute; reflexivity).
  destruct (main ex_env_no_reg ex_world) as [r w'] eqn:H.
  exists r, w'. split_and!; [reflexivity | exact H1 | exact H2 |].
  exact (driver_info_marks_completion ex_env_no_reg ex_world r w' ex_home H H1 H2).
Defined.

(** ** The status that [main] prints *)

(** X10: among the steps of a run of [main] that completes, exactly one of
    the two status messages is printed; it is the partial-failure message
    whenever [reg] exited with a status other than 0, and whenever the copy
    of the profile directory was not attempted. *)
Theorem status_message E w w' home pd rc out :
  main E w = (Ok (), w') →
  home_dir E = Some home → PROGRAMDATA E = Some pd → reg_export E = ProcExit rc out →
  let backup_dir := backup_dir_of E w home in
  ∃ new, steps (trace w') = steps (trace w) ++ new ∧
    (EvPrint msg_partial ∈ new ↔ EvPrint (msg_completed backup_dir) ∉ new) ∧
    (rc ≠ 0%Z → EvPrint msg_partial ∈ new) ∧
    (EvCopytree (src_dir_of pd) (dest_dir_of backup_dir) ∉ new → EvPrint msg_partial ∈ new).
Proof.
  intros H Hhome Hpd Hreg backup_dir.
  apply main_ok_inv in H
    as (dv & home' & pd' & rc' & out' & fs1 & fs2 & fs3 & fs4 & profile_ok & registry_ok &
        _ & Hhome' & Hpd' & Hreg' & H).
  assert (home' = home) as -> by congruence.
  assert (pd' = pd) as -> by congruence.
  assert (rc' = rc) as -> by congruence.
  cbv zeta in H. fold backup_dir in H.
  destruct H as (_ & _ & Hprof & Hrs & _ & _ & Hst).
  eexists. split; [exact Hst|].
  destruct (summary_prints backup_dir profile_ok registry_ok) as [Hp Hc].
  destruct (status_not_in_next_steps backup_dir) as [Hnp Hnc].
  rewrite !print_in_main_steps. split_and!.
  - destruct (profile_ok && registry_ok); intuition discriminate.
  - intros Hrc. left. apply Hp. unfold registry_step in Hrs.
    destruct (decide (rc = 0%Z)); [done|]. destruct Hrs as [_ ->]. apply andb_false_r.
  - intros Hcopy. left. apply Hp. unfold profile_step in Hprof.
    destruct (exists_ (src_dir_of pd) fs2).
    + destruct Hcopy. unfold main_steps. rewrite !elem_of_app, !elem_of_cons. tauto.
    + by destruct Hprof as [_ ->].
Qed.

Lemma status_message_witness :
  ∃ w', main ex_env_reg_fails ex_world = (Ok (), w') ∧
    home_dir ex_env_reg_fails = Some ex_home ∧
    PROGRAMDATA ex_env_reg_fails = Some ex_programdata ∧
    reg_export ex_env_reg_fails = ProcExit 1 "" ∧
    let backup_dir := backup_dir_of ex_env_reg_fails ex_world ex_home in
    ∃ new, steps (trace w') = steps (trace ex_world) ++ new ∧
      (EvPrint msg_partial ∈ new ↔ EvPrint (msg_completed backup_dir) ∉ new) ∧
      (1 ≠ 0 → EvPrint msg_partial ∈ new)%Z ∧
      (EvCopytree (src_dir_of ex_programdata) (dest_dir_of backup_dir) ∉ new →
       EvPrint msg_partial ∈ new).
Proof.
  assert (home_dir ex_env_reg_fails = Some ex_home) as H1 by reflexivity.
  assert (PROGRAMDATA ex_env_reg_fails = Some ex_programdata) as H2 by reflexivity.
  assert (reg_export ex_env_reg_fails = ProcExit 1 "") as H3 by reflexivity.
  assert ((main ex_env_reg_fails ex_world).1 = Ok ()) as H0 by (vm_compute; reflexivity).
  destruct (main ex_env_reg_fails ex_world) as [r w'] eqn:H. simpl in H0. subst r.
  exists w'. split_and!; [reflexivity | exact H1 | exact H2 | exact H3 |].
  exact (status_message ex_env_reg_fails ex_world w' ex_home ex_programdata 1 "" H H1 H2 H3).
Defined.

(** ** More on the functions of main.py *)



(** X12: when [create_backup_directory] returns, the path it returns is
    [NVIDIA_Settings_Backup_<stamp>] in the home directory, the stamp taken
    from the clock; that path is a directory; the only change to the disk
    is that the directories that were missing on the way to it (with
    [parents=True], the home directory and its ancestors too) have been
    created; and a well-formed disk stays well formed. *)
Theorem create_backup_directory_creates E w p w' :
  create_backup_directory E w = (Ok p, w') →
  (∃ home, home_dir E = Some home ∧
     p = home ++ ["NVIDIA_Settings_Backup_" +:+ strftime_stamp (clock E (clock_reads w))]) ∧
  fs w' !! p = Some EDir ∧
  creates_dirs p (fs w) (fs w') ∧
  (wf (fs w) → wf (fs w')).
Proof.
  intros H. apply create_backup_directory_returns in H as (home & Hhome & -> & Hmk).
  split_and!.
  - by exists home.
  - by eapply Path_mkdir_rec_ok.
  - by eapply Path_mkdir_rec_creates.
  - by eapply Path_mkdir_rec_wf.
Qed.

Lemma create_backup_directory_creates_witness :
  ∃ p w', create_backup_directory ex_env (ex_world_on ex_fs_no_home) = (Ok p, w') ∧
  (∃ home, home_dir ex_env = Some home ∧
     p = home ++ ["NVIDIA_Settings_Backup_" +:+
                  strftime_stamp (clock ex_env (clock_reads (ex_world_on ex_fs_no_home)))]) ∧
  fs w' !! p = Some EDir ∧
  creates_dirs p (fs (ex_world_on ex_fs_no_home)) (fs w') ∧
  (wf (fs (ex_world_on ex_fs_no_home)) → wf (fs w')).
Proof.
  assert ((create_backup_directory ex_env (ex_world_on ex_fs_no_home)).1 = Ok ex_backup_dir)
    as H0 by (vm_compute; reflexivity).
  destruct (create_backup_directory ex_env (ex_world_on ex_fs_no_home)) as [r w'] eqn:H.
  simpl in H0. subst r. exists ex_backup_dir, w'. split; [reflexivity|].
  exact (create_backup_directory_creates ex_env _ ex_backup_dir w' H).
Defined.

(** X13: when a file stands where the backup directory is to be made,
    [create_backup_directory] raises [FileExistsError] ([exist_ok=True]
    accepts a directory only) and the disk is as it was. *)
Theorem create_backup_directory_on_a_file E w home d :
  home_dir E = Some home →
  fs w !! backup_dir_of E w home = Some (EFile d) →
  ∃ w', create_backup_directory E w = (Raise FileExistsError, w') ∧ fs w' = fs w.
Proof.
  intros Hhome Hfile.
  destruct (create_backup_directory E w) as [r w'] eqn:H. exists w'.
  apply create_backup_directory_spec in H as (_ & H). rewrite Hhome in H.
  cbv zeta in H. destruct H as (_ & r0 & Hmk & ->).
  fold (backup_dir_of E w home) in Hmk.
  rewrite (Path_mkdir_on_file _ _ _ _ Hfile) in Hmk. by simplify_eq.
Qed.

Lemma create_backup_directory_on_a_file_witness :
  home_dir ex_env = Some ex_home ∧
  fs (ex_world_on ex_fs_file_in_the_way)
    !! backup_dir_of ex_env (ex_world_on ex_fs_file_in_the_way) ex_home
    = Some (EFile "notes") ∧
  ∃ w', create_backup_directory ex_env (ex_world_on ex_fs_file_in_the_way)
          = (Raise FileExistsError, w') ∧
        fs w' = fs (ex_world_on ex_fs_file_in_the_way).
Proof.
  assert (home_dir ex_env = Some ex_home) as H1 by reflexivity.
  assert (fs (ex_world_on ex_fs_file_in_the_way)
            !! backup_dir_of ex_env (ex_world_on ex_fs_file_in_the_way) ex_home
          = Some (EFile "notes")) as H2 by (vm_compute; reflexivity).
  split_and!; [exact H1 | exact H2 |].
  exact (create_backup_directory_on_a_file ex_env _ ex_home "notes" H1 H2).
Defined.

(** X14: two clock readings give the same name to the backup directory
    exactly when they agree up to the second: the stamp loses nothing but
    the microseconds. *)
Theorem backup_dir_name_same_second t1 t2 :
  valid_datetime t1 → valid_datetime t2 →
  (backup_dir_name t1 = backup_dir_name t2 ↔ same_second t1 t2).
Proof.
  intros H1 H2. split.
  - intros H. apply strftime_stamp_inj; [done | done |]. by apply backup_dir_name_inj.
  - intros H. unfold backup_dir_name. by rewrite (same_second_stamp t1 t2).
Qed.

Lemma backup_dir_name_same_second_witness :
  valid_datetime ex_now ∧ valid_datetime ex_same_second ∧
  (backup_dir_name ex_now = backup_dir_name ex_same_second
   ↔ same_second ex_now ex_same_second).
Proof.
  assert (valid_datetime ex_now) as H1 by (unfold valid_datetime; simpl; lia).
  assert (valid_datetime ex_same_second) as H2 by (unfold valid_datetime; simpl; lia).
  split_and!; [exact H1 | exact H2 |].
  exact (backup_dir_name_same_second ex_now ex_same_second H1 H2).
Defined.

(** X15: [backup_nvidia_profile_files] raises only before the copy, with
    nothing done yet: [TypeError] when PROGRAMDATA is not set (line 46), or
    the [PermissionError] of the existence test when the path of the
    profile directory cannot be examined (line 47, outside the [try]);
    every exception of the copy itself is caught.  And it never returns
    [False] in silence: the last thing it did then was to log a WARNING or
    an ERROR record. *)
Theorem profile_backup_failures E backup_dir w r w' :
  backup_nvidia_profile_files E backup_dir w = (r, w') →
  match r with
  | Raise e =>
      w' = w ∧
      ((e = TypeError ∧ PROGRAMDATA E = None) ∨
       (e = PermissionError ∧
        ∃ pd, PROGRAMDATA E = Some pd ∧ stat_refused E (src_dir_of pd) = true))
  | Ok false => ∃ lvl msg exc, lvl ≠ INFO ∧ last (trace w') = Some (EvLog lvl msg exc)
  | Ok true => True
  end.
Proof.
  unfold backup_nvidia_profile_files, get_src_dir. run.
  destruct (PROGRAMDATA E) as [pd|]; simpl; [|intros; simplify_eq; split; [done | by left]].
  unfold lift_fs at 1, Path_exists. simpl.
  destruct (stat_refused E (src_dir_of pd)) eqn:Hstat; simpl.
  { intros; simplify_eq. split; [by destruct w|]. right. split; [done|]. by exists pd. }
  destruct (exists_ (src_dir_of pd) (fs w)) eqn:Hex; simpl; intros H.
  - unfold emit, lift_fs in H. simpl in H.
    destruct (copytree _ _ _ _ (fs w)) as [[[]|e] f] eqn:Hcp; simpl in H.
    + log_step_with logging_log_spec H. by simplify_eq.
    + simplify_eq. simpl. eexists ERROR, _, _. split; [done|]. apply last_snoc.
  - unfold logging_warning, logging_log, emit in H. simplify_eq. simpl.
    eexists WARNING, _, _. split; [done|]. apply last_snoc.
Qed.

Lemma profile_backup_failures_witness :
  ∃ r w', backup_nvidia_profile_files ex_env_unreadable ex_backup_dir ex_world = (r, w') ∧
  match r with
  | Raise e =>
      w' = ex_world ∧
      ((e = TypeError ∧ PROGRAMDATA ex_env_unreadable = None) ∨
       (e = PermissionError ∧
        ∃ pd, PROGRAMDATA ex_env_unreadable = Some pd ∧
              stat_refused ex_env_unreadable (src_dir_of pd) = true))
  | Ok false => ∃ lvl msg exc, lvl ≠ INFO ∧ last (trace w') = Some (EvLog lvl msg exc)
  | Ok true => True
  end.
Proof.
  destruct (backup_nvidia_profile_files ex_env_unreadable ex_backup_dir ex_world)
    as [r w'] eqn:H.
  exists r, w'. split; [reflexivity|].
  exact (profile_backup_failures ex_env_unreadable ex_backup_dir ex_world r w' H).
Defined.

(** X16: when the path of the profile directory can be examined and holds
    a regular file ([exists()] returns [True] of it), the copy raises
    before it has made anything, the exception is caught, and
    [backup_nvidia_profile_files] returns [False] with the disk as it
    was. *)
Theorem profile_path_is_a_file E backup_dir w pd d :
  PROGRAMDATA E = Some pd →
  stat_refused E (src_dir_of pd) = false →
  fs w !! src_dir_of pd = Some (EFile d) →
  ∃ w', backup_nvidia_profile_files E backup_dir w = (Ok false, w') ∧ fs w' = fs w.
Proof.
  intros Hpd Hstat Hfile.
  destruct (backup_nvidia_profile_files E backup_dir w) as [r w'] eqn:H. exists w'.
  apply backup_nvidia_profile_files_spec in H as (_ & H). rewrite Hpd in H.
  cbv zeta in H. rewrite Hstat in H. unfold exists_ in H. rewrite Hfile in H.
  destruct H as (_ & r0 & Hcp & ->).
  destruct (recursion_limit E) as [|n]; simpl in Hcp; run.
  - by simplify_eq.
  - unfold scandir in Hcp. rewrite Hfile in Hcp. by simplify_eq.
Qed.

Lemma profile_path_is_a_file_witness :
  PROGRAMDATA ex_env = Some ex_programdata ∧
  stat_refused ex_env (src_dir_of ex_programdata) = false ∧
  fs (ex_world_on ex_fs_profile_file) !! src_dir_of ex_programdata
    = Some (EFile "not a directory") ∧
  ∃ w', backup_nvidia_profile_files ex_env ex_backup_dir (ex_world_on ex_fs_profile_file)
          = (Ok false, w') ∧
        fs w' = fs (ex_world_on ex_fs_profile_file).
Proof.
  assert (PROGRAMDATA ex_env = Some ex_programdata) as H1 by reflexivity.
  assert (stat_refused ex_env (src_dir_of ex_programdata) = false) as H2 by reflexivity.
  assert (fs (ex_world_on ex_fs_profile_file) !! src_dir_of ex_programdata
          = Some (EFile "not a directory")) as H3 by (vm_compute; reflexivity).
  split_and!; [exact H1 | exact H2 | exact H3 |].
  exact (profile_path_is_a_file ex_env ex_backup_dir _ ex_programdata _ H1 H2 H3).
Defined.

(** X17: [backup_nvidia_registry_settings] returns [True] exactly when
    [reg] exits with status 0.  Any other status is caught: the function
    returns [False], writes nothing itself (a [reg] that fails is taken to
    leave the disk alone), and the call of [reg] is followed by one ERROR
    record that carries the [CalledProcessError].  When [reg] cannot be
    started the [FileNotFoundError] is not caught. *)
Theorem registry_backup_outcome E backup_dir w r w' :
  backup_nvidia_registry_settings E backup_dir w = (r, w') →
  match reg_export E with
  | ProcNotFound =>
      r = Raise FileNotFoundError ∧ fs w' = fs w ∧
      trace w' = trace w ++ [EvSubprocess (reg_argv (reg_file_of backup_dir))]
  | ProcExit rc _ =>
      r = Ok (bool_decide (rc = 0%Z)) ∧
      (rc ≠ 0%Z →
       fs w' = fs w ∧
       trace w' = trace w ++
         [EvSubprocess (reg_argv (reg_file_of backup_dir));
          EvLog ERROR "Failed to back up NVIDIA registry settings: "
            (Some (CalledProcessError rc))])
  end.
Proof.
  unfold backup_nvidia_registry_settings, subprocess_run, reg_effect, emit. run.
  destruct (reg_export E) as [|rc out]; simpl.
  { intros; by simplify_eq. }
  destruct (decide (rc = 0%Z)) as [-> | Hrc]; simpl; intros H.
  - unfold lift_fs in H. simpl in H. log_step_with logging_log_spec H. by simplify_eq.
  - assert ((match rc with
             | 0%Z => lift_fs (λ f, (Ok (), <[reg_file_of backup_dir := EFile (reg_dump E)]> f))
             | _ => λ s : world, (Ok (), s)
             end) = λ s : world, (Ok (), s)) as Heff by (by destruct rc).
    rewrite Heff in H. simpl in H. destruct (decide (rc = 0%Z)); [done|].
    simpl in H. simplify_eq. simpl. rewrite bool_decide_eq_false_2 by done.
    split; [done|]. intros _. by rewrite <- app_assoc.
Qed.

Lemma registry_backup_outcome_witness :
  ∃ r w', backup_nvidia_registry_settings ex_env_reg_fails ex_backup_dir ex_world = (r, w') ∧
  match reg_export ex_env_reg_fails with
  | ProcNotFound =>
      r = Raise FileNotFoundError ∧ fs w' = fs ex_world ∧
      trace w' = trace ex_world ++ [EvSubprocess (reg_argv (reg_file_of ex_backup_dir))]
  | ProcExit rc _ =>
      r = Ok (bool_decide (rc = 0%Z)) ∧
      (rc ≠ 0%Z →
       fs w' = fs ex_world ∧
       trace w' = trace ex_world ++
         [EvSubprocess (reg_argv (reg_file_of ex_backup_dir));
          EvLog ERROR "Failed to back up NVIDIA registry settings: "
            (Some (CalledProcessError rc))])
  end.
Proof.
  destruct (backup_nvidia_registry_settings ex_env_reg_fails ex_backup_dir ex_world)
    as [r w'] eqn:H.
  exists r, w'. split; [reflexivity|].
  exact (registry_backup_outcome ex_env_reg_fails ex_backup_dir ex_world r w' H).
Defined.

(** ** What make_json.py does to the disk *)

(** X18: [make_json.py] runs to its end exactly when PROGRAMDATA is set and
    [config.json] can be opened for writing in the current directory. *)
Theorem make_json_completes_iff E w :
  (∃ w', make_json E w = (Ok (), w')) ↔
  is_Some (PROGRAMDATA E) ∧ can_write (denied E) (fs w) config_file.
Proof.
  unfold make_json, get_src_dir. split.
  - intros [w' H]. apply bind_inv in H as (r1 & w1 & H1 & H).
    destruct (PROGRAMDATA E) as [pd|]; [|by unfold raise in H1; simplify_eq; destruct H].
    unfold ret in H1. simplify_eq. split; [by eexists|].
    apply bind_inv in H as (r2 & w2 & H2 & H). apply emit_inv in H2 as (-> & Hfs2 & _ & _).
    apply bind_inv in H as (r3 & w3 & H3 & H). apply lift_fs_inv in H3 as (H3 & _ & _).
    destruct r3 as [[]|]; [|by destruct H]. rewrite Hfs2 in H3.
    by eapply open_w_can_inv.
  - intros [[pd Hpd] Hcan]. rewrite Hpd.
    unfold bind, ret, emit, print, lift_fs. simpl.
    rewrite (open_w_can _ _ _ Hcan). simpl.
    unfold f_write. rewrite lookup_insert_eq. by eexists.
Qed.

(** X19: whatever its outcome, [make_json.py] changes no path other than
    [config.json]; when it raises, the disk is as it was (a failed [open]
    has not emptied an existing file); and when PROGRAMDATA is not set it
    raises [TypeError] before anything has happened. *)
Theorem make_json_frame E w r w' :
  make_json E w = (r, w') →
  (∀ p, p ≠ config_file → fs w' !! p = fs w !! p) ∧
  (r ≠ Ok () → fs w' = fs w) ∧
  (PROGRAMDATA E = None → r = Raise TypeError ∧ w' = w).
Proof.
  unfold make_json, get_src_dir. intros H.
  apply bind_inv in H as (r1 & w1 & H1 & H).
  destruct (PROGRAMDATA E) as [pd|].
  2: { unfold raise in H1. simplify_eq. by destruct H as [-> ->]. }
  unfold ret in H1. simplify_eq.
  apply bind_inv in H as (r2 & w2 & H2 & H). apply emit_inv in H2 as (-> & Hfs2 & _ & _).
  apply bind_inv in H as (r3 & w3 & H3 & H). apply lift_fs_inv in H3 as (H3 & _ & _).
  rewrite Hfs2 in H3. destruct r3 as [[]|e].
  - assert (fs w3 = <[config_file := EFile ""]> (fs w1)) as Hfs3.
    { unfold open_w in H3. repeat case_match; by simplify_eq. }
    apply bind_inv in H as (r4 & w4 & H4 & H). apply lift_fs_inv in H4 as (H4 & _ & _).
    unfold f_write in H4. rewrite Hfs3, lookup_insert_eq in H4. injection H4 as <- Hfs4.
    apply emit_inv in H as (-> & Hfs' & _ & _).
    split_and!; [|done..]. intros p Hp. rewrite Hfs', <- Hfs4.
    by rewrite !lookup_insert_ne.
  - destruct H as [-> ->]. apply open_w_raise in H3. by rewrite H3.
Qed.

Lemma make_json_frame_witness :
  ∃ r w', make_json ex_env_no_programdata ex_world = (r, w') ∧
  (∀ p, p ≠ config_file → fs w' !! p = fs ex_world !! p) ∧
  (r ≠ Ok () → fs w' = fs ex_world) ∧
  (PROGRAMDATA ex_env_no_programdata = None → r = Raise TypeError ∧ w' = ex_world).
Proof.
  destruct (make_json ex_env_no_programdata ex_world) as [r w'] eqn:H.
  exists r, w'. split; [reflexivity|].
  exact (make_json_frame ex_env_no_programdata ex_world r w' H).
Defined.

Lemma hex_digit_plain n : is_plain_ascii (hex_digit n) = true.
Proof. unfold hex_digit. by repeat case_match. Qed.

Lemma escape_char_plain c rest :
  all_chars is_plain_ascii rest = true →
  all_chars is_plain_ascii (escape_char c rest) = true.
Proof.
  intros H. unfold escape_char.
  repeat (destruct (decide _)); simpl; rewrite ?hex_digit_plain, ?H; try done.
  rewrite andb_true_r. apply bool_decide_eq_true_2. by left.
Qed.

Lemma escape_plain s rest :
  all_chars is_plain_ascii rest = true →
  all_chars is_plain_ascii (escape s rest) = true.
Proof. intros H. induction s as [|c s IH]; [done|]. simpl. by apply escape_char_plain. Qed.

Lemma json_dumps_single_plain k v : all_chars is_plain_ascii (json_dumps [(k, v)]) = true.
Proof.
  unfold json_dumps, dump_items, encode_basestring_ascii.
  change (all_chars is_plain_ascii
            ("{" +:+ nl +:+ "    " +:+
             String dquote (escape k (String dquote (": " +:+
               String dquote (escape v (String dquote (nl +:+ "}"))))))) = true).
  rewrite !all_chars_app. simpl.
  apply escape_plain. simpl. by apply escape_plain.
Qed.

(** X20: the text that [make_json.py] writes is plain ASCII, printable
    characters and line feeds, whatever characters PROGRAMDATA holds
    ([json.dump] escapes the others): the encoding that [open] picks for
    the file cannot fail on it, and the file reads the same in every
    encoding that extends ASCII. *)
Theorem config_json_is_plain_ascii E w w' :
  make_json E w = (Ok (), w') →
  ∃ doc, fs w' !! config_file = Some (EFile doc) ∧ all_chars is_plain_ascii doc = true.
Proof.
  unfold make_json, get_src_dir. intros H.
  apply bind_inv in H as (r1 & w1 & H1 & H).
  destruct (PROGRAMDATA E) as [pd|]; [|by unfold raise in H1; simplify_eq; destruct H].
  unfold ret in H1. simplify_eq.
  apply bind_inv in H as (r2 & w2 & H2 & H). apply emit_inv in H2 as (-> & Hfs2 & _ & _).
  apply bind_inv in H as (r3 & w3 & H3 & H). apply lift_fs_inv in H3 as (H3 & _ & _).
  destruct r3 as [[]|]; [|by destruct H].
  assert (fs w3 = <[config_file := EFile ""]> (fs w2)) as Hfs3.
  { unfold open_w in H3. repeat case_match; by simplify_eq. }
  apply bind_inv in H as (r4 & w4 & H4 & H). apply lift_fs_inv in H4 as (H4 & _ & _).
  unfold f_write in H4. rewrite Hfs3, lookup_insert_eq in H4. injection H4 as <- Hfs4.
  apply emit_inv in H as (_ & Hfs' & _ & _).
  eexists. split; [rewrite Hfs', <- Hfs4; apply lookup_insert_eq|].
  apply json_dumps_single_plain.
Qed.

Lemma config_json_is_plain_ascii_witness :
  ∃ w', make_json ex_env_latin ex_world = (Ok (), w') ∧
  ∃ doc, fs w' !! config_file = Some (EFile doc) ∧ all_chars is_plain_ascii doc = true.
Proof.
  assert ((make_json ex_env_latin ex_world).1 = Ok ()) as H1 by (vm_compute; reflexivity).
  destruct (make_json ex_env_latin ex_world) as [r w'] eqn:H. simpl in H1. subst r.
  exists w'. split; [reflexivity | exact (config_json_is_plain_ascii ex_env_latin ex_world w' H)].
Defined.
